(** * LogAnalyzer: the detection engine of [EventDetector.cpp]

    A shallow embedding of [EventDetector] (the three detectors and
    [detectAll]) together with the data model of [LogEntry.h] and
    [EventDetector.h], and the properties the specification states
    about them.

    Conventions of the embedding.
    - [std::chrono::system_clock::time_point] is the number of clock
      ticks since the epoch, a [Z]; the tick period, the local time
      zone and the order [std::sort] gives to records with equal
      timestamps are left to the platform (class [Platform]).  The
      detectors subtract time points in exact arithmetic, which is
      what the code computes for time points at most 2^63 - 1 ticks
      apart; [isWithinTimeWindow_int64] is the test with the 64-bit
      subtraction of the code, and the statements that depend on the
      difference assume [span_fits_int64] of the input.
    - [int] and [size_t] values are [Z] and [nat]; signed overflow is
      undefined in C++ and out of reach for collections that fit in
      memory, so no wrap-around is modelled.
    - [std::vector] is [list]; [operator[]] is [nth_error], and an index
      past the end is the outcome [OutOfRange].
    - [std::map<std::string, _>] is an association list kept in
      ascending key order, [std::set<std::string>] a strictly ascending
      list: both are iterated in that order by the code.
    - The index loops ([for (size_t i = ...)], whose cursor the body
      may reassign, and [for (size_t j = ...)]) take fuel; running dry
      is the outcome [OutOfFuel].  The range-for loops are structural
      recursion on the container. *)

From Stdlib Require Import ZArith String Ascii List Bool Lia.
From Stdlib Require Import Permutation Sorted DecimalString DecimalPos.
Import ListNotations.

Local Open Scope string_scope.
Local Open Scope list_scope.
Local Open Scope Z_scope.

(* ================================================================== *)
(** * Data model ([LogEntry.h], [EventDetector.h]) *)
(* ================================================================== *)

Inductive LoginStatus : Type :=
| SUCCESS
| FAILED
| UNKNOWN.

Definition LoginStatus_eqb (a b : LoginStatus) : bool :=
  match a, b with
  | SUCCESS, SUCCESS | FAILED, FAILED | UNKNOWN, UNKNOWN => true
  | _, _ => false
  end.

(** [std::chrono::system_clock::time_point]: ticks since the epoch. *)
Definition time_point : Type := Z.

Record LogEntry : Type := mkLogEntry {
  timestamp : time_point;
  username : string;
  ip_address : string;
  status : LoginStatus
}.

Inductive SuspiciousEventType : Type :=
| MULTIPLE_FAILED_LOGINS
| LOGIN_OUTSIDE_BUSINESS_HOURS
| MULTIPLE_IP_ADDRESSES.

(** The members [type] and [username] are [ev_type] and [ev_username]
    here: [username] is already the projection of [LogEntry]. *)
Record SuspiciousEvent : Type := mkSuspiciousEvent {
  ev_type : SuspiciousEventType;
  ev_username : string;
  ip_addresses : list string;
  first_occurrence : time_point;
  last_occurrence : time_point;
  event_count : Z;
  description : string
}.

(** The parameterized constructor of [SuspiciousEvent]: the single
    address becomes a one-element vector, the description is empty. *)
Definition SuspiciousEvent_ctor (evt_type : SuspiciousEventType)
    (user ip : string) (first_time last_time : time_point) (count : Z)
  : SuspiciousEvent :=
  {| ev_type := evt_type;
     ev_username := user;
     ip_addresses := [ip];
     first_occurrence := first_time;
     last_occurrence := last_time;
     event_count := count;
     description := "" |}.

Definition set_description (e : SuspiciousEvent) (d : string) : SuspiciousEvent :=
  {| ev_type := ev_type e;
     ev_username := ev_username e;
     ip_addresses := ip_addresses e;
     first_occurrence := first_occurrence e;
     last_occurrence := last_occurrence e;
     event_count := event_count e;
     description := d |}.

Definition set_ip_addresses (e : SuspiciousEvent) (ips : list string) : SuspiciousEvent :=
  {| ev_type := ev_type e;
     ev_username := ev_username e;
     ip_addresses := ips;
     first_occurrence := first_occurrence e;
     last_occurrence := last_occurrence e;
     event_count := event_count e;
     description := description e |}.

(** The private configuration members of [class EventDetector]. *)
Record EventDetector : Type := mkEventDetector {
  failed_login_threshold_ : Z;
  time_window_minutes_ : Z;
  business_hour_start_ : Z;
  business_hour_end_ : Z
}.

(** [EventDetector::EventDetector()] *)
Definition EventDetector_default : EventDetector :=
  mkEventDetector 5 10 8 18.

(** [std::to_string] on an [int]. *)
Definition to_string (n : Z) : string :=
  NilZero.string_of_int (Z.to_int n).

(* ================================================================== *)
(** * What the platform fixes *)
(* ================================================================== *)

Definition timestamp_le (a b : LogEntry) : Prop := timestamp a <= timestamp b.

(** The parts of the C++ library the code relies on and the standard
    leaves open: the period of [system_clock], the time zone behind
    [std::localtime], and [std::sort] called with the comparator
    [a.timestamp < b.timestamp], which returns some permutation in
    non-decreasing timestamp order (it is not a stable sort). *)
Class Platform : Type := {
  ticks_per_second : Z;
  localtime_hour : Z -> Z;
  sort_by_timestamp : list LogEntry -> list LogEntry;
  ticks_per_second_pos : 0 < ticks_per_second;
  sort_by_timestamp_perm : forall l, Permutation (sort_by_timestamp l) l;
  sort_by_timestamp_sorted : forall l, StronglySorted timestamp_le (sort_by_timestamp l)
}.

(** ** A concrete platform: nanosecond ticks, UTC, insertion sort *)

(** The record goes in front of the first one that is not earlier, so
    that records with equal timestamps keep the order of the input. *)
Fixpoint insert_by_timestamp (e : LogEntry) (l : list LogEntry) : list LogEntry :=
  match l with
  | [] => [e]
  | x :: l' =>
      if timestamp e <=? timestamp x then e :: l
      else x :: insert_by_timestamp e l'
  end.

Fixpoint insertion_sort (l : list LogEntry) : list LogEntry :=
  match l with
  | [] => []
  | x :: l' => insert_by_timestamp x (insertion_sort l')
  end.

Definition utc_hour (t : Z) : Z := (t / 3600) mod 24.

(* ================================================================== *)
(** * Outcomes of the index loops *)
(* ================================================================== *)

Inductive outcome (A : Type) : Type :=
| Returned (a : A)
| OutOfRange
| OutOfFuel.

Arguments Returned {A} a.
Arguments OutOfRange {A}.
Arguments OutOfFuel {A}.

Definition bind {A B : Type} (c : outcome A) (k : A -> outcome B) : outcome B :=
  match c with
  | Returned a => k a
  | OutOfRange => OutOfRange
  | OutOfFuel => OutOfFuel
  end.

Notation "x <- c ;; k" := (bind c (fun x => k))
  (at level 61, c at next level, right associativity).
Notation "' pat <- c ;; k" := (bind c (fun x => match x with pat => k end))
  (at level 61, pat pattern, c at next level, right associativity).

(** [v[i]] *)
Definition at_index {A : Type} (v : list A) (i : nat) : outcome A :=
  match nth_error v i with
  | Some x => Returned x
  | None => OutOfRange
  end.

(* ================================================================== *)
(** * Containers keyed by text *)
(* ================================================================== *)

(** [std::set<std::string>::insert] *)
Fixpoint set_insert (s : list string) (x : string) : list string :=
  match s with
  | [] => [x]
  | y :: s' =>
      match String.compare x y with
      | Lt => x :: s
      | Eq => s
      | Gt => y :: set_insert s' x
      end
  end.

(** [m[key].push_back(entry)] on a [std::map<std::string, std::vector<LogEntry>>]:
    [operator[]] creates an empty vector for a new key. *)
Fixpoint map_push_back (m : list (string * list LogEntry)) (key : string)
    (entry : LogEntry) : list (string * list LogEntry) :=
  match m with
  | [] => [(key, [entry])]
  | (k, v) :: m' =>
      match String.compare key k with
      | Lt => (key, [entry]) :: m
      | Eq => (k, v ++ [entry]) :: m'
      | Gt => (k, v) :: map_push_back m' key entry
      end
  end.

(** Step 1 of both clustering detectors: the records with status [st],
    grouped by user name. *)
Definition group_by_user (st : LoginStatus) (entries : list LogEntry)
  : list (string * list LogEntry) :=
  fold_left
    (fun m entry =>
       if LoginStatus_eqb (status entry) st
       then map_push_back m (username entry) entry
       else m)
    entries [].

(* ================================================================== *)
(** * The detector ([EventDetector.cpp]) *)
(* ================================================================== *)

Local Infix "+++" := String.append (at level 60, right associativity).

Section Detector.

Context {P : Platform}.
Variable self : EventDetector.

Definition ticks_per_minute : Z := 60 * ticks_per_second.

(** [EventDetector::isWithinTimeWindow], the difference taken in exact
    arithmetic: this is the value of the code for time points at most
    2^63 - 1 ticks apart.  Beyond that the 64-bit difference of the
    code overflows, see [isWithinTimeWindow_int64]. *)
Definition isWithinTimeWindow (time1 time2 : time_point) : bool :=
  let duration := if time1 >? time2 then time1 - time2 else time2 - time1 in
  let minutes := Z.quot duration ticks_per_minute in
  minutes <=? time_window_minutes_ self.

(** [EventDetector::getHourOfDay]: [to_time_t] truncates to whole
    seconds, [std::localtime] gives the hour in the local zone. *)
Definition getHourOfDay (t : time_point) : Z :=
  let time := Z.quot t ticks_per_second in
  localtime_hour time.

(** ** [detectMultipleFailedLogins] *)

(** The inner loop [for (size_t j = i + 1; j < size; ++j)]: it counts
    the records within the window of [window_start] and stops at the
    first one that is not. *)
Fixpoint count_forward (fuel : nat) (user_failed_logins : list LogEntry)
    (window_start : LogEntry) (j : nat) (count : Z) (window_end_idx : nat)
  : outcome (Z * nat) :=
  match fuel with
  | O => OutOfFuel
  | S fuel' =>
      if (j <? length user_failed_logins)%nat then
        entry_j <- at_index user_failed_logins j ;;
        if isWithinTimeWindow (timestamp window_start) (timestamp entry_j)
        then count_forward fuel' user_failed_logins window_start
               (S j) (count + 1) j
        else Returned (count, window_end_idx)
      else Returned (count, window_end_idx)
  end.

Definition failed_logins_description (user : string) (count : Z) : string :=
  "User '" +++ user +++ "' had " +++ to_string count +++
  " failed login attempts within " +++
  to_string (time_window_minutes_ self) +++ " minutes".

(** Step 4: the event built for a cluster and its description. *)
Definition failed_logins_event (user : string)
    (window_start window_end : LogEntry) (count : Z) : SuspiciousEvent :=
  let event :=
    SuspiciousEvent_ctor MULTIPLE_FAILED_LOGINS user
      (ip_address window_start) (timestamp window_start)
      (timestamp window_end) count in
  set_description event (failed_logins_description user count).

(** The loop [for (size_t i = 0; i < size; ++i)] over one user's sorted
    records; [i = window_end_idx] followed by [++i] resumes the scan at
    [S window_end_idx]. *)
Fixpoint failed_logins_loop (fuel : nat) (user : string)
    (user_failed_logins : list LogEntry) (i : nat)
    (detected_events : list SuspiciousEvent)
  : outcome (list SuspiciousEvent) :=
  match fuel with
  | O => OutOfFuel
  | S fuel' =>
      if (i <? length user_failed_logins)%nat then
        window_start <- at_index user_failed_logins i ;;
        ' (count, window_end_idx) <-
          count_forward (length user_failed_logins) user_failed_logins
            window_start (S i) 1 i ;;
        if count >=? failed_login_threshold_ self then
          window_end <- at_index user_failed_logins window_end_idx ;;
          let event := failed_logins_event user window_start window_end count in
          failed_logins_loop fuel' user user_failed_logins
            (S window_end_idx) (detected_events ++ [event])
        else
          failed_logins_loop fuel' user user_failed_logins (S i)
            detected_events
      else Returned detected_events
  end.

(** The loop over the map, in key order; each vector is sorted first. *)
Fixpoint failed_logins_each_user (failed_logins_by_user : list (string * list LogEntry))
    (detected_events : list SuspiciousEvent)
  : outcome (list SuspiciousEvent) :=
  match failed_logins_by_user with
  | [] => Returned detected_events
  | (user, user_failed_logins) :: rest =>
      let user_failed_logins := sort_by_timestamp user_failed_logins in
      detected_events <-
        failed_logins_loop (S (length user_failed_logins)) user
          user_failed_logins 0 detected_events ;;
      failed_logins_each_user rest detected_events
  end.

Definition detectMultipleFailedLogins (entries : list LogEntry)
  : outcome (list SuspiciousEvent) :=
  let failed_logins_by_user := group_by_user FAILED entries in
  failed_logins_each_user failed_logins_by_user [].

(** ** [detectLoginsOutsideBusinessHours] *)

Definition outside_hours_description (user : string) (hour : Z) : string :=
  "User '" +++ user +++ "' logged in at hour " +++ to_string hour +++
  " (outside business hours: " +++
  to_string (business_hour_start_ self) +++ ":00-" +++
  to_string (business_hour_end_ self) +++ ":00)".

Definition outside_hours_event (entry : LogEntry) (hour : Z) : SuspiciousEvent :=
  let event :=
    SuspiciousEvent_ctor LOGIN_OUTSIDE_BUSINESS_HOURS
      (username entry) (ip_address entry)
      (timestamp entry) (timestamp entry) 1 in
  set_description event (outside_hours_description (username entry) hour).

Fixpoint outside_hours_loop (entries : list LogEntry)
    (detected_events : list SuspiciousEvent) : list SuspiciousEvent :=
  match entries with
  | [] => detected_events
  | entry :: rest =>
      if negb (LoginStatus_eqb (status entry) SUCCESS) then
        outside_hours_loop rest detected_events
      else
        let hour := getHourOfDay (timestamp entry) in
        let outside_hours :=
          (hour <? business_hour_start_ self) ||
          (hour >=? business_hour_end_ self) in
        if outside_hours then
          let event := outside_hours_event entry hour in
          outside_hours_loop rest (detected_events ++ [event])
        else outside_hours_loop rest detected_events
  end.

Definition detectLoginsOutsideBusinessHours (entries : list LogEntry)
  : list SuspiciousEvent :=
  outside_hours_loop entries [].

(** ** [detectMultipleIPAddresses] *)

(** The inner loop: the addresses of the records within the window of
    [window_start] are inserted into the set. *)
Fixpoint collect_forward (fuel : nat) (user_logins : list LogEntry)
    (window_start : LogEntry) (j : nat) (ips : list string)
    (window_end_idx : nat) : outcome (list string * nat) :=
  match fuel with
  | O => OutOfFuel
  | S fuel' =>
      if (j <? length user_logins)%nat then
        entry_j <- at_index user_logins j ;;
        if isWithinTimeWindow (timestamp window_start) (timestamp entry_j)
        then collect_forward fuel' user_logins window_start (S j)
               (set_insert ips (ip_address entry_j)) j
        else Returned (ips, window_end_idx)
      else Returned (ips, window_end_idx)
  end.

Definition multiple_ips_description (user : string) (size : nat) : string :=
  "User '" +++ user +++ "' logged in from " +++
  to_string (Z.of_nat size) +++ " different IP addresses within " +++
  to_string (time_window_minutes_ self) +++ " minutes".

(** Step 4: the event is built with an empty address, then its vector
    is cleared and refilled from the set in iteration order. *)
Definition multiple_ips_event (user : string)
    (window_start window_end : LogEntry) (ips : list string) : SuspiciousEvent :=
  let event :=
    SuspiciousEvent_ctor MULTIPLE_IP_ADDRESSES user ""
      (timestamp window_start) (timestamp window_end)
      (Z.of_nat (length ips)) in
  let event :=
    set_ip_addresses event (fold_left (fun v ip => v ++ [ip]) ips []) in
  set_description event (multiple_ips_description user (length ips)).

Fixpoint multiple_ips_loop (fuel : nat) (user : string)
    (user_logins : list LogEntry) (i : nat)
    (detected_events : list SuspiciousEvent)
  : outcome (list SuspiciousEvent) :=
  match fuel with
  | O => OutOfFuel
  | S fuel' =>
      if (i <? length user_logins)%nat then
        window_start <- at_index user_logins i ;;
        let ips := set_insert [] (ip_address window_start) in
        ' (ips, window_end_idx) <-
          collect_forward (length user_logins) user_logins window_start
            (S i) ips i ;;
        if (2 <=? length ips)%nat then
          window_end <- at_index user_logins window_end_idx ;;
          let event := multiple_ips_event user window_start window_end ips in
          multiple_ips_loop fuel' user user_logins (S window_end_idx)
            (detected_events ++ [event])
        else
          multiple_ips_loop fuel' user user_logins (S i) detected_events
      else Returned detected_events
  end.

Fixpoint multiple_ips_each_user (logins_by_user : list (string * list LogEntry))
    (detected_events : list SuspiciousEvent)
  : outcome (list SuspiciousEvent) :=
  match logins_by_user with
  | [] => Returned detected_events
  | (user, user_logins) :: rest =>
      let user_logins := sort_by_timestamp user_logins in
      detected_events <-
        multiple_ips_loop (S (length user_logins)) user user_logins 0
          detected_events ;;
      multiple_ips_each_user rest detected_events
  end.

Definition detectMultipleIPAddresses (entries : list LogEntry)
  : outcome (list SuspiciousEvent) :=
  let logins_by_user := group_by_user SUCCESS entries in
  multiple_ips_each_user logins_by_user [].

(** ** [detectAll] *)

Definition detectAll (entries : list LogEntry)
  : outcome (list SuspiciousEvent) :=
  let all_events := [] in
  failed_logins <- detectMultipleFailedLogins entries ;;
  let outside_hours := detectLoginsOutsideBusinessHours entries in
  multiple_ips <- detectMultipleIPAddresses entries ;;
  let all_events := all_events ++ failed_logins in
  let all_events := all_events ++ outside_hours in
  let all_events := all_events ++ multiple_ips in
  Returned all_events.

End Detector.

Arguments isWithinTimeWindow {P} self time1 time2.
Arguments getHourOfDay {P} t.

(* ================================================================== *)
(** * Vocabulary of the statements *)
(* ================================================================== *)

(** [std::less<std::string>]: lexicographic on character codes. *)
Definition str_lt (a b : string) : Prop := String.compare a b = Lt.

(** The vector stored under [key], empty when the key is absent. *)
Fixpoint map_find (m : list (string * list LogEntry)) (key : string)
  : list LogEntry :=
  match m with
  | [] => []
  | (k, v) :: m' => if String.eqb k key then v else map_find m' key
  end.

Definition keys (m : list (string * list LogEntry)) : list string :=
  map fst m.

(** The records [group_by_user st] files under [user]. *)
Definition selected (st : LoginStatus) (user : string) (e : LogEntry) : bool :=
  LoginStatus_eqb (status e) st && String.eqb (username e) user.

(** The findings that name [user]. *)
Definition events_for_user (user : string) (events : list SuspiciousEvent)
  : list SuspiciousEvent :=
  filter (fun f => String.eqb (ev_username f) user) events.

(** An event of the loop: emitted at some anchor of [v]. *)
Definition emitted (v : list LogEntry)
    (emit : nat -> LogEntry -> option (nat * SuspiciousEvent))
    (e : SuspiciousEvent) : Prop :=
  exists i a n, nth_error v i = Some a /\ emit i a = Some (n, e).

Section Vocabulary.

Context {P : Platform}.
Variable self : EventDetector.

(** How many leading records of [l] are within the window of [t0]. *)
Fixpoint within_run (t0 : time_point) (l : list LogEntry) : nat :=
  match l with
  | [] => O
  | e :: l' =>
      if isWithinTimeWindow self t0 (timestamp e)
      then S (within_run t0 l')
      else O
  end.

(** What [failed_logins_loop] does at anchor [i], where [a = v[i]]. *)
Definition failed_logins_emit (user : string) (v : list LogEntry)
    (i : nat) (a : LogEntry)
  : option (nat * SuspiciousEvent) :=
  let n := within_run (timestamp a) (skipn (S i) v) in
  let count := 1 + Z.of_nat n in
  if count >=? failed_login_threshold_ self
  then Some (n, failed_logins_event self user a (nth (i + n) v a) count)
  else None.

(** What [multiple_ips_loop] does at anchor [i], where [a = v[i]]. *)
Definition multiple_ips_emit (user : string) (v : list LogEntry)
    (i : nat) (a : LogEntry)
  : option (nat * SuspiciousEvent) :=
  let n := within_run (timestamp a) (skipn (S i) v) in
  let ips :=
    fold_left set_insert (map ip_address (firstn n (skipn (S i) v)))
      (set_insert [] (ip_address a)) in
  if (2 <=? length ips)%nat
  then Some (n, multiple_ips_event self user a (nth (i + n) v a) ips)
  else None.

(** The events of one user's sorted vector. *)
Definition failed_logins_of (user : string) (v : list LogEntry)
  : list SuspiciousEvent :=
  match failed_logins_loop self (S (length v)) user v 0 [] with
  | Returned events => events
  | _ => []
  end.

Definition multiple_ips_of (user : string) (v : list LogEntry)
  : list SuspiciousEvent :=
  match multiple_ips_loop self (S (length v)) user v 0 [] with
  | Returned events => events
  | _ => []
  end.

End Vocabulary.

(** ** Inputs of the concrete runs *)

(** [createTimestamp] of the unit tests: 2026-01-18 at [hour]:[minute]. *)
Definition createTimestamp (hour minute : Z) : time_point :=
  (1768694400 + 3600 * hour + 60 * minute) * 1000000000.

Definition failed_at (hour minute : Z) (user ip : string) : LogEntry :=
  mkLogEntry (createTimestamp hour minute) user ip FAILED.

Definition success_at (hour minute : Z) (user ip : string) : LogEntry :=
  mkLogEntry (createTimestamp hour minute) user ip SUCCESS.

Definition alice_seven : list LogEntry :=
  map (fun k => failed_at 10 k "alice" "192.168.1.1") [0; 1; 2; 3; 4; 5; 6].

Definition alice_two : list LogEntry :=
  [ failed_at 10 10 "alice" "192.168.1.1";
    failed_at 10 15 "alice" "192.168.1.1" ].

Definition alice_earlier : LogEntry := failed_at 10 0 "alice" "192.168.1.1".

Definition alice_four_and_bob : list LogEntry :=
  [ failed_at 10 0 "alice" "10.0.0.1";
    failed_at 10 1 "bob" "10.0.0.9";
    failed_at 10 2 "alice" "10.0.0.1";
    success_at 10 3 "alice" "10.0.0.1";
    failed_at 10 4 "alice" "10.0.0.2";
    failed_at 10 6 "alice" "10.0.0.1" ].

Definition alice_two_early : list LogEntry :=
  [ failed_at 10 0 "alice" "192.168.1.1";
    failed_at 10 5 "alice" "192.168.1.1" ].

Definition alice_three_logins : list LogEntry :=
  [ success_at 10 0 "alice" "10.0.0.2";
    success_at 10 1 "alice" "10.0.0.1";
    success_at 10 2 "alice" "10.0.0.2" ].

(** ** The events of one vector, in the order the anchor loop emits them *)

(** [chain v emit i events]: scanning the anchors of [v] from [i] on,
    [events] are emitted in this order, each at the first anchor past
    the cluster of the one before at which [emit] gives an event; no
    anchor passed over gives one. *)
Inductive chain (v : list LogEntry)
    (emit : nat -> LogEntry -> option (nat * SuspiciousEvent))
  : nat -> list SuspiciousEvent -> Prop :=
| chain_end (i : nat) :
    (forall k b, (i <= k)%nat -> nth_error v k = Some b -> emit k b = None) ->
    chain v emit i []
| chain_emit (i j : nat) (a : LogEntry) (n : nat) (e : SuspiciousEvent)
    (events : list SuspiciousEvent) :
    (i <= j)%nat ->
    (forall k b, (i <= k < j)%nat -> nth_error v k = Some b ->
       emit k b = None) ->
    nth_error v j = Some a ->
    emit j a = Some (n, e) ->
    chain v emit (S (j + n)) events ->
    chain v emit i (e :: events).

(** The sum of the counts of a sequence of findings. *)
Definition total_count (events : list SuspiciousEvent) : Z :=
  fold_right (fun f acc => event_count f + acc) 0 events.

(** The records with status [st]. *)
Definition has_status (st : LoginStatus) (e : LogEntry) : bool :=
  LoginStatus_eqb (status e) st.

(** The records of [user]. *)
Definition of_user (user : string) (e : LogEntry) : bool :=
  String.eqb (username e) user.

(** User names in the order of [std::map]: equal or ascending. *)
Definition username_le (f g : SuspiciousEvent) : Prop :=
  ev_username f = ev_username g \/ str_lt (ev_username f) (ev_username g).

(* ================================================================== *)
(** * The configuration ([ConfigManager.h], [ConfigManager.cpp]) *)
(* ================================================================== *)

Record Configuration : Type := mkConfiguration {
  failed_login_threshold : Z;
  time_window_minutes : Z;
  business_hour_start : Z;
  business_hour_end : Z;
  log_file_path : string;
  report_output_path : string
}.

(** [Configuration::Configuration()] *)
Definition Configuration_default : Configuration :=
  mkConfiguration 5 10 8 18 "logs/sample.log" "reports/report.txt".

(** The members of [class ConfigManager]. *)
Record ConfigManager : Type := mkConfigManager {
  config_ : Configuration;
  help_requested_ : bool
}.

(** [ConfigManager::ConfigManager()] *)
Definition ConfigManager_default : ConfigManager :=
  mkConfigManager Configuration_default false.

(** Assignments to one member. *)
Definition set_log_file_path (c : Configuration) (x : string) :=
  mkConfiguration (failed_login_threshold c) (time_window_minutes c)
    (business_hour_start c) (business_hour_end c) x (report_output_path c).

Definition set_report_output_path (c : Configuration) (x : string) :=
  mkConfiguration (failed_login_threshold c) (time_window_minutes c)
    (business_hour_start c) (business_hour_end c) (log_file_path c) x.

Definition set_failed_login_threshold (c : Configuration) (x : Z) :=
  mkConfiguration x (time_window_minutes c)
    (business_hour_start c) (business_hour_end c)
    (log_file_path c) (report_output_path c).

Definition set_time_window_minutes (c : Configuration) (x : Z) :=
  mkConfiguration (failed_login_threshold c) x
    (business_hour_start c) (business_hour_end c)
    (log_file_path c) (report_output_path c).

Definition set_business_hours (c : Configuration) (x y : Z) :=
  mkConfiguration (failed_login_threshold c) (time_window_minutes c) x y
    (log_file_path c) (report_output_path c).

Definition set_config (self : ConfigManager) (c : Configuration) :=
  mkConfigManager c (help_requested_ self).

Definition set_help_requested (self : ConfigManager) (b : bool) :=
  mkConfigManager (config_ self) b.

(** [std::string::empty] *)
Definition empty (s : string) : bool :=
  match s with
  | EmptyString => true
  | String _ _ => false
  end.

(** [ConfigManager::validateConfiguration] *)
Definition validateConfiguration (self : ConfigManager) : bool :=
  let c := config_ self in
  if failed_login_threshold c <=? 0 then false
  else if time_window_minutes c <=? 0 then false
  else if (business_hour_start c <? 0) || (business_hour_start c >? 23)
  then false
  else if (business_hour_end c <? 0) || (business_hour_end c >? 23)
  then false
  else if business_hour_start c >=? business_hour_end c then false
  else if empty (log_file_path c) then false
  else if empty (report_output_path c) then false
  else true.

(** [ConfigManager::setConfiguration]: the result and the manager after
    the call. *)
Definition setConfiguration (self : ConfigManager) (config : Configuration)
  : bool * ConfigManager :=
  let temp := config_ self in
  let self := set_config self config in
  if negb (validateConfiguration self)
  then (false, set_config self temp)
  else (true, self).

(** [std::isdigit] in the "C" locale. *)
Definition isdigit (c : ascii) : bool :=
  (48 <=? N_of_ascii c)%N && (N_of_ascii c <=? 57)%N.

(** The range of [int], 32 bits wide. *)
Definition INT_MAX : Z := 2147483647.
Definition INT_MIN : Z := -2147483648.

(** The loop [for (size_t i = start_pos; i < str.length(); ++i)]. *)
Fixpoint all_digits (s : string) : bool :=
  match s with
  | EmptyString => true
  | String c s' => if negb (isdigit c) then false else all_digits s'
  end.

(** What [iss >> value] reads from a text of decimal digits. *)
Fixpoint decimal_value (s : string) (acc : Z) : Z :=
  match s with
  | EmptyString => acc
  | String c s' => decimal_value s' (10 * acc + (Z.of_N (N_of_ascii c) - 48))
  end.

(** [ConfigManager::parseInteger]: [Some value] when it returns true.
    Once the text is known to be an optional minus sign and digits,
    the extraction [iss >> value] reads all of it and fails exactly
    when the number is out of the range of [int]. *)
Definition parseInteger (str : string) : option Z :=
  match str with
  | EmptyString => None
  | String c rest =>
      let negative := Ascii.eqb c "-" in
      if negative && (String.length str =? 1)%nat then None
      else if negb (all_digits (if negative then rest else str)) then None
      else
        let value :=
          if negative then - decimal_value rest 0 else decimal_value str 0 in
        if (value <? INT_MIN) || (value >? INT_MAX) then None
        else Some value
  end.

(** [ConfigManager::parseBusinessHours]: [Some (start, end)] when it
    returns true. *)
Definition parseBusinessHours (hours_str : string) : option (Z * Z) :=
  match index 0 "-" hours_str with
  | None => None
  | Some dash_pos =>
      let start_str := substring 0 dash_pos hours_str in
      let end_str :=
        substring (dash_pos + 1)
          (String.length hours_str - (dash_pos + 1)) hours_str in
      match parseInteger start_str with
      | None => None
      | Some start =>
          match parseInteger end_str with
          | None => None
          | Some end_ =>
              if (start <? 0) || (start >? 23) || (end_ <? 0) || (end_ >? 23)
              then None
              else if start >=? end_ then None
              else Some (start, end_)
          end
      end
  end.

(** The loop of [parseCommandLineArgs] over [argv[1]], [argv[2]], ...:
    [Some result] when the loop is left by [return result], the
    manager, and the lines written to [std::cerr]. *)
Fixpoint args_loop (args : list string) (self : ConfigManager)
  : option bool * ConfigManager * list string :=
  match args with
  | [] => (None, self, [])
  | arg :: rest =>
      if String.eqb arg "--help" || String.eqb arg "-h" then
        (Some true, set_help_requested self true, [])
      else if String.eqb arg "--input" || String.eqb arg "-i" then
        match rest with
        | [] => (Some false, self, ["Error: --input requires a file path"])
        | value :: rest' =>
            args_loop rest'
              (set_config self (set_log_file_path (config_ self) value))
        end
      else if String.eqb arg "--output" || String.eqb arg "-o" then
        match rest with
        | [] => (Some false, self, ["Error: --output requires a file path"])
        | value :: rest' =>
            args_loop rest'
              (set_config self (set_report_output_path (config_ self) value))
        end
      else if String.eqb arg "--threshold" || String.eqb arg "-t" then
        match rest with
        | [] => (Some false, self, ["Error: --threshold requires a number"])
        | value :: rest' =>
            match parseInteger value with
            | None => (Some false, self, ["Error: Invalid threshold value"])
            | Some threshold =>
                args_loop rest'
                  (set_config self
                     (set_failed_login_threshold (config_ self) threshold))
            end
        end
      else if String.eqb arg "--window" || String.eqb arg "-w" then
        match rest with
        | [] =>
            (Some false, self,
             ["Error: --window requires a number (minutes)"])
        | value :: rest' =>
            match parseInteger value with
            | None => (Some false, self, ["Error: Invalid window value"])
            | Some window =>
                args_loop rest'
                  (set_config self
                     (set_time_window_minutes (config_ self) window))
            end
        end
      else if String.eqb arg "--hours" then
        match rest with
        | [] =>
            (Some false, self,
             ["Error: --hours requires a range (e.g., 9-17)"])
        | value :: rest' =>
            match parseBusinessHours value with
            | None =>
                (Some false, self,
                 ["Error: Invalid business hours format (use: start-end)"])
            | Some (start, end_) =>
                args_loop rest'
                  (set_config self
                     (set_business_hours (config_ self) start end_))
            end
        end
      else
        (Some false, self, ["Error: Unknown argument '" +++ arg +++ "'"])
  end.

(** [ConfigManager::parseCommandLineArgs] on [argv[0 .. argc-1]]: the
    result, the manager after the call and the lines written to
    [std::cerr]. *)
Definition parseCommandLineArgs (argv : list string) (self : ConfigManager)
  : bool * ConfigManager * list string :=
  let self := set_help_requested self false in
  match args_loop (tl argv) self with
  | (Some result, self, cerr) => (result, self, cerr)
  | (None, self, cerr) =>
      if negb (help_requested_ self) && negb (validateConfiguration self)
      then (false, self, cerr ++ ["Error: Invalid configuration values"])
      else (true, self, cerr)
  end.

(* ================================================================== *)
(** * The log parser ([LogParser.cpp]) *)
(* ================================================================== *)

(** [std::isspace] and [std::toupper] in the "C" locale. *)
Definition isspace (c : ascii) : bool :=
  (N_of_ascii c =? 32)%N ||
  ((9 <=? N_of_ascii c)%N && (N_of_ascii c <=? 13)%N).

Definition toupper (c : ascii) : ascii :=
  if (97 <=? N_of_ascii c)%N && (N_of_ascii c <=? 122)%N
  then ascii_of_N (N_of_ascii c - 32)
  else c.

(** [std::find_if] with the predicate "not a space": the distance from
    the start to the first character that is not a space, the length
    when there is none. *)
Fixpoint find_if_not_space (chars : list ascii) : nat :=
  match chars with
  | [] => O
  | c :: chars' => if isspace c then S (find_if_not_space chars') else O
  end.

(** [LogParser::trim]: [start] and [end_] are the distances of the two
    iterators from [str.begin()]. *)
Definition trim (str : string) : string :=
  let chars := list_ascii_of_string str in
  let start := find_if_not_space chars in
  let end_ := (length chars - find_if_not_space (rev chars))%nat in
  if (start <? end_)%nat
  then string_of_list_ascii (firstn (end_ - start) (skipn start chars))
  else "".

Fixpoint string_map (f : ascii -> ascii) (s : string) : string :=
  match s with
  | EmptyString => EmptyString
  | String c s' => String (f c) (string_map f s')
  end.

(** [LogParser::parseStatus] *)
Definition parseStatus (status_str : string) : LoginStatus :=
  let status_upper := string_map toupper status_str in
  if String.eqb status_upper "SUCCESS" then SUCCESS
  else if String.eqb status_upper "FAILED" then FAILED
  else UNKNOWN.

(** The text up to the first [delim] and what is left of the stream:
    [Some rest] after the delimiter, [None] when the end of the input
    was reached (the stream has its eofbit set). *)
Fixpoint split_at (delim : ascii) (s : string) : string * option string :=
  match s with
  | EmptyString => (EmptyString, None)
  | String c s' =>
      if Ascii.eqb c delim then (EmptyString, Some s')
      else let (field, rest) := split_at delim s' in (String c field, rest)
  end.

(** [std::getline(ss, field, delim)] on an [istringstream]: [None] when
    the stream converts to false afterwards, which is when it was not
    good before or no character at all could be extracted. *)
Definition getline (ss : option string) (delim : ascii)
  : option (string * option string) :=
  match ss with
  | None => None
  | Some EmptyString => None
  | Some s => Some (split_at delim s)
  end.

Section LogParser.

(** [LogParser::parseTimestamp] rests on [std::get_time] and
    [std::mktime], whose results depend on the library and the time
    zone: it is a parameter here. *)
Variable parseTimestamp : string -> option time_point.

(** [LogParser::parseLogLine] *)
Definition parseLogLine (line : string) : option LogEntry :=
  let ss := Some line in
  match getline ss "|" with
  | None => None
  | Some (timestamp_str, ss) =>
  match getline ss "|" with
  | None => None
  | Some (username, ss) =>
  match getline ss "|" with
  | None => None
  | Some (ip_address, ss) =>
  match getline ss "010" with
  | None => None
  | Some (status_str, _) =>
      let timestamp_str := trim timestamp_str in
      let username := trim username in
      let ip_address := trim ip_address in
      let status_str := trim status_str in
      if empty timestamp_str || empty username ||
         empty ip_address || empty status_str
      then None
      else
        match parseTimestamp timestamp_str with
        | None => None
        | Some timestamp =>
            let status := parseStatus status_str in
            Some (mkLogEntry timestamp username ip_address status)
        end
  end end end end.

(* ================================================================== *)
(** * The main program ([main.cpp]) *)
(* ================================================================== *)

(** The loop [while (std::getline(log_file, line))] over the lines of
    the log file: the entries, the two counters and the warnings
    written to [std::cerr]. *)
Fixpoint load_loop (lines : list string) (log_entries : list LogEntry)
    (line_number invalid_entries : Z) (cerr : list string)
  : list LogEntry * Z * Z * list string :=
  match lines with
  | [] => (log_entries, line_number, invalid_entries, cerr)
  | line :: rest =>
      let line_number := line_number + 1 in
      if empty line then
        load_loop rest log_entries line_number invalid_entries cerr
      else
        match parseLogLine line with
        | Some entry =>
            load_loop rest (log_entries ++ [entry]) line_number
              invalid_entries cerr
        | None =>
            load_loop rest log_entries line_number (invalid_entries + 1)
              (cerr ++
               ["Warning: Skipping invalid log entry at line " +++
                to_string line_number])
        end
  end.

Definition load_log_file (lines : list string)
  : list LogEntry * Z * Z * list string :=
  load_loop lines [] 0 0 [].

End LogParser.

(** Step 3 of [main]: the detector built from the configuration. *)
Definition make_detector (config : Configuration) : EventDetector :=
  mkEventDetector (failed_login_threshold config)
    (time_window_minutes config)
    (business_hour_start config) (business_hour_end config).

(* ================================================================== *)
(** * Vocabulary of the statements on texts *)
(* ================================================================== *)

(** The range [a-b] written in decimal is read back as [(a, b)]. *)
Definition hours_round_trip (a b : Z) : bool :=
  match parseBusinessHours (to_string a +++ "-" +++ to_string b) with
  | Some (x, y) => (x =? a) && (y =? b)
  | None => false
  end.

(** All characters are white space. *)
Definition all_space (s : string) : bool :=
  forallb isspace (list_ascii_of_string s).

(** Neither the first nor the last character is white space. *)
Definition outer_clean (s : string) : bool :=
  match list_ascii_of_string s, rev (list_ascii_of_string s) with
  | c :: _, d :: _ => negb (isspace c) && negb (isspace d)
  | _, _ => true
  end.

(** The character occurs in the text. *)
Fixpoint has_char (c : ascii) (s : string) : bool :=
  match s with
  | EmptyString => false
  | String x s' => Ascii.eqb x c || has_char c s'
  end.

(** How often the character occurs in the text. *)
Fixpoint count_char (c : ascii) (s : string) : nat :=
  match s with
  | EmptyString => O
  | String x s' => ((if Ascii.eqb x c then 1 else 0) + count_char c s')%nat
  end.

(** What [parseLogLine] does with one line on its own. *)
Definition parsed_entries (parseTimestamp : string -> option time_point)
    (line : string) : list LogEntry :=
  match parseLogLine parseTimestamp line with
  | Some entry => [entry]
  | None => []
  end.

(** The options [parseCommandLineArgs] knows. *)
Definition known_options : list string :=
  ["--help"; "-h"; "--input"; "-i"; "--output"; "-o";
   "--threshold"; "-t"; "--window"; "-w"; "--hours"].

(** ** Concrete inputs of the log parser *)

(** A reader of timestamps that knows the one text of the unit tests. *)
Definition parseTimestamp_0845 (s : string) : option time_point :=
  if String.eqb s "2026-01-18 08:45:12"
  then Some (createTimestamp 8 45 + 12 * 1000000000)
  else None.

Definition jdoe_line : string :=
  "2026-01-18 08:45:12 | jdoe | 192.168.1.10 | SUCCESS".

Definition jdoe_entry : LogEntry :=
  mkLogEntry (createTimestamp 8 45 + 12 * 1000000000)
    "jdoe" "192.168.1.10" SUCCESS.

Definition jdoe_line_extra : string :=
  "2026-01-18 08:45:12 | jdoe | 192.168.1.10 | SUCCESS | extra".

Definition four_lines : list string :=
  [jdoe_line; ""; "not an entry"; jdoe_line].

(* ================================================================== *)
(** * The window test on 64-bit tick counts *)
(* ================================================================== *)

(** [system_clock::duration] counts its ticks in a signed 64-bit
    integer.  The difference of two time points that are more than
    [INT64_MAX] ticks apart does not fit: the subtraction overflows
    (undefined in C++) and the machine leaves the difference modulo
    2^64. *)
Definition INT64_MAX : Z := 9223372036854775807.
Definition INT64_MIN : Z := -9223372036854775808.

Definition int64_wrap (z : Z) : Z := (z - INT64_MIN) mod 2 ^ 64 + INT64_MIN.

(** [EventDetector::isWithinTimeWindow] with the subtraction done in
    64 bits: the larger time point minus the smaller one, wrapped,
    then truncated to whole minutes and compared. *)
Definition isWithinTimeWindow_int64 {P : Platform} (self : EventDetector)
    (time1 time2 : time_point) : bool :=
  let duration :=
    int64_wrap (if time1 >? time2 then time1 - time2 else time2 - time1) in
  let minutes := Z.quot duration ticks_per_minute in
  minutes <=? time_window_minutes_ self.

(** No two records are more than [INT64_MAX] ticks apart (about 292
    years of nanosecond ticks): every difference [isWithinTimeWindow]
    takes between records of the input fits, and the test in exact
    arithmetic is the test in 64 bits. *)
Definition span_fits_int64 (entries : list LogEntry) : Prop :=
  forall a b, In a entries -> In b entries ->
    timestamp b - timestamp a <= INT64_MAX.

(** 1700-08-24 08:53:20 and 2239-05-10 15:06:40 UTC in nanosecond
    ticks: both fit in 64 bits, their difference does not. *)
Definition year_1700 : time_point := -8500000000000000000.
Definition year_2239 : time_point := 8500000000000000000.

(* ================================================================== *)
(** * A concrete platform *)
(* ================================================================== *)

Lemma insert_by_timestamp_perm (e : LogEntry) (l : list LogEntry) :
  Permutation (insert_by_timestamp e l) (e :: l).
Proof.
  induction l as [|x l IH]; simpl.
  - apply Permutation_refl.
  - destruct (timestamp e <=? timestamp x).
    + apply Permutation_refl.
    + eapply perm_trans; [apply perm_skip, IH | apply perm_swap].
Qed.

Lemma insertion_sort_perm (l : list LogEntry) :
  Permutation (insertion_sort l) l.
Proof.
  induction l as [|x l IH]; simpl.
  - constructor.
  - eapply perm_trans; [apply insert_by_timestamp_perm | now apply perm_skip].
Qed.

Lemma insert_by_timestamp_sorted (e : LogEntry) (l : list LogEntry) :
  StronglySorted timestamp_le l ->
  StronglySorted timestamp_le (insert_by_timestamp e l).
Proof.
  induction 1 as [|x l Hs IH Hx]; simpl.
  - repeat constructor.
  - destruct (Z.leb_spec (timestamp e) (timestamp x)) as [Hlt|Hge].
    + constructor; [now constructor|].
      constructor; [unfold timestamp_le; lia|].
      eapply Forall_impl; [|exact Hx].
      unfold timestamp_le; intros; lia.
    + constructor; [exact IH|].
      eapply Permutation_Forall;
        [apply Permutation_sym, insert_by_timestamp_perm|].
      constructor; [unfold timestamp_le; lia | exact Hx].
Qed.

Lemma insertion_sort_sorted (l : list LogEntry) :
  StronglySorted timestamp_le (insertion_sort l).
Proof.
  induction l as [|x l IH]; simpl.
  - constructor.
  - now apply insert_by_timestamp_sorted.
Qed.

(** Nanosecond ticks (libstdc++), UTC as the local zone, and the stable
    insertion sort: what [std::sort] of libstdc++ does on a vector of
    at most 16 records.  On longer vectors the order [std::sort] gives
    to records with equal timestamps is not the input order; the
    concrete runs below have no two records with equal timestamps. *)
#[export] Instance linux_utc : Platform := {|
  ticks_per_second := 1000000000;
  localtime_hour := utc_hour;
  sort_by_timestamp := insertion_sort;
  ticks_per_second_pos := eq_refl;
  sort_by_timestamp_perm := insertion_sort_perm;
  sort_by_timestamp_sorted := insertion_sort_sorted
|}.

(* ================================================================== *)
(** * The order on text keys *)
(* ================================================================== *)

Lemma ascii_compare_refl (a : ascii) : Ascii.compare a a = Eq.
Proof. apply N.compare_refl. Qed.

Lemma ascii_compare_lt_trans (a b c : ascii) :
  Ascii.compare a b = Lt -> Ascii.compare b c = Lt -> Ascii.compare a c = Lt.
Proof.
  unfold Ascii.compare. rewrite !N.compare_lt_iff. apply N.lt_trans.
Qed.

Lemma str_compare_refl (s : string) : String.compare s s = Eq.
Proof.
  induction s as [|a s IH]; simpl; [reflexivity|].
  now rewrite ascii_compare_refl.
Qed.

Lemma str_lt_irrefl (s : string) : ~ str_lt s s.
Proof. unfold str_lt. rewrite str_compare_refl. discriminate. Qed.

Lemma str_lt_trans (a b c : string) : str_lt a b -> str_lt b c -> str_lt a c.
Proof.
  unfold str_lt. revert b c.
  induction a as [|x a IH]; intros [|y b] [|z c]; simpl;
    try discriminate; try reflexivity.
  destruct (Ascii.compare x y) eqn:Hxy; try discriminate;
    destruct (Ascii.compare y z) eqn:Hyz; try discriminate; intros H1 H2.
  - apply Ascii.compare_eq_iff in Hxy, Hyz. subst.
    rewrite ascii_compare_refl. eauto.
  - apply Ascii.compare_eq_iff in Hxy. subst. now rewrite Hyz.
  - apply Ascii.compare_eq_iff in Hyz. subst. now rewrite Hxy.
  - now rewrite (ascii_compare_lt_trans x y z).
Qed.

Lemma str_compare_gt_lt (a b : string) :
  String.compare a b = Gt -> str_lt b a.
Proof.
  unfold str_lt. intros H. rewrite String.compare_antisym, H. reflexivity.
Qed.

Lemma str_lt_sorted_nodup (l : list string) :
  StronglySorted str_lt l -> NoDup l.
Proof.
  induction 1 as [|x l Hs IH Hx]; constructor; [|exact IH].
  intros Hin. rewrite Forall_forall in Hx.
  exact (str_lt_irrefl x (Hx x Hin)).
Qed.

(** ** [std::set<std::string>] *)

Lemma set_insert_in (s : list string) (x y : string) :
  In y (set_insert s x) <-> y = x \/ In y s.
Proof.
  induction s as [|z s IH]; simpl.
  - intuition.
  - destruct (String.compare x z) eqn:Hc; simpl.
    + apply String.compare_eq_iff in Hc. subst. intuition.
    + intuition.
    + rewrite IH. intuition.
Qed.

Lemma set_insert_sorted (s : list string) (x : string) :
  StronglySorted str_lt s -> StronglySorted str_lt (set_insert s x).
Proof.
  induction 1 as [|z s Hs IH Hz]; simpl.
  - repeat constructor.
  - destruct (String.compare x z) eqn:Hc.
    + now constructor.
    + constructor; [now constructor|].
      constructor; [exact Hc|].
      eapply Forall_impl; [|exact Hz].
      intros w Hw. now apply (str_lt_trans x z w).
    + constructor; [exact IH|].
      rewrite Forall_forall in *. intros w Hw.
      apply set_insert_in in Hw. destruct Hw as [->|Hw].
      * now apply str_compare_gt_lt.
      * now apply Hz.
Qed.

Lemma fold_set_insert_in (l s : list string) (y : string) :
  In y (fold_left set_insert l s) <-> In y l \/ In y s.
Proof.
  revert s. induction l as [|x l IH]; intros s; simpl.
  - intuition.
  - rewrite IH, set_insert_in. intuition.
Qed.

Lemma fold_set_insert_sorted (l s : list string) :
  StronglySorted str_lt s -> StronglySorted str_lt (fold_left set_insert l s).
Proof.
  revert s. induction l as [|x l IH]; intros s Hs; simpl; [exact Hs|].
  now apply IH, set_insert_sorted.
Qed.

Lemma fold_push_back {A : Type} (l acc : list A) :
  fold_left (fun v x => v ++ [x]) l acc = acc ++ l.
Proof.
  revert acc. induction l as [|x l IH]; intros acc; simpl.
  - now rewrite app_nil_r.
  - rewrite IH, <- app_assoc. reflexivity.
Qed.

(** ** [std::map<std::string, std::vector<LogEntry>>] *)

Lemma map_push_back_keys (m : list (string * list LogEntry)) key e k :
  In k (keys (map_push_back m key e)) <-> k = key \/ In k (keys m).
Proof.
  unfold keys. induction m as [|[k0 v0] m IH]; simpl.
  - intuition.
  - destruct (String.compare key k0) eqn:Hc; simpl.
    + apply String.compare_eq_iff in Hc. subst. intuition.
    + intuition.
    + rewrite IH. intuition.
Qed.

Lemma map_push_back_sorted (m : list (string * list LogEntry)) key e :
  StronglySorted str_lt (keys m) ->
  StronglySorted str_lt (keys (map_push_back m key e)).
Proof.
  unfold keys. induction m as [|[k0 v0] m IH]; simpl; intros Hs.
  - repeat constructor.
  - inversion Hs as [|? ? Hs' Hk0]; subst.
    destruct (String.compare key k0) eqn:Hc; simpl.
    + now constructor.
    + constructor; [exact Hs|].
      constructor; [exact Hc|].
      eapply Forall_impl; [|exact Hk0].
      intros w Hw. now apply (str_lt_trans key k0 w).
    + constructor; [now apply IH|].
      rewrite Forall_forall in *. intros w Hw.
      apply map_push_back_keys in Hw. destruct Hw as [->|Hw].
      * now apply str_compare_gt_lt.
      * now apply Hk0.
Qed.

Lemma map_find_absent (m : list (string * list LogEntry)) key :
  ~ In key (keys m) -> map_find m key = [].
Proof.
  induction m as [|[k v] m IH]; simpl; intros Hn; [reflexivity|].
  destruct (String.eqb_spec k key) as [->|Hne]; [tauto|].
  apply IH. tauto.
Qed.

Lemma map_find_push_back (m : list (string * list LogEntry)) key e k :
  StronglySorted str_lt (keys m) ->
  map_find (map_push_back m key e) k =
  if String.eqb key k then map_find m k ++ [e] else map_find m k.
Proof.
  induction m as [|[k0 v0] m IH]; simpl; intros Hs.
  - destruct (String.eqb key k); reflexivity.
  - inversion Hs as [|? ? Hs' Hk0]; subst.
    destruct (String.compare key k0) eqn:Hc; simpl.
    + apply String.compare_eq_iff in Hc. subst k0.
      destruct (String.eqb key k); reflexivity.
    + destruct (String.eqb_spec key k) as [->|Hne]; [|reflexivity].
      destruct (String.eqb_spec k0 k) as [->|Hne0].
      * exfalso. exact (str_lt_irrefl k Hc).
      * rewrite map_find_absent; [reflexivity|].
        intros Hin. rewrite Forall_forall in Hk0.
        exact (str_lt_irrefl k (str_lt_trans _ _ _ Hc (Hk0 k Hin))).
    + destruct (String.eqb_spec k0 k) as [->|Hne0].
      * destruct (String.eqb_spec key k) as [->|Hne]; [|reflexivity].
        rewrite str_compare_refl in Hc. discriminate.
      * now apply IH.
Qed.

Lemma map_find_in (m : list (string * list LogEntry)) k v :
  NoDup (keys m) -> In (k, v) m -> map_find m k = v.
Proof.
  induction m as [|[k0 v0] m IH]; simpl; intros Hnd Hin; [tauto|].
  inversion Hnd as [|? ? Hk0 Hnd']; subst.
  destruct Hin as [Heq|Hin].
  - inversion Heq; subst. now rewrite String.eqb_refl.
  - destruct (String.eqb_spec k0 k) as [->|Hne]; [|now apply IH].
    exfalso. apply Hk0. unfold keys. now apply (in_map fst _ (k, v)).
Qed.

Section Grouping.

Variable st : LoginStatus.

Let step (m : list (string * list LogEntry)) (entry : LogEntry) :=
  if LoginStatus_eqb (status entry) st
  then map_push_back m (username entry) entry
  else m.

Lemma group_fold_sorted (entries : list LogEntry) m :
  StronglySorted str_lt (keys m) ->
  StronglySorted str_lt (keys (fold_left step entries m)).
Proof.
  revert m. induction entries as [|e entries IH]; intros m Hs; simpl; [exact Hs|].
  apply IH. unfold step.
  destruct (LoginStatus_eqb (status e) st); [|exact Hs].
  now apply map_push_back_sorted.
Qed.

Lemma group_fold_find (entries : list LogEntry) m user :
  StronglySorted str_lt (keys m) ->
  map_find (fold_left step entries m) user =
  map_find m user ++ filter (selected st user) entries.
Proof.
  revert m. induction entries as [|e entries IH]; intros m Hs; simpl.
  - now rewrite app_nil_r.
  - rewrite IH.
    + unfold step, selected.
      destruct (LoginStatus_eqb (status e) st); simpl; [|reflexivity].
      rewrite map_find_push_back by exact Hs.
      destruct (String.eqb (username e) user); [|reflexivity].
      now rewrite <- app_assoc.
    + unfold step.
      destruct (LoginStatus_eqb (status e) st); [|exact Hs].
      now apply map_push_back_sorted.
Qed.

Lemma group_by_user_sorted (entries : list LogEntry) :
  StronglySorted str_lt (keys (group_by_user st entries)).
Proof. exact (group_fold_sorted entries [] (SSorted_nil _)). Qed.

Lemma group_by_user_find (entries : list LogEntry) (user : string) :
  map_find (group_by_user st entries) user = filter (selected st user) entries.
Proof. exact (group_fold_find entries [] user (SSorted_nil _)). Qed.

Lemma group_by_user_in (entries : list LogEntry) user v :
  In (user, v) (group_by_user st entries) ->
  v = filter (selected st user) entries.
Proof.
  intros Hin. rewrite <- group_by_user_find.
  symmetry. apply map_find_in; [|exact Hin].
  apply str_lt_sorted_nodup, group_by_user_sorted.
Qed.

End Grouping.

(* ================================================================== *)
(** * The window test *)
(* ================================================================== *)

Section WindowTest.

Context {P : Platform}.
Variable self : EventDetector.

Lemma ticks_per_minute_pos : 0 < ticks_per_minute.
Proof. unfold ticks_per_minute. pose proof ticks_per_second_pos. lia. Qed.

Lemma isWithinTimeWindow_abs (t1 t2 : time_point) :
  isWithinTimeWindow self t1 t2 =
  (Z.quot (Z.abs (t1 - t2)) ticks_per_minute <=? time_window_minutes_ self).
Proof.
  unfold isWithinTimeWindow. rewrite Z.gtb_ltb.
  destruct (Z.ltb_spec t2 t1) as [Hlt|Hge].
  - now rewrite Z.abs_eq by lia.
  - rewrite Z.abs_neq by lia. do 2 f_equal. lia.
Qed.

Lemma isWithinTimeWindow_sym (t1 t2 : time_point) :
  isWithinTimeWindow self t1 t2 = isWithinTimeWindow self t2 t1.
Proof.
  rewrite !isWithinTimeWindow_abs.
  replace (t2 - t1) with (- (t1 - t2)) by lia.
  now rewrite Z.abs_opp.
Qed.

(** Whole seconds and whole minutes, in ticks. *)
Lemma quot_seconds (s : Z) :
  Z.quot (s * ticks_per_second) ticks_per_minute = Z.quot s 60.
Proof.
  unfold ticks_per_minute. pose proof ticks_per_second_pos.
  apply Z.quot_mul_cancel_r; lia.
Qed.

Lemma quot_minutes (m : Z) : Z.quot (m * ticks_per_minute) ticks_per_minute = m.
Proof. pose proof ticks_per_minute_pos. apply Z.quot_mul. lia. Qed.

Lemma isWithinTimeWindow_later (t d : Z) :
  0 <= d ->
  isWithinTimeWindow self t (t + d) =
  (Z.quot d ticks_per_minute <=? time_window_minutes_ self).
Proof.
  intros Hd. rewrite isWithinTimeWindow_abs.
  replace (t - (t + d)) with (- d) by lia.
  now rewrite Z.abs_opp, Z.abs_eq by lia.
Qed.

(** Two timestamps between which a third lies: if the outer pair is
    within the window so is the inner one (why stopping at the first
    record out of the window loses nothing on a sorted vector). *)
Lemma isWithinTimeWindow_between (t0 t1 t2 : time_point) :
  t0 <= t1 <= t2 ->
  isWithinTimeWindow self t0 t2 = true ->
  isWithinTimeWindow self t0 t1 = true.
Proof.
  intros Hle. rewrite !isWithinTimeWindow_abs, !Z.leb_le.
  pose proof ticks_per_minute_pos as Hp.
  rewrite !Z.abs_neq by lia.
  rewrite !Z.quot_div_nonneg by lia.
  intros H. eapply Z.le_trans; [|exact H].
  apply Z.div_le_mono; lia.
Qed.

End WindowTest.

(* ================================================================== *)
(** * The two forward scans *)
(* ================================================================== *)

Lemma nth_error_skipn_cons {A : Type} (v : list A) (j : nat) (e : A) :
  nth_error v j = Some e -> skipn j v = e :: skipn (S j) v.
Proof.
  revert j. induction v as [|x v IH]; intros [|j]; simpl; try discriminate.
  - now intros [= ->].
  - intros H. now rewrite (IH j H).
Qed.

Lemma In_firstn {A : Type} (l : list A) (n : nat) (x : A) :
  In x (firstn n l) -> In x l.
Proof.
  intros H. rewrite <- (firstn_skipn n l). apply in_or_app. now left.
Qed.

Lemma nth_error_in_range {A : Type} (v : list A) (j : nat) :
  (j < length v)%nat -> exists e, nth_error v j = Some e.
Proof.
  intros H. destruct (nth_error v j) eqn:E; [eauto|].
  apply nth_error_None in E. lia.
Qed.

Section Scans.

Context {P : Platform}.
Variable self : EventDetector.

Lemma within_run_le (t0 : time_point) (l : list LogEntry) :
  (within_run self t0 l <= length l)%nat.
Proof.
  induction l as [|e l IH]; simpl; [lia|].
  destruct (isWithinTimeWindow self t0 (timestamp e)); simpl; lia.
Qed.

Lemma within_run_all (t0 : time_point) (l : list LogEntry) :
  Forall (fun e => isWithinTimeWindow self t0 (timestamp e) = true) l ->
  within_run self t0 l = length l.
Proof.
  induction 1 as [|e l He _ IH]; simpl; [reflexivity|].
  now rewrite He, IH.
Qed.

Lemma within_run_firstn (t0 : time_point) (l : list LogEntry) :
  Forall (fun e => isWithinTimeWindow self t0 (timestamp e) = true)
    (firstn (within_run self t0 l) l).
Proof.
  induction l as [|e l IH]; simpl; [constructor|].
  destruct (isWithinTimeWindow self t0 (timestamp e)) eqn:He; simpl.
  - now constructor.
  - constructor.
Qed.

(** The counting scan started at [S w] with [window_end_idx = w]. *)
Lemma count_forward_spec (fuel : nat) (v : list LogEntry) (a : LogEntry)
    (w : nat) (count : Z) :
  (length v - S w < fuel)%nat ->
  count_forward self fuel v a (S w) count w =
  let n := within_run self (timestamp a) (skipn (S w) v) in
  Returned (count + Z.of_nat n, (w + n)%nat).
Proof.
  revert w count. induction fuel as [|fuel IH]; intros w count Hf; [lia|].
  simpl count_forward.
  destruct (Nat.ltb_spec (S w) (length v)) as [Hlt|Hge].
  - destruct (nth_error_in_range v (S w) Hlt) as [e He].
    unfold at_index. rewrite He. simpl bind.
    rewrite (nth_error_skipn_cons v (S w) e He). simpl within_run.
    destruct (isWithinTimeWindow self (timestamp a) (timestamp e)).
    + rewrite IH by lia. simpl. do 2 f_equal; lia.
    + simpl. do 2 f_equal; lia.
  - rewrite skipn_all2 by lia. simpl. do 2 f_equal; lia.
Qed.

(** The collecting scan started at [S w] with [window_end_idx = w]. *)
Lemma collect_forward_spec (fuel : nat) (v : list LogEntry) (a : LogEntry)
    (w : nat) (ips : list string) :
  (length v - S w < fuel)%nat ->
  collect_forward self fuel v a (S w) ips w =
  let n := within_run self (timestamp a) (skipn (S w) v) in
  Returned (fold_left set_insert
              (map ip_address (firstn n (skipn (S w) v))) ips,
            (w + n)%nat).
Proof.
  revert w ips. induction fuel as [|fuel IH]; intros w ips Hf; [lia|].
  simpl collect_forward.
  destruct (Nat.ltb_spec (S w) (length v)) as [Hlt|Hge].
  - destruct (nth_error_in_range v (S w) Hlt) as [e He].
    unfold at_index. rewrite He. simpl bind.
    rewrite (nth_error_skipn_cons v (S w) e He). simpl within_run.
    destruct (isWithinTimeWindow self (timestamp a) (timestamp e)).
    + rewrite IH by lia. simpl. do 2 f_equal; lia.
    + simpl. do 2 f_equal; lia.
  - rewrite skipn_all2 by lia. simpl. do 2 f_equal; lia.
Qed.

End Scans.

(* ================================================================== *)
(** * The anchor loop, common to both clustering detectors *)
(* ================================================================== *)

(** Both [for (size_t i = 0; ...)] loops have one shape: at anchor [i]
    either an event is emitted and the scan resumes after the [n]
    further records of its cluster, or the anchor moves on by one. *)
Section AnchorLoop.

Variable v : list LogEntry.
Variable loop :
  nat -> nat -> list SuspiciousEvent -> outcome (list SuspiciousEvent).
Variable emit : nat -> LogEntry -> option (nat * SuspiciousEvent).

Hypothesis loop_done : forall fuel i det,
  (length v <= i)%nat -> loop (S fuel) i det = Returned det.
Hypothesis loop_step : forall fuel i det a,
  nth_error v i = Some a ->
  loop (S fuel) i det =
  match emit i a with
  | Some (n, e) => loop fuel (S (i + n)) (det ++ [e])
  | None => loop fuel (S i) det
  end.

Lemma anchor_loop_total (fuel i : nat) :
  (length v - i < fuel)%nat ->
  exists evs,
    (forall det, loop fuel i det = Returned (det ++ evs)) /\
    Forall (emitted v emit) evs.
Proof.
  revert i. induction fuel as [|fuel IH]; intros i Hf; [lia|].
  destruct (Nat.le_gt_cases (length v) i) as [Hge|Hlt].
  - exists []. split; [|constructor].
    intros det. rewrite app_nil_r. now apply loop_done.
  - destruct (nth_error_in_range v i Hlt) as [a Ha].
    destruct (emit i a) as [[n e]|] eqn:He.
    + destruct (IH (S (i + n))) as [evs [Hrun Hall]]; [lia|].
      exists (e :: evs). split.
      * intros det. rewrite (loop_step fuel i det a Ha), He, Hrun.
        now rewrite <- app_assoc.
      * constructor; [now exists i, a, n | exact Hall].
    + destruct (IH (S i)) as [evs [Hrun Hall]]; [lia|].
      exists evs. split; [|exact Hall].
      intros det. now rewrite (loop_step fuel i det a Ha), He.
Qed.

(** A cluster that reaches the end of the vector is the last event. *)
Lemma anchor_loop_last (fuel i n : nat) (a : LogEntry) (e : SuspiciousEvent)
    (det : list SuspiciousEvent) :
  nth_error v i = Some a ->
  emit i a = Some (n, e) ->
  (length v <= S (i + n))%nat ->
  loop (S (S fuel)) i det = Returned (det ++ [e]).
Proof.
  intros Ha He Hend.
  rewrite (loop_step _ i det a Ha), He. now apply loop_done.
Qed.

(** Past [length v - i] the amount of fuel does not matter. *)
Lemma anchor_loop_fuel (fuel fuel' i : nat) (det : list SuspiciousEvent) :
  (length v - i < fuel)%nat -> (length v - i < fuel')%nat ->
  loop fuel i det = loop fuel' i det.
Proof.
  revert fuel' i det.
  induction fuel as [|fuel IH]; intros [|fuel'] i det Hf Hf'; try lia.
  destruct (Nat.le_gt_cases (length v) i) as [Hge|Hlt].
  - now rewrite !loop_done.
  - destruct (nth_error_in_range v i Hlt) as [a Ha].
    rewrite !(loop_step _ i det a Ha).
    destruct (emit i a) as [[n e]|]; apply IH; lia.
Qed.

End AnchorLoop.

Section Loops.

Context {P : Platform}.
Variable self : EventDetector.
Variable user : string.
Variable v : list LogEntry.

Lemma run_in_range (i : nat) (a : LogEntry) :
  nth_error v i = Some a ->
  (i + within_run self (timestamp a) (skipn (S i) v) < length v)%nat.
Proof.
  intros Ha.
  assert (i < length v)%nat by (apply nth_error_Some; congruence).
  pose proof (within_run_le self (timestamp a) (skipn (S i) v)) as Hle.
  rewrite length_skipn in Hle. lia.
Qed.

Lemma failed_logins_loop_done (fuel i : nat) det :
  (length v <= i)%nat ->
  failed_logins_loop self (S fuel) user v i det = Returned det.
Proof.
  intros H. simpl.
  destruct (Nat.ltb_spec i (length v)); [lia | reflexivity].
Qed.

Lemma failed_logins_loop_step (fuel i : nat) det (a : LogEntry) :
  nth_error v i = Some a ->
  failed_logins_loop self (S fuel) user v i det =
  match failed_logins_emit self user v i a with
  | Some (n, e) => failed_logins_loop self fuel user v (S (i + n)) (det ++ [e])
  | None => failed_logins_loop self fuel user v (S i) det
  end.
Proof.
  intros Ha. pose proof (run_in_range i a Ha) as Hr.
  cbn [failed_logins_loop].
  destruct (Nat.ltb_spec i (length v)); [|lia].
  unfold at_index at 1. rewrite Ha.
  cbv beta iota delta [bind].
  rewrite count_forward_spec by lia.
  cbv beta iota zeta delta [bind failed_logins_emit].
  destruct (1 + Z.of_nat _ >=? failed_login_threshold_ self); [|reflexivity].
  unfold at_index.
  rewrite (nth_error_nth' v a Hr). reflexivity.
Qed.

Lemma multiple_ips_loop_done (fuel i : nat) det :
  (length v <= i)%nat ->
  multiple_ips_loop self (S fuel) user v i det = Returned det.
Proof.
  intros H. simpl.
  destruct (Nat.ltb_spec i (length v)); [lia | reflexivity].
Qed.

Lemma multiple_ips_loop_step (fuel i : nat) det (a : LogEntry) :
  nth_error v i = Some a ->
  multiple_ips_loop self (S fuel) user v i det =
  match multiple_ips_emit self user v i a with
  | Some (n, e) => multiple_ips_loop self fuel user v (S (i + n)) (det ++ [e])
  | None => multiple_ips_loop self fuel user v (S i) det
  end.
Proof.
  intros Ha. pose proof (run_in_range i a Ha) as Hr.
  cbn [multiple_ips_loop].
  destruct (Nat.ltb_spec i (length v)); [|lia].
  unfold at_index at 1. rewrite Ha.
  cbv beta iota delta [bind].
  rewrite collect_forward_spec by lia.
  cbv beta iota zeta delta [bind multiple_ips_emit].
  destruct (2 <=? length _)%nat; [|reflexivity].
  unfold at_index.
  rewrite (nth_error_nth' v a Hr). reflexivity.
Qed.

End Loops.

(* ================================================================== *)
(** * From one user's vector to the whole input *)
(* ================================================================== *)

Lemma events_for_user_all (user : string) (events : list SuspiciousEvent) :
  Forall (fun f => ev_username f = user) events ->
  events_for_user user events = events.
Proof.
  induction 1 as [|f l Hf _ IH]; simpl; [reflexivity|].
  rewrite Hf, String.eqb_refl. now f_equal.
Qed.

Lemma events_for_user_none (user k : string) (events : list SuspiciousEvent) :
  k <> user ->
  Forall (fun f => ev_username f = k) events ->
  events_for_user user events = [].
Proof.
  intros Hne. induction 1 as [|f l Hf _ IH]; simpl; [reflexivity|].
  rewrite Hf. now destruct (String.eqb_spec k user).
Qed.

(** Events produced per key, each naming its key: the events naming
    [user] are those of the vector stored under [user]. *)
Lemma events_for_user_flat_map
    (F : string -> list LogEntry -> list SuspiciousEvent)
    (m : list (string * list LogEntry)) (user : string) :
  NoDup (keys m) ->
  (forall k g, Forall (fun f => ev_username f = k) (F k g)) ->
  F user [] = [] ->
  events_for_user user (flat_map (fun kv => F (fst kv) (snd kv)) m) =
  F user (map_find m user).
Proof.
  intros Hnd HF Hnil.
  induction m as [|[k g] m IH]; simpl; [now rewrite Hnil|].
  inversion Hnd as [|? ? Hk Hnd']; subst.
  unfold events_for_user at 1. rewrite filter_app.
  fold (events_for_user user (F k g)).
  fold (events_for_user user (flat_map (fun kv => F (fst kv) (snd kv)) m)).
  rewrite (IH Hnd').
  destruct (String.eqb_spec k user) as [->|Hne].
  - rewrite (map_find_absent m user Hk), Hnil, app_nil_r.
    now apply events_for_user_all.
  - now rewrite (events_for_user_none user k (F k g) Hne (HF k g)).
Qed.

Section Pipeline.

Context {P : Platform}.
Variable self : EventDetector.

Lemma failed_logins_loop_run (user : string) (v : list LogEntry) :
  (forall det,
     failed_logins_loop self (S (length v)) user v 0 det =
     Returned (det ++ failed_logins_of self user v)) /\
  Forall (emitted v (failed_logins_emit self user v)) (failed_logins_of self user v).
Proof.
  destruct (anchor_loop_total v
              (fun fuel i det => failed_logins_loop self fuel user v i det)
              (failed_logins_emit self user v)
              (fun fuel i det => failed_logins_loop_done self user v fuel i det)
              (fun fuel i det a => failed_logins_loop_step self user v fuel i det a)
              (S (length v)) 0%nat) as [evs [Hrun Hall]]; [lia|].
  unfold failed_logins_of. rewrite (Hrun []). simpl. now split.
Qed.

Lemma multiple_ips_loop_run (user : string) (v : list LogEntry) :
  (forall det,
     multiple_ips_loop self (S (length v)) user v 0 det =
     Returned (det ++ multiple_ips_of self user v)) /\
  Forall (emitted v (multiple_ips_emit self user v)) (multiple_ips_of self user v).
Proof.
  destruct (anchor_loop_total v
              (fun fuel i det => multiple_ips_loop self fuel user v i det)
              (multiple_ips_emit self user v)
              (fun fuel i det => multiple_ips_loop_done self user v fuel i det)
              (fun fuel i det a => multiple_ips_loop_step self user v fuel i det a)
              (S (length v)) 0%nat) as [evs [Hrun Hall]]; [lia|].
  unfold multiple_ips_of. rewrite (Hrun []). simpl. now split.
Qed.

Lemma failed_logins_each_user_run (m : list (string * list LogEntry)) det :
  failed_logins_each_user self m det =
  Returned
    (det ++ flat_map
       (fun kv => failed_logins_of self (fst kv) (sort_by_timestamp (snd kv))) m).
Proof.
  revert det. induction m as [|[k g] m IH]; intros det;
    cbn [failed_logins_each_user flat_map fst snd]; cbv zeta.
  - now rewrite app_nil_r.
  - rewrite (proj1 (failed_logins_loop_run k (sort_by_timestamp g)) det).
    cbn [bind]. rewrite IH. now rewrite <- app_assoc.
Qed.

Lemma multiple_ips_each_user_run (m : list (string * list LogEntry)) det :
  multiple_ips_each_user self m det =
  Returned
    (det ++ flat_map
       (fun kv => multiple_ips_of self (fst kv) (sort_by_timestamp (snd kv))) m).
Proof.
  revert det. induction m as [|[k g] m IH]; intros det;
    cbn [multiple_ips_each_user flat_map fst snd]; cbv zeta.
  - now rewrite app_nil_r.
  - rewrite (proj1 (multiple_ips_loop_run k (sort_by_timestamp g)) det).
    cbn [bind]. rewrite IH. now rewrite <- app_assoc.
Qed.

Lemma detectMultipleFailedLogins_run (entries : list LogEntry) :
  detectMultipleFailedLogins self entries =
  Returned
    (flat_map
       (fun kv => failed_logins_of self (fst kv) (sort_by_timestamp (snd kv)))
       (group_by_user FAILED entries)).
Proof. apply (failed_logins_each_user_run _ []). Qed.

Lemma detectMultipleIPAddresses_run (entries : list LogEntry) :
  detectMultipleIPAddresses self entries =
  Returned
    (flat_map
       (fun kv => multiple_ips_of self (fst kv) (sort_by_timestamp (snd kv)))
       (group_by_user SUCCESS entries)).
Proof. apply (multiple_ips_each_user_run _ []). Qed.

Lemma sort_by_timestamp_nil : sort_by_timestamp [] = [].
Proof. apply Permutation_nil, Permutation_sym, sort_by_timestamp_perm. Qed.

Lemma failed_logins_of_user (user : string) (v : list LogEntry) :
  Forall (fun f => ev_username f = user) (failed_logins_of self user v).
Proof.
  eapply Forall_impl; [|apply failed_logins_loop_run].
  intros f (i & a & n & _ & He). unfold failed_logins_emit in He.
  destruct (_ >=? _); inversion He. reflexivity.
Qed.

Lemma multiple_ips_of_user (user : string) (v : list LogEntry) :
  Forall (fun f => ev_username f = user) (multiple_ips_of self user v).
Proof.
  eapply Forall_impl; [|apply multiple_ips_loop_run].
  intros f (i & a & n & _ & He). unfold multiple_ips_emit in He.
  destruct (_ <=? _)%nat; inversion He. reflexivity.
Qed.

(** The failed-login findings that name [user] are those of the sorted
    vector of that user's FAILED records. *)
Lemma failed_logins_by_user (entries : list LogEntry) (user : string) :
  exists events,
    detectMultipleFailedLogins self entries = Returned events /\
    events_for_user user events =
    failed_logins_of self user
      (sort_by_timestamp (filter (selected FAILED user) entries)).
Proof.
  eexists. split; [apply detectMultipleFailedLogins_run|].
  rewrite (events_for_user_flat_map
             (fun k g => failed_logins_of self k (sort_by_timestamp g))).
  - now rewrite group_by_user_find.
  - apply str_lt_sorted_nodup, group_by_user_sorted.
  - intros k g. apply failed_logins_of_user.
  - now rewrite sort_by_timestamp_nil.
Qed.

Lemma multiple_ips_by_user (entries : list LogEntry) (user : string) :
  exists events,
    detectMultipleIPAddresses self entries = Returned events /\
    events_for_user user events =
    multiple_ips_of self user
      (sort_by_timestamp (filter (selected SUCCESS user) entries)).
Proof.
  eexists. split; [apply detectMultipleIPAddresses_run|].
  rewrite (events_for_user_flat_map
             (fun k g => multiple_ips_of self k (sort_by_timestamp g))).
  - now rewrite group_by_user_find.
  - apply str_lt_sorted_nodup, group_by_user_sorted.
  - intros k g. apply multiple_ips_of_user.
  - now rewrite sort_by_timestamp_nil.
Qed.

End Pipeline.

(* ================================================================== *)
(** * Sorted vectors *)
(* ================================================================== *)

(** A vector with strictly increasing timestamps is its own and only
    sorted arrangement, whatever [std::sort] does with ties. *)
Lemma sorted_perm_unique (l l' : list LogEntry) :
  StronglySorted (fun a b => timestamp a < timestamp b) l ->
  Permutation l' l ->
  StronglySorted timestamp_le l' ->
  l' = l.
Proof.
  intros Hl. revert l'.
  induction Hl as [|x l Hs IH Hx]; intros l' Hp Hs'.
  - now apply Permutation_nil, Permutation_sym.
  - destruct l' as [|y l'].
    + apply Permutation_nil in Hp. discriminate.
    + inversion Hs' as [|? ? Hs'' Hy]; subst.
      rewrite Forall_forall in Hx, Hy.
      assert (Hyx : y = x).
      { assert (Hiny : In y (x :: l))
          by (eapply Permutation_in; [exact Hp | now left]).
        assert (Hinx : In x (y :: l'))
          by (eapply Permutation_in;
              [apply Permutation_sym; exact Hp | now left]).
        destruct Hiny as [->|Hiny]; [reflexivity|].
        destruct Hinx as [->|Hinx]; [reflexivity|].
        specialize (Hx y Hiny). specialize (Hy x Hinx).
        unfold timestamp_le in Hy. lia. }
      subst y. f_equal. apply IH; [|exact Hs''].
      now apply Permutation_cons_inv with (a := x).
Qed.

Lemma StronglySorted_skipn {A : Type} (R : A -> A -> Prop) (l : list A) (n : nat) :
  StronglySorted R l -> StronglySorted R (skipn n l).
Proof.
  revert l. induction n as [|n IH]; intros l Hs; [exact Hs|].
  destruct l as [|x l]; [constructor|].
  simpl. apply IH. now inversion Hs.
Qed.

(** All the records of one user with one status make one group. *)
Lemma group_by_user_single (st : LoginStatus) (user : string)
    (e : LogEntry) (l : list LogEntry) :
  Forall (fun x => status x = st /\ username x = user) (e :: l) ->
  group_by_user st (e :: l) = [(user, e :: l)].
Proof.
  intros Hall. inversion Hall as [|? ? [Hst Hu] Hl]; subst.
  unfold group_by_user. simpl fold_left.
  replace (LoginStatus_eqb (status e) (status e)) with true
    by now destruct (status e).
  simpl map_push_back.
  assert (Hgen : forall acc,
    fold_left
      (fun m entry =>
         if LoginStatus_eqb (status entry) (status e)
         then map_push_back m (username entry) entry else m)
      l [(username e, acc)] = [(username e, acc ++ l)]).
  { clear Hall. induction Hl as [|x l [Hx1 Hx2] _ IH]; intros acc; simpl.
    - now rewrite app_nil_r.
    - rewrite Hx1, Hx2.
      replace (LoginStatus_eqb (status e) (status e)) with true
        by now destruct (status e).
      rewrite str_compare_refl, IH, <- app_assoc. reflexivity. }
  apply (Hgen [e]).
Qed.

(* ================================================================== *)
(** * Clusters *)
(* ================================================================== *)

Section Clusters.

Context {P : Platform}.
Variable self : EventDetector.

(** A vector whose records are all within the window of the first one
    is one cluster, if it is long enough. *)
Lemma failed_logins_of_one_cluster (user : string) (a : LogEntry)
    (rest : list LogEntry) :
  Forall (fun r => isWithinTimeWindow self (timestamp a) (timestamp r) = true)
    rest ->
  failed_login_threshold_ self <= 1 + Z.of_nat (length rest) ->
  failed_logins_of self user (a :: rest) =
  [failed_logins_event self user a (nth (length rest) (a :: rest) a)
     (1 + Z.of_nat (length rest))].
Proof.
  intros Hall Hthr. unfold failed_logins_of.
  cbn [length].
  rewrite (anchor_loop_last (a :: rest)
             (fun fuel i det =>
                failed_logins_loop self fuel user (a :: rest) i det)
             (failed_logins_emit self user (a :: rest))
             (fun fuel i det =>
                failed_logins_loop_done self user (a :: rest) fuel i det)
             (fun fuel i det x =>
                failed_logins_loop_step self user (a :: rest) fuel i det x)
             (length rest) 0%nat (length rest) a
             (failed_logins_event self user a
                (nth (length rest) (a :: rest) a)
                (1 + Z.of_nat (length rest)))
             []).
  - reflexivity.
  - reflexivity.
  - unfold failed_logins_emit. cbn [skipn].
    rewrite (within_run_all self _ _ Hall).
    apply Z.geb_le in Hthr. now rewrite Hthr.
  - cbn [length]. lia.
Qed.

(** A vector shorter than the threshold yields nothing. *)
Lemma failed_logins_of_short (user : string) (v : list LogEntry) :
  Z.of_nat (length v) < failed_login_threshold_ self ->
  failed_logins_of self user v = [].
Proof.
  intros Hlen.
  pose proof (proj2 (failed_logins_loop_run self user v)) as Hall.
  destruct (failed_logins_of self user v) as [|f l]; [reflexivity|].
  exfalso. inversion Hall as [|? ? (i & a & n & Ha & He) _]; subst.
  pose proof (run_in_range self v i a Ha) as Hr.
  unfold failed_logins_emit in He.
  destruct (Z.geb_spec (1 + Z.of_nat (within_run self (timestamp a) (skipn (S i) v)))
              (failed_login_threshold_ self)) as [Hge|Hlt];
    [lia | discriminate].
Qed.

(** Every failed-login finding is emitted at an anchor of the sorted
    vector of the FAILED records of the user it names. *)
Lemma detectMultipleFailedLogins_emitted (entries : list LogEntry) :
  exists events,
    detectMultipleFailedLogins self entries = Returned events /\
    Forall
      (fun f =>
         let v := sort_by_timestamp
                    (filter (selected FAILED (ev_username f)) entries) in
         emitted v (failed_logins_emit self (ev_username f) v) f)
      events.
Proof.
  eexists. split; [apply detectMultipleFailedLogins_run|].
  apply Forall_flat_map, Forall_forall. intros [k g] Hin. cbn [fst snd].
  rewrite (group_by_user_in FAILED entries k g Hin).
  pose proof (failed_logins_of_user self k
                (sort_by_timestamp (filter (selected FAILED k) entries))) as Hu.
  pose proof (proj2 (failed_logins_loop_run self k
                (sort_by_timestamp (filter (selected FAILED k) entries)))) as He.
  rewrite Forall_forall in *. intros f Hf.
  cbv zeta. rewrite (Hu f Hf). now apply He.
Qed.

Lemma detectMultipleIPAddresses_emitted (entries : list LogEntry) :
  exists events,
    detectMultipleIPAddresses self entries = Returned events /\
    Forall
      (fun f =>
         let v := sort_by_timestamp
                    (filter (selected SUCCESS (ev_username f)) entries) in
         emitted v (multiple_ips_emit self (ev_username f) v) f)
      events.
Proof.
  eexists. split; [apply detectMultipleIPAddresses_run|].
  apply Forall_flat_map, Forall_forall. intros [k g] Hin. cbn [fst snd].
  rewrite (group_by_user_in SUCCESS entries k g Hin).
  pose proof (multiple_ips_of_user self k
                (sort_by_timestamp (filter (selected SUCCESS k) entries))) as Hu.
  pose proof (proj2 (multiple_ips_loop_run self k
                (sort_by_timestamp (filter (selected SUCCESS k) entries)))) as He.
  rewrite Forall_forall in *. intros f Hf.
  cbv zeta. rewrite (Hu f Hf). now apply He.
Qed.


End Clusters.

(* ================================================================== *)
(** * The after-hours detector *)
(* ================================================================== *)

Section OutsideHours.

Context {P : Platform}.
Variable self : EventDetector.

Lemma outside_hours_loop_acc (entries : list LogEntry) det :
  outside_hours_loop self entries det =
  det ++ outside_hours_loop self entries [].
Proof.
  revert det. induction entries as [|e entries IH]; intros det; simpl.
  - now rewrite app_nil_r.
  - destruct (negb (LoginStatus_eqb (status e) SUCCESS)); [apply IH|].
    destruct (_ || _); [|apply IH].
    rewrite IH, (IH [_]), <- app_assoc. reflexivity.
Qed.

Lemma detectLoginsOutsideBusinessHours_app (l1 l2 : list LogEntry) :
  detectLoginsOutsideBusinessHours self (l1 ++ l2) =
  detectLoginsOutsideBusinessHours self l1 ++
  detectLoginsOutsideBusinessHours self l2.
Proof.
  unfold detectLoginsOutsideBusinessHours.
  induction l1 as [|e l1 IH]; simpl; [reflexivity|].
  destruct (negb (LoginStatus_eqb (status e) SUCCESS)); [exact IH|].
  destruct (_ || _); [|exact IH].
  rewrite outside_hours_loop_acc, (outside_hours_loop_acc l1 [_]), IH.
  now rewrite <- app_assoc.
Qed.

Lemma detectLoginsOutsideBusinessHours_type (entries : list LogEntry) :
  Forall (fun f => ev_type f = LOGIN_OUTSIDE_BUSINESS_HOURS)
    (detectLoginsOutsideBusinessHours self entries).
Proof.
  induction entries as [|e entries IH]; [constructor|].
  change (e :: entries) with ([e] ++ entries).
  rewrite detectLoginsOutsideBusinessHours_app.
  apply Forall_app. split; [|exact IH].
  unfold detectLoginsOutsideBusinessHours. simpl.
  destruct (negb (LoginStatus_eqb (status e) SUCCESS)); [constructor|].
  destruct (_ || _); repeat constructor.
Qed.

End OutsideHours.

(* ================================================================== *)
(** * The combinator *)
(* ================================================================== *)

Lemma detectAll_run_exists {P : Platform} (self : EventDetector)
    (entries : list LogEntry) :
  exists failed_logins multiple_ips,
    detectMultipleFailedLogins self entries = Returned failed_logins /\
    detectMultipleIPAddresses self entries = Returned multiple_ips /\
    detectAll self entries =
    Returned
      (failed_logins ++ detectLoginsOutsideBusinessHours self entries ++
       multiple_ips).
Proof.
  do 2 eexists. split; [apply detectMultipleFailedLogins_run|].
  split; [apply detectMultipleIPAddresses_run|].
  unfold detectAll.
  rewrite detectMultipleFailedLogins_run, detectMultipleIPAddresses_run.
  cbn [bind app]. now rewrite <- app_assoc.
Qed.

(* ================================================================== *)
(** * The properties of the specification *)
(* ================================================================== *)

(** In exact arithmetic the window test is symmetric in its two
    timestamps and holds exactly when the absolute difference,
    truncated toward zero to whole minutes, is at most
    [time_window_minutes_]; the bound is inclusive.  With a window of
    10 minutes, differences of 9 min 59 s, 10 min and 10 min 1 s are
    all within it; 11 min is not. *)
Lemma isWithinTimeWindow_symmetric_truncated_inclusive {P : Platform}
    (self : EventDetector) (t1 t2 : time_point) :
  isWithinTimeWindow self t1 t2 = isWithinTimeWindow self t2 t1 /\
  (isWithinTimeWindow self t1 t2 = true <->
   Z.quot (Z.abs (t1 - t2)) ticks_per_minute <= time_window_minutes_ self) /\
  (Z.quot (Z.abs (t1 - t2)) ticks_per_minute = time_window_minutes_ self ->
   isWithinTimeWindow self t1 t2 = true) /\
  (forall threshold hour_start hour_end t,
     let ten := mkEventDetector threshold 10 hour_start hour_end in
     isWithinTimeWindow ten t (t + (9 * 60 + 59) * ticks_per_second) = true /\
     isWithinTimeWindow ten t (t + (10 * 60) * ticks_per_second) = true /\
     isWithinTimeWindow ten t (t + (10 * 60 + 1) * ticks_per_second) = true /\
     isWithinTimeWindow ten (t + (10 * 60 + 1) * ticks_per_second) t = true /\
     isWithinTimeWindow ten t (t + (11 * 60) * ticks_per_second) = false).
Proof.
  split; [apply isWithinTimeWindow_sym|].
  split; [rewrite isWithinTimeWindow_abs; apply Z.leb_le|].
  split.
  - intros H. rewrite isWithinTimeWindow_abs, H. apply Z.leb_refl.
  - intros threshold hour_start hour_end t ten.
    pose proof ticks_per_second_pos as Hpos.
    rewrite (isWithinTimeWindow_sym ten (t + (10 * 60 + 1) * ticks_per_second) t).
    rewrite !isWithinTimeWindow_later by lia.
    rewrite !quot_seconds. repeat split; reflexivity.
Qed.

(** ** The window test on 64-bit tick counts *)

Lemma int64_wrap_exact (z : Z) :
  INT64_MIN <= z <= INT64_MAX -> int64_wrap z = z.
Proof.
  unfold int64_wrap, INT64_MIN, INT64_MAX. intros H.
  change (2 ^ 64) with 18446744073709551616.
  rewrite Z.mod_small; lia.
Qed.

Lemma int64_wrap_overflow (z : Z) :
  INT64_MAX < z <= 2 * INT64_MAX + 1 -> int64_wrap z = z - 2 ^ 64.
Proof.
  unfold int64_wrap, INT64_MIN, INT64_MAX. intros H.
  change (2 ^ 64) with 18446744073709551616.
  replace (z - -9223372036854775808)
    with (z - 9223372036854775808 + 1 * 18446744073709551616) by lia.
  rewrite Z_mod_plus_full, Z.mod_small; lia.
Qed.

(** Within the range of the 64-bit difference the two tests agree. *)
Lemma isWithinTimeWindow_int64_exact {P : Platform} (self : EventDetector)
    (t1 t2 : time_point) :
  Z.abs (t1 - t2) <= INT64_MAX ->
  isWithinTimeWindow_int64 self t1 t2 = isWithinTimeWindow self t1 t2.
Proof.
  intros H. unfold isWithinTimeWindow_int64, isWithinTimeWindow. cbv zeta.
  rewrite int64_wrap_exact; [reflexivity|].
  unfold INT64_MIN, INT64_MAX in *.
  rewrite Z.gtb_ltb. destruct (Z.ltb_spec t2 t1); lia.
Qed.

(** On an input whose records are at most [INT64_MAX] ticks apart, the
    test between any two of its records is the test of the code. *)
Lemma span_fits_window_test {P : Platform} (self : EventDetector)
    (entries : list LogEntry) (a b : LogEntry) :
  span_fits_int64 entries -> In a entries -> In b entries ->
  isWithinTimeWindow_int64 self (timestamp a) (timestamp b) =
  isWithinTimeWindow self (timestamp a) (timestamp b).
Proof.
  intros H Ha Hb. apply isWithinTimeWindow_int64_exact.
  pose proof (H a b Ha Hb). pose proof (H b a Hb Ha). lia.
Qed.

(** C3.  The window test is not the truncated distance for every pair
    of time points.  1700-08-24 08:53:20 and 2239-05-10 15:06:40 are
    283333333 whole minutes apart; both fit the 64-bit tick count of
    nanoseconds, their difference does not, and with the window of 10
    minutes the test of the code answers true, in either order. *)
Theorem isWithinTimeWindow_overflows_between_1700_and_2239 :
  INT64_MIN <= year_1700 <= INT64_MAX /\
  INT64_MIN <= year_2239 <= INT64_MAX /\
  Z.quot (Z.abs (year_1700 - year_2239)) (@ticks_per_minute linux_utc) =
    283333333 /\
  time_window_minutes_ EventDetector_default = 10 /\
  int64_wrap (year_2239 - year_1700) = -1446744073709551616 /\
  isWithinTimeWindow_int64 EventDetector_default year_1700 year_2239 = true /\
  isWithinTimeWindow_int64 EventDetector_default year_2239 year_1700 = true.
Proof.
  repeat split; try reflexivity; vm_compute; discriminate.
Qed.

(** X23.  For two time points at most 2^63 - 1 ticks apart the window
    test of the code is symmetric and holds exactly when the absolute
    difference, truncated toward zero to whole minutes, is at most
    [time_window_minutes_]: there it is the test in exact
    arithmetic. *)
Theorem isWithinTimeWindow_int64_in_range {P : Platform}
    (self : EventDetector) (t1 t2 : time_point) :
  Z.abs (t1 - t2) <= INT64_MAX ->
  isWithinTimeWindow_int64 self t1 t2 = isWithinTimeWindow_int64 self t2 t1 /\
  (isWithinTimeWindow_int64 self t1 t2 = true <->
   Z.quot (Z.abs (t1 - t2)) ticks_per_minute <= time_window_minutes_ self) /\
  isWithinTimeWindow_int64 self t1 t2 = isWithinTimeWindow self t1 t2.
Proof.
  intros H.
  assert (H' : Z.abs (t2 - t1) <= INT64_MAX) by lia.
  rewrite (isWithinTimeWindow_int64_exact self t1 t2 H),
    (isWithinTimeWindow_int64_exact self t2 t1 H').
  split; [apply isWithinTimeWindow_sym|].
  split; [|reflexivity].
  rewrite isWithinTimeWindow_abs. apply Z.leb_le.
Qed.

(** X24.  Beyond that range the test never answers false: for two
    64-bit time points more than 2^63 - 1 ticks apart and a window
    that is not negative, the difference wraps to a negative duration
    and the test answers true. *)
Theorem isWithinTimeWindow_int64_beyond_range {P : Platform}
    (self : EventDetector) (t1 t2 : time_point) :
  INT64_MIN <= t1 <= INT64_MAX -> INT64_MIN <= t2 <= INT64_MAX ->
  INT64_MAX < Z.abs (t1 - t2) ->
  0 <= time_window_minutes_ self ->
  isWithinTimeWindow_int64 self t1 t2 = true.
Proof.
  intros H1 H2 Hfar Hw. unfold isWithinTimeWindow_int64. cbv zeta.
  pose proof ticks_per_minute_pos as Hpos.
  set (d := if t1 >? t2 then t1 - t2 else t2 - t1).
  assert (Hd : d = Z.abs (t1 - t2)).
  { unfold d. rewrite Z.gtb_ltb. destruct (Z.ltb_spec t2 t1); lia. }
  assert (Hwrap : int64_wrap d = d - 2 ^ 64).
  { apply int64_wrap_overflow. unfold INT64_MIN, INT64_MAX in *. lia. }
  rewrite Hwrap. apply Z.leb_le.
  assert (Hneg : d - 2 ^ 64 <= 0).
  { change (2 ^ 64) with 18446744073709551616.
    unfold INT64_MIN, INT64_MAX in *. lia. }
  pose proof (Z.quot_le_mono _ _ _ Hpos Hneg) as Hq.
  rewrite Z.quot_0_l in Hq by lia. lia.
Qed.

(** C5.  The after-hours detector looks at each record on its own: it
    emits a finding for a record exactly when the record is a SUCCESS
    whose local hour [h] has [h < business_hour_start_] or
    [h >= business_hour_end_]; the finding starts and ends at the
    record's timestamp and counts 1.  A SUCCESS at hour
    [business_hour_end_] is flagged, one at [business_hour_end_ - 1] is
    not (when start < end), and FAILED or UNKNOWN records are never
    flagged. *)
Theorem detectLoginsOutsideBusinessHours_rule {P : Platform}
    (self : EventDetector) :
  (forall l1 l2,
     detectLoginsOutsideBusinessHours self (l1 ++ l2) =
     detectLoginsOutsideBusinessHours self l1 ++
     detectLoginsOutsideBusinessHours self l2) /\
  (forall e,
     status e = SUCCESS /\
     (getHourOfDay (timestamp e) < business_hour_start_ self \/
      getHourOfDay (timestamp e) >= business_hour_end_ self) ->
     exists f,
       detectLoginsOutsideBusinessHours self [e] = [f] /\
       ev_type f = LOGIN_OUTSIDE_BUSINESS_HOURS /\
       ev_username f = username e /\
       ip_addresses f = [ip_address e] /\
       first_occurrence f = timestamp e /\
       last_occurrence f = timestamp e /\
       event_count f = 1) /\
  (forall e,
     ~ (status e = SUCCESS /\
        (getHourOfDay (timestamp e) < business_hour_start_ self \/
         getHourOfDay (timestamp e) >= business_hour_end_ self)) ->
     detectLoginsOutsideBusinessHours self [e] = []) /\
  (forall e, status e <> SUCCESS ->
     detectLoginsOutsideBusinessHours self [e] = []) /\
  (business_hour_start_ self < business_hour_end_ self ->
   forall e, status e = SUCCESS ->
     (getHourOfDay (timestamp e) = business_hour_end_ self ->
      length (detectLoginsOutsideBusinessHours self [e]) = 1%nat) /\
     (getHourOfDay (timestamp e) = business_hour_end_ self - 1 ->
      detectLoginsOutsideBusinessHours self [e] = [])).
Proof.
  assert (Hone : forall e,
    detectLoginsOutsideBusinessHours self [e] =
    if LoginStatus_eqb (status e) SUCCESS &&
       ((getHourOfDay (timestamp e) <? business_hour_start_ self) ||
        (getHourOfDay (timestamp e) >=? business_hour_end_ self))
    then [outside_hours_event self e (getHourOfDay (timestamp e))]
    else []).
  { intros e. unfold detectLoginsOutsideBusinessHours. simpl.
    destruct (LoginStatus_eqb (status e) SUCCESS); simpl; [|reflexivity].
    destruct (_ || _); reflexivity. }
  assert (Hcond : forall e,
    LoginStatus_eqb (status e) SUCCESS &&
    ((getHourOfDay (timestamp e) <? business_hour_start_ self) ||
     (getHourOfDay (timestamp e) >=? business_hour_end_ self)) = true <->
    status e = SUCCESS /\
    (getHourOfDay (timestamp e) < business_hour_start_ self \/
     getHourOfDay (timestamp e) >= business_hour_end_ self)).
  { intros e.
    rewrite andb_true_iff, orb_true_iff, Z.ltb_lt, Z.geb_le.
    assert (LoginStatus_eqb (status e) SUCCESS = true <-> status e = SUCCESS)
      by (destruct (status e); simpl; split; congruence).
    intuition lia. }
  split; [apply detectLoginsOutsideBusinessHours_app|].
  split; [|split; [|split]].
  - intros e He. apply Hcond in He. rewrite Hone, He.
    eexists. repeat split; reflexivity.
  - intros e He. rewrite Hone.
    destruct (_ && _) eqn:Hc; [|reflexivity].
    apply Hcond in Hc. contradiction.
  - intros e He. rewrite Hone.
    destruct (_ && _) eqn:Hc; [|reflexivity].
    apply Hcond in Hc. tauto.
  - intros Hlt e Hs. split; intros Hh; rewrite Hone.
    + replace (_ && _) with true; [reflexivity|].
      symmetry. apply Hcond. split; [exact Hs | lia].
    + destruct (_ && _) eqn:Hc; [|reflexivity].
      apply Hcond in Hc. lia.
Qed.

(** C8.  [detectAll] is the failed-login findings, then the after-hours
    findings, then the multi-address findings, each detector run on the
    whole input; its length is the sum of the three lengths and the
    three blocks hold one kind of finding each. *)
Theorem detectAll_concatenates_in_order {P : Platform}
    (self : EventDetector) (entries : list LogEntry) :
  exists failed_logins multiple_ips all_events,
    let outside_hours := detectLoginsOutsideBusinessHours self entries in
    detectMultipleFailedLogins self entries = Returned failed_logins /\
    detectMultipleIPAddresses self entries = Returned multiple_ips /\
    detectAll self entries = Returned all_events /\
    all_events = failed_logins ++ outside_hours ++ multiple_ips /\
    length all_events =
      (length failed_logins + length outside_hours + length multiple_ips)%nat /\
    Forall (fun f => ev_type f = MULTIPLE_FAILED_LOGINS) failed_logins /\
    Forall (fun f => ev_type f = LOGIN_OUTSIDE_BUSINESS_HOURS) outside_hours /\
    Forall (fun f => ev_type f = MULTIPLE_IP_ADDRESSES) multiple_ips.
Proof.
  destruct (detectMultipleFailedLogins_emitted self entries)
    as (failed & Hfailed & Efailed).
  destruct (detectMultipleIPAddresses_emitted self entries)
    as (multiple & Hmultiple & Emultiple).
  exists failed, multiple,
    (failed ++ detectLoginsOutsideBusinessHours self entries ++ multiple).
  cbv zeta. repeat split.
  - exact Hfailed.
  - exact Hmultiple.
  - unfold detectAll. rewrite Hfailed, Hmultiple. cbn [bind app].
    now rewrite <- app_assoc.
  - rewrite !length_app. lia.
  - eapply Forall_impl; [|exact Efailed].
    intros f (i & a & n & _ & He). unfold failed_logins_emit in He.
    destruct (_ >=? _); inversion He. reflexivity.
  - apply detectLoginsOutsideBusinessHours_type.
  - eapply Forall_impl; [|exact Emultiple].
    intros f (i & a & n & _ & He). unfold multiple_ips_emit in He.
    destruct (_ <=? _)%nat; inversion He. reflexivity.
Qed.

(** C9.  On every finite input and every configuration (valid or not)
    the three detectors and [detectAll] return a sequence of findings:
    no index leaves its vector, and each anchor loop over a vector [v]
    is done within [S (length v)] rounds, more fuel changing nothing.
    On the empty input each returns the empty sequence. *)
Theorem detectors_return {P : Platform}
    (self : EventDetector) (entries : list LogEntry) :
  (exists events, detectMultipleFailedLogins self entries = Returned events) /\
  (exists events, detectLoginsOutsideBusinessHours self entries = events) /\
  (exists events, detectMultipleIPAddresses self entries = Returned events) /\
  (exists events, detectAll self entries = Returned events) /\
  (forall user v fuel,
     (length v < fuel)%nat ->
     exists events,
       failed_logins_loop self fuel user v 0 [] = Returned events /\
       failed_logins_loop self (S (length v)) user v 0 [] = Returned events) /\
  (forall user v fuel,
     (length v < fuel)%nat ->
     exists events,
       multiple_ips_loop self fuel user v 0 [] = Returned events /\
       multiple_ips_loop self (S (length v)) user v 0 [] = Returned events) /\
  detectMultipleFailedLogins self [] = Returned [] /\
  detectLoginsOutsideBusinessHours self [] = [] /\
  detectMultipleIPAddresses self [] = Returned [] /\
  detectAll self [] = Returned [].
Proof.
  destruct (detectAll_run_exists self entries) as (failed & multiple & H1 & H2 & H3).
  repeat split; eauto.
  - intros user v fuel Hf.
    exists (failed_logins_of self user v).
    pose proof (proj1 (failed_logins_loop_run self user v) []) as Hrun.
    cbn [app] in Hrun.
    split; [|exact Hrun].
    rewrite <- Hrun.
    apply (anchor_loop_fuel v
             (fun fuel i det => failed_logins_loop self fuel user v i det)
             (failed_logins_emit self user v)
             (fun fuel i det => failed_logins_loop_done self user v fuel i det)
             (fun fuel i det a => failed_logins_loop_step self user v fuel i det a));
      lia.
  - intros user v fuel Hf.
    exists (multiple_ips_of self user v).
    pose proof (proj1 (multiple_ips_loop_run self user v) []) as Hrun.
    cbn [app] in Hrun.
    split; [|exact Hrun].
    rewrite <- Hrun.
    apply (anchor_loop_fuel v
             (fun fuel i det => multiple_ips_loop self fuel user v i det)
             (multiple_ips_emit self user v)
             (fun fuel i det => multiple_ips_loop_done self user v fuel i det)
             (fun fuel i det a => multiple_ips_loop_step self user v fuel i det a));
      lia.
Qed.

(** C1.  A user whose FAILED records number exactly twice the threshold
    and are pairwise within the window gets exactly one failed-login
    finding, counting all of them: when the loop emits at anchor [i]
    it resumes at [S window_end_idx], past the
    [window_end_idx - i + 1] records counted into the cluster. *)
Theorem double_threshold_cluster_one_finding {P : Platform}
    (self : EventDetector) (entries : list LogEntry) (user : string) :
  0 < failed_login_threshold_ self ->
  let attempts := filter (selected FAILED user) entries in
  Z.of_nat (length attempts) = 2 * failed_login_threshold_ self ->
  (forall a b, In a attempts -> In b attempts ->
     isWithinTimeWindow self (timestamp a) (timestamp b) = true) ->
  (exists events f,
     detectMultipleFailedLogins self entries = Returned events /\
     events_for_user user events = [f] /\
     event_count f = 2 * failed_login_threshold_ self) /\
  (forall v i a count window_end_idx,
     nth_error v i = Some a ->
     count_forward self (length v) v a (S i) 1 i =
       Returned (count, window_end_idx) ->
     failed_login_threshold_ self <= count ->
     (i <= window_end_idx < length v)%nat /\
     count = Z.of_nat (window_end_idx - i + 1) /\
     forall fuel det, exists e,
       event_count e = count /\
       failed_logins_loop self (S fuel) user v i det =
       failed_logins_loop self fuel user v (S window_end_idx) (det ++ [e])).
Proof.
  intros Hthr attempts Hlen Hpair. split.
  - destruct (failed_logins_by_user self entries user) as (events & Hrun & Hfor).
    fold attempts in Hfor.
    pose proof (sort_by_timestamp_perm attempts) as Hperm.
    destruct (sort_by_timestamp attempts) as [|a rest] eqn:Hv.
    + apply Permutation_length in Hperm. simpl in Hperm.
      rewrite <- Hperm in Hlen. lia.
    + pose proof (Permutation_length Hperm) as Hl. simpl in Hl.
      rewrite <- Hl in Hlen. clear Hl.
      rewrite failed_logins_of_one_cluster in Hfor.
      * exists events. eexists. split; [exact Hrun|].
        split; [exact Hfor|].
        change (1 + Z.of_nat (length rest) = 2 * failed_login_threshold_ self).
        lia.
      * apply Forall_forall. intros r Hr.
        apply Hpair; (eapply Permutation_in; [exact Hperm|]);
          [now left | now right].
      * lia.
  - clear Hlen Hpair attempts.
    intros v i a count window_end_idx Ha Hscan Hcount.
    pose proof (run_in_range self v i a Ha) as Hr.
    rewrite count_forward_spec in Hscan by lia.
    cbv zeta in Hscan.
    pose proof (failed_logins_loop_step self user v) as Hstep.
    unfold failed_logins_emit in Hstep.
    remember (within_run self (timestamp a) (skipn (S i) v)) as n eqn:Hn.
    assert (Hc : count = 1 + Z.of_nat n) by congruence.
    assert (Hw : window_end_idx = (i + n)%nat) by congruence.
    clear Hscan. subst count window_end_idx.
    split; [lia|]. split; [lia|].
    intros fuel det. eexists. split; cycle 1.
    + rewrite (Hstep fuel i det a Ha), <- Hn.
      apply Z.geb_le in Hcount. rewrite Hcount. reflexivity.
    + reflexivity.
Qed.

(** C2 (as amended).  Seven FAILED records of "alice" at minutes
    0, 1, ..., 6 from a base timestamp, with threshold 5 and a window
    of 10 minutes: exactly one finding, spanning minute 0 to minute 6,
    whose count is 7, the number of records in the cluster. *)
Theorem seven_attempts_one_finding_count_seven {P : Platform}
    (base : time_point) (ip : Z -> string) (hour_start hour_end : Z) :
  let self := mkEventDetector 5 10 hour_start hour_end in
  let attempt k :=
    mkLogEntry (base + k * ticks_per_minute) "alice" (ip k) FAILED in
  exists f,
    detectMultipleFailedLogins self (map attempt [0; 1; 2; 3; 4; 5; 6]) =
      Returned [f] /\
    ev_type f = MULTIPLE_FAILED_LOGINS /\
    ev_username f = "alice" /\
    first_occurrence f = base /\
    last_occurrence f = base + 6 * ticks_per_minute /\
    event_count f = 7.
Proof.
  intros self attempt. pose proof ticks_per_minute_pos as Hpos.
  rewrite detectMultipleFailedLogins_run. cbn [map].
  rewrite (group_by_user_single FAILED "alice")
    by (repeat constructor).
  cbn [flat_map fst snd app].
  rewrite (sorted_perm_unique
             (map attempt [0; 1; 2; 3; 4; 5; 6])
             (sort_by_timestamp (map attempt [0; 1; 2; 3; 4; 5; 6])));
    [ cbn [map]
    | cbn [map]; repeat constructor; cbn [timestamp attempt]; lia
    | apply sort_by_timestamp_perm
    | apply sort_by_timestamp_sorted ].
  rewrite app_nil_r, failed_logins_of_one_cluster.
  - eexists. split; [reflexivity|].
    cbn. repeat split; try reflexivity. lia.
  - repeat constructor; cbn [timestamp attempt];
      replace (base + 0 * ticks_per_minute) with base by lia;
      (rewrite isWithinTimeWindow_later by lia);
      rewrite quot_minutes; reflexivity.
  - cbn. lia.
Qed.

(** C4 (as amended).  A user with exactly threshold - 1 FAILED records,
    pairwise within the window, gets no failed-login finding.  One more
    FAILED record of that user, not earlier than the earliest of them
    and at a distance from it that truncates to exactly the window,
    gives exactly one finding, whose count is the threshold. *)
Theorem below_threshold_then_boundary_attempt {P : Platform}
    (self : EventDetector) (entries1 entries2 : list LogEntry)
    (user : string) (e : LogEntry) :
  let attempts := filter (selected FAILED user) (entries1 ++ entries2) in
  Z.of_nat (length attempts) = failed_login_threshold_ self - 1 ->
  (forall a b, In a attempts -> In b attempts ->
     isWithinTimeWindow self (timestamp a) (timestamp b) = true) ->
  (exists events,
     detectMultipleFailedLogins self (entries1 ++ entries2) = Returned events /\
     events_for_user user events = []) /\
  (status e = FAILED ->
   username e = user ->
   (forall a, In a attempts ->
      (forall b, In b attempts -> timestamp a <= timestamp b) ->
      timestamp a <= timestamp e /\
      Z.quot (timestamp e - timestamp a) ticks_per_minute =
        time_window_minutes_ self) ->
   exists events f,
     detectMultipleFailedLogins self (entries1 ++ e :: entries2) =
       Returned events /\
     events_for_user user events = [f] /\
     event_count f = failed_login_threshold_ self).
Proof.
  intros attempts Hlen Hpair. split.
  - destruct (failed_logins_by_user self (entries1 ++ entries2) user)
      as (events & Hrun & Hfor).
    exists events. split; [exact Hrun|].
    rewrite Hfor. apply failed_logins_of_short.
    rewrite (Permutation_length (sort_by_timestamp_perm _)).
    fold attempts. rewrite Hlen. lia.
  - intros Hst Hu Hedge.
    destruct (failed_logins_by_user self (entries1 ++ e :: entries2) user)
      as (events & Hrun & Hfor).
    exists events.
    assert (Hsel : selected FAILED user e = true).
    { unfold selected. rewrite Hst, Hu, String.eqb_refl. reflexivity. }
    pose proof (sort_by_timestamp_perm
                  (filter (selected FAILED user) (entries1 ++ e :: entries2)))
      as Hperm.
    pose proof (sort_by_timestamp_sorted
                  (filter (selected FAILED user) (entries1 ++ e :: entries2)))
      as Hsorted.
    assert (Hperm' : Permutation
                       (sort_by_timestamp
                          (filter (selected FAILED user)
                             (entries1 ++ e :: entries2)))
                       (e :: attempts)).
    { eapply perm_trans; [exact Hperm|].
      unfold attempts. rewrite !filter_app. cbn [filter]. rewrite Hsel.
      apply Permutation_sym, Permutation_middle. }
    clear Hperm.
    destruct (sort_by_timestamp
                (filter (selected FAILED user) (entries1 ++ e :: entries2)))
      as [|a0 rest].
    { apply Permutation_length in Hperm'. discriminate. }
    pose proof (Permutation_length Hperm') as Hl. cbn [length] in Hl.
    injection Hl as Hl.
    assert (Hrest : Z.of_nat (length rest) = failed_login_threshold_ self - 1)
      by (rewrite Hl; exact Hlen).
    assert (Hwithin :
      Forall (fun r =>
                isWithinTimeWindow self (timestamp a0) (timestamp r) = true)
        rest).
    { inversion Hsorted as [|? ? _ Hmin]; subst.
      rewrite Forall_forall in Hmin.
      pose proof (sort_by_timestamp_perm attempts) as Hp.
      pose proof (sort_by_timestamp_sorted attempts) as Hs.
      destruct (sort_by_timestamp attempts) as [|m w].
      - (* no earlier record: the new one is alone *)
        apply Permutation_length in Hp. cbn [length] in Hp.
        rewrite <- Hp in Hl. destruct rest; [constructor | discriminate].
      - assert (Hm : In m attempts)
          by (eapply Permutation_in; [exact Hp | now left]).
        assert (Hmmin : forall b, In b attempts -> timestamp m <= timestamp b).
        { intros b Hb.
          inversion Hs as [|? ? _ Hw]; subst. rewrite Forall_forall in Hw.
          apply Permutation_sym in Hp.
          destruct (Permutation_in b Hp Hb) as [<-|Hbw]; [lia|].
          exact (Hw b Hbw). }
        destruct (Hedge m Hm Hmmin) as [Hme Hquot].
        assert (Ha0 : timestamp a0 = timestamp m).
        { assert (timestamp a0 <= timestamp m).
          { assert (Hin : In m (a0 :: rest))
              by (eapply Permutation_in;
                  [apply Permutation_sym; exact Hperm' | now right]).
            destruct Hin as [<-|Hin]; [lia | exact (Hmin m Hin)]. }
          assert (Hin0 : In a0 (e :: attempts))
            by (eapply Permutation_in; [exact Hperm' | now left]).
          destruct Hin0 as [<-|Hin0]; [lia|].
          specialize (Hmmin a0 Hin0). lia. }
        apply Forall_forall. intros r Hr. rewrite Ha0.
        assert (Hin : In r (e :: attempts))
          by (eapply Permutation_in; [exact Hperm' | now right]).
        destruct Hin as [<-|Hin].
        + replace (timestamp e)
            with (timestamp m + (timestamp e - timestamp m)) by lia.
          rewrite isWithinTimeWindow_later by lia.
          rewrite Hquot. apply Z.leb_refl.
        + now apply Hpair. }
    rewrite failed_logins_of_one_cluster in Hfor; [|exact Hwithin | lia].
    eexists. split; [exact Hrun|]. split; [exact Hfor|].
    change (1 + Z.of_nat (length rest) = failed_login_threshold_ self). lia.
Qed.


(** C7.  Every multi-address finding comes from an anchor of the sorted
    SUCCESS records of its user and the records counted into that
    anchor's window (the cluster): its [ip_addresses] are exactly the
    source addresses of the cluster, each once, in strictly ascending
    lexicographic order, and its count is the number of those
    addresses, which is below the number of records of the cluster as
    soon as two of them share an address. *)
Theorem multiple_ip_finding_lists_distinct_addresses {P : Platform}
    (self : EventDetector) (entries : list LogEntry) :
  exists events,
    detectMultipleIPAddresses self entries = Returned events /\
    Forall
      (fun f =>
         let v := sort_by_timestamp
                    (filter (selected SUCCESS (ev_username f)) entries) in
         exists i anchor,
           nth_error v i = Some anchor /\
           let cluster :=
             firstn (S (within_run self (timestamp anchor) (skipn (S i) v)))
               (skipn i v) in
           first_occurrence f = timestamp anchor /\
           (forall ip,
              In ip (ip_addresses f) <-> In ip (map ip_address cluster)) /\
           StronglySorted str_lt (ip_addresses f) /\
           NoDup (ip_addresses f) /\
           event_count f = Z.of_nat (length (ip_addresses f)) /\
           event_count f <= Z.of_nat (length cluster) /\
           (~ NoDup (map ip_address cluster) ->
            event_count f < Z.of_nat (length cluster)))
      events.
Proof.
  destruct (detectMultipleIPAddresses_emitted self entries)
    as (events & Hrun & Hall).
  exists events. split; [exact Hrun|].
  eapply Forall_impl; [|exact Hall].
  intros f. cbv zeta.
  intros (i & a & n & Ha & He).
  set (v := sort_by_timestamp _) in *.
  exists i, a. split; [exact Ha|].
  unfold multiple_ips_emit in He. cbv zeta in He.
  rewrite (nth_error_skipn_cons v i a Ha). cbn [firstn].
  set (run := firstn _ (skipn (S i) v)) in *.
  set (ips := fold_left set_insert (map ip_address run)
                (set_insert [] (ip_address a))) in *.
  revert He. destruct (2 <=? length ips)%nat; intros He; [|discriminate].
  assert (Hf : f = multiple_ips_event self (ev_username f) a
                     (nth (i + within_run self (timestamp a) (skipn (S i) v)) v a)
                     ips) by congruence.
  assert (Hips : ip_addresses f = ips).
  { rewrite Hf. cbn [ip_addresses multiple_ips_event set_description
                     set_ip_addresses].
    apply fold_push_back. }
  assert (Hsorted : StronglySorted str_lt ips).
  { apply fold_set_insert_sorted. repeat constructor. }
  assert (Hmem : forall ip, In ip ips <-> In ip (map ip_address (a :: run))).
  { intros ip. unfold ips. rewrite fold_set_insert_in. cbn [map set_insert In].
    intuition. }
  assert (Hnodup : NoDup ips) by now apply str_lt_sorted_nodup.
  assert (Hcount : event_count f = Z.of_nat (length ips)).
  { rewrite Hf. reflexivity. }
  rewrite Hips.
  split; [rewrite Hf; reflexivity|].
  split; [exact Hmem|].
  split; [exact Hsorted|].
  split; [exact Hnodup|].
  split; [exact Hcount|].
  assert (Hincl : incl ips (map ip_address (a :: run)))
    by (intros ip Hip; now apply Hmem).
  pose proof (NoDup_incl_length Hnodup Hincl) as Hle.
  rewrite length_map in Hle.
  split; [lia|].
  intros Hdup.
  destruct (Nat.eq_dec (length ips) (length (a :: run))) as [Heq|Hne]; [|lia].
  exfalso. apply Hdup.
  apply (NoDup_incl_NoDup Hnodup); [|exact Hincl].
  rewrite length_map. lia.
Qed.

(** C10.  Every failed-login finding carries one address, that of the
    anchor of its cluster: the record at which the window starts,
    earliest of the records counted, whatever the addresses of the
    others. *)
Theorem failed_login_finding_carries_anchor_address {P : Platform}
    (self : EventDetector) (entries : list LogEntry) :
  exists events,
    detectMultipleFailedLogins self entries = Returned events /\
    Forall
      (fun f =>
         let v := sort_by_timestamp
                    (filter (selected FAILED (ev_username f)) entries) in
         exists i anchor,
           nth_error v i = Some anchor /\
           let cluster :=
             firstn (S (within_run self (timestamp anchor) (skipn (S i) v)))
               (skipn i v) in
           ip_addresses f = [ip_address anchor] /\
           first_occurrence f = timestamp anchor /\
           event_count f = Z.of_nat (length cluster) /\
           In anchor cluster /\
           Forall (fun r => timestamp anchor <= timestamp r) cluster)
      events.
Proof.
  destruct (detectMultipleFailedLogins_emitted self entries)
    as (events & Hrun & Hall).
  exists events. split; [exact Hrun|].
  eapply Forall_impl; [|exact Hall].
  intros f. cbv zeta.
  pose proof (sort_by_timestamp_sorted
                (filter (selected FAILED (ev_username f)) entries)) as Hsorted.
  intros (i & a & n & Ha & He).
  set (v := sort_by_timestamp _) in *.
  exists i, a. split; [exact Ha|].
  pose proof (run_in_range self v i a Ha) as Hr.
  unfold failed_logins_emit in He. cbv zeta in He.
  apply (StronglySorted_skipn _ _ i) in Hsorted.
  rewrite (nth_error_skipn_cons v i a Ha) in *. cbn [firstn].
  set (m := within_run self (timestamp a) (skipn (S i) v)) in *.
  revert He.
  destruct (1 + Z.of_nat m >=? failed_login_threshold_ self);
    intros He; [|discriminate].
  assert (Hf : f = failed_logins_event self (ev_username f) a
                     (nth (i + m) v a) (1 + Z.of_nat m)) by congruence.
  split; [rewrite Hf; reflexivity|].
  split; [rewrite Hf; reflexivity|].
  split.
  - rewrite Hf. cbn [event_count failed_logins_event set_description
                     SuspiciousEvent_ctor length].
    rewrite length_firstn, length_skipn. lia.
  - split; [now left|].
    inversion Hsorted as [|? ? _ Hmin]; subst.
    constructor; [lia|].
    apply Forall_forall. intros r Hin.
    rewrite Forall_forall in Hmin. apply Hmin.
    eapply In_firstn; exact Hin.
Qed.

(* ================================================================== *)
(** * Concrete runs *)
(* ================================================================== *)

(** The runs below are on the platform [linux_utc], with the timestamps
    of the unit tests. *)

(** "EventDetector - Multiple failed logins detected" *)
Example test_multiple_failed_logins_detected :
  exists f,
    detectMultipleFailedLogins EventDetector_default
      [ failed_at 10 0 "alice" "192.168.1.1";
        failed_at 10 1 "alice" "192.168.1.1";
        failed_at 10 2 "alice" "192.168.1.1";
        failed_at 10 3 "alice" "192.168.1.1";
        failed_at 10 5 "alice" "192.168.1.1";
        failed_at 10 7 "alice" "192.168.1.1" ] = Returned [f] /\
    ev_username f = "alice" /\ event_count f = 6 /\
    ev_type f = MULTIPLE_FAILED_LOGINS /\
    description f =
      "User 'alice' had 6 failed login attempts within 10 minutes".
Proof. eexists. repeat split; vm_compute; reflexivity. Qed.

(** "EventDetector - Ignores successful logins in failed count" *)
Example test_ignores_successful_logins :
  exists f,
    detectMultipleFailedLogins EventDetector_default
      [ failed_at 10 0 "alice" "192.168.1.1";
        success_at 10 1 "alice" "192.168.1.1";
        failed_at 10 2 "alice" "192.168.1.1";
        success_at 10 3 "alice" "192.168.1.1";
        failed_at 10 4 "alice" "192.168.1.1";
        failed_at 10 5 "alice" "192.168.1.1";
        failed_at 10 6 "alice" "192.168.1.1" ] = Returned [f] /\
    event_count f = 5.
Proof. eexists. split; vm_compute; reflexivity. Qed.

(** "EventDetector - Login after business hours detected" *)
Example test_login_after_business_hours :
  length
    (detectLoginsOutsideBusinessHours EventDetector_default
       [ success_at 18 0 "bob" "192.168.1.2";
         success_at 22 15 "charlie" "192.168.1.3" ]) = 2%nat /\
  detectLoginsOutsideBusinessHours EventDetector_default
    [ success_at 10 30 "alice" "192.168.1.1";
      success_at 14 0 "bob" "192.168.1.2";
      success_at 17 59 "charlie" "192.168.1.3" ] = [].
Proof. split; vm_compute; reflexivity. Qed.

(** "EventDetector - Multiple IPs within time window detected" *)
Example test_multiple_ips_within_window :
  exists f,
    detectMultipleIPAddresses EventDetector_default
      [ success_at 10 0 "alice" "192.168.1.1";
        success_at 10 5 "alice" "10.0.0.1";
        success_at 10 8 "alice" "172.16.0.1" ] = Returned [f] /\
    ev_username f = "alice" /\ ev_type f = MULTIPLE_IP_ADDRESSES /\
    ip_addresses f = ["10.0.0.1"; "172.16.0.1"; "192.168.1.1"] /\
    event_count f = 3.
Proof. eexists. repeat split; vm_compute; reflexivity. Qed.

(** "EventDetector - Different users don't interfere" *)
Example test_different_users :
  exists f,
    detectMultipleIPAddresses EventDetector_default
      [ success_at 10 0 "alice" "192.168.1.1";
        success_at 10 2 "bob" "10.0.0.1";
        success_at 10 4 "alice" "10.0.0.5" ] = Returned [f] /\
    ev_username f = "alice".
Proof. eexists. split; vm_compute; reflexivity. Qed.

(** "EventDetector - detectAll combines all detections" *)
Example test_detectAll_combines :
  exists f1 f2 f3,
    detectAll EventDetector_default
      [ failed_at 10 0 "alice" "192.168.1.1";
        failed_at 10 1 "alice" "192.168.1.1";
        failed_at 10 2 "alice" "192.168.1.1";
        failed_at 10 3 "alice" "192.168.1.1";
        failed_at 10 4 "alice" "192.168.1.1";
        success_at 22 0 "bob" "10.0.0.1";
        success_at 14 0 "charlie" "172.16.0.1";
        success_at 14 5 "charlie" "172.16.0.2" ] = Returned [f1; f2; f3] /\
    ev_type f1 = MULTIPLE_FAILED_LOGINS /\
    ev_type f2 = LOGIN_OUTSIDE_BUSINESS_HOURS /\
    ev_type f3 = MULTIPLE_IP_ADDRESSES.
Proof. do 3 eexists. repeat split; vm_compute; reflexivity. Qed.

(** [std::to_string] *)
Example to_string_examples :
  to_string 0 = "0" /\ to_string 18 = "18" /\ to_string (-3) = "-3".
Proof. repeat split. Qed.

(** A cluster whose records come from three addresses: the finding
    keeps the anchor's only. *)
Example failed_cluster_keeps_anchor_address :
  exists f,
    detectMultipleFailedLogins (mkEventDetector 3 10 8 18)
      [ failed_at 10 2 "alice" "10.0.0.2";
        failed_at 10 0 "alice" "10.0.0.1";
        failed_at 10 4 "alice" "10.0.0.3" ] = Returned [f] /\
    ip_addresses f = ["10.0.0.1"] /\ event_count f = 3.
Proof. eexists. repeat split; vm_compute; reflexivity. Qed.

(** Three records, two addresses: the count is 2. *)
Example multiple_ips_counts_addresses :
  exists f,
    detectMultipleIPAddresses EventDetector_default
      [ success_at 10 0 "alice" "10.0.0.2";
        success_at 10 1 "alice" "10.0.0.1";
        success_at 10 2 "alice" "10.0.0.2" ] = Returned [f] /\
    ip_addresses f = ["10.0.0.1"; "10.0.0.2"] /\ event_count f = 2.
Proof. eexists. repeat split; vm_compute; reflexivity. Qed.

(** ** C2 as stated *)

(** C2, counterexample.  On the seven records the one finding counts 7,
    so no finding with count 6 is returned. *)
Lemma seven_attempts_count_six_refuted :
  ~ exists f,
      detectMultipleFailedLogins EventDetector_default alice_seven =
        Returned [f] /\
      event_count f = 6 /\
      first_occurrence f = createTimestamp 10 0 /\
      last_occurrence f = createTimestamp 10 6.
Proof.
  intros (f & Hrun & Hcount & _).
  vm_compute in Hrun.
  assert (Hf : event_count f = 7) by (injection Hrun as <-; reflexivity).
  rewrite Hf in Hcount. discriminate Hcount.
Qed.

(** ** C4 as stated *)

(** C4, counterexample.  Threshold 3, window 10: two FAILED records at
    10:10 and 10:15 give nothing; a third at 10:00 is exactly one
    window from the earliest of them, yet still no finding is emitted,
    because the scan from 10:00 stops before 10:15. *)
Lemma earlier_boundary_attempt_no_finding :
  Z.of_nat (length (filter (selected FAILED "alice") alice_two)) =
    failed_login_threshold_ (mkEventDetector 3 10 8 18) - 1 /\
  forallb
    (fun a =>
       forallb
         (fun b =>
            isWithinTimeWindow (mkEventDetector 3 10 8 18)
              (timestamp a) (timestamp b))
         alice_two)
    alice_two = true /\
  status alice_earlier = FAILED /\
  username alice_earlier = "alice" /\
  Z.quot (Z.abs (timestamp alice_earlier - createTimestamp 10 10))
    ticks_per_minute = time_window_minutes_ (mkEventDetector 3 10 8 18) /\
  detectMultipleFailedLogins (mkEventDetector 3 10 8 18) alice_two =
    Returned [] /\
  detectMultipleFailedLogins (mkEventDetector 3 10 8 18)
    (alice_two ++ [alice_earlier]) = Returned [] /\
  ~ exists events f,
      detectMultipleFailedLogins (mkEventDetector 3 10 8 18)
        (alice_two ++ [alice_earlier]) = Returned events /\
      events_for_user "alice" events = [f] /\
      event_count f = failed_login_threshold_ (mkEventDetector 3 10 8 18).
Proof.
  repeat split; try (vm_compute; reflexivity).
  intros (events & f & Hrun & Hfor & _).
  vm_compute in Hrun. injection Hrun as <-. discriminate Hfor.
Qed.

(** ** The general statements at concrete inputs *)

Ltac in_cases H :=
  repeat (destruct H as [<-|H]; [|]); try contradiction.

(** C1 at threshold 2: four FAILED records of "alice" between 10:00 and
    10:06, among records of others and a success of her own. *)
Lemma double_threshold_cluster_one_finding_witness :
  exists events f,
    detectMultipleFailedLogins (mkEventDetector 2 10 8 18) alice_four_and_bob =
      Returned events /\
    events_for_user "alice" events = [f] /\
    event_count f = 2 * 2.
Proof.
  apply (double_threshold_cluster_one_finding
           (mkEventDetector 2 10 8 18) alice_four_and_bob "alice").
  - reflexivity.
  - vm_compute. reflexivity.
  - intros a b Ha Hb. vm_compute in Ha, Hb.
    in_cases Ha; in_cases Hb; vm_compute; reflexivity.
Defined.

(** C4 at threshold 3: FAILED at 10:00 and 10:05, then one at 10:10. *)
Lemma below_threshold_then_boundary_attempt_witness :
  (exists events,
     detectMultipleFailedLogins (mkEventDetector 3 10 8 18)
       (alice_two_early ++ [success_at 10 7 "bob" "10.0.0.9"]) =
       Returned events /\
     events_for_user "alice" events = []) /\
  (exists events f,
     detectMultipleFailedLogins (mkEventDetector 3 10 8 18)
       (alice_two_early ++
        failed_at 10 10 "alice" "192.168.1.1" ::
        [success_at 10 7 "bob" "10.0.0.9"]) = Returned events /\
     events_for_user "alice" events = [f] /\
     event_count f = 3).
Proof.
  destruct (below_threshold_then_boundary_attempt
              (mkEventDetector 3 10 8 18)
              alice_two_early [success_at 10 7 "bob" "10.0.0.9"]
              "alice" (failed_at 10 10 "alice" "192.168.1.1"))
    as [Hnone Hone].
  - vm_compute. reflexivity.
  - intros a b Ha Hb. vm_compute in Ha, Hb.
    in_cases Ha; in_cases Hb; vm_compute; reflexivity.
  - split; [exact Hnone|].
    apply Hone.
    + reflexivity.
    + reflexivity.
    + intros a Ha Hmin. vm_compute in Ha. in_cases Ha.
      * split; vm_compute; [discriminate | reflexivity].
      * exfalso.
        specialize (Hmin (failed_at 10 0 "alice" "192.168.1.1")).
        vm_compute in Hmin. apply Hmin; [now left | reflexivity].
Defined.

(** C5 with the default hours [8, 18): 18:00 is flagged, 17:59 is not,
    a failure at 23:00 is not. *)
Lemma detectLoginsOutsideBusinessHours_rule_witness :
  (exists f,
     detectLoginsOutsideBusinessHours EventDetector_default
       [success_at 18 0 "bob" "192.168.1.2"] = [f] /\
     ev_type f = LOGIN_OUTSIDE_BUSINESS_HOURS /\
     ev_username f = "bob" /\
     ip_addresses f = ["192.168.1.2"] /\
     first_occurrence f = createTimestamp 18 0 /\
     last_occurrence f = createTimestamp 18 0 /\
     event_count f = 1) /\
  detectLoginsOutsideBusinessHours EventDetector_default
    [success_at 17 59 "charlie" "192.168.1.3"] = [] /\
  detectLoginsOutsideBusinessHours EventDetector_default
    [failed_at 23 0 "bob" "192.168.1.2"] = [].
Proof.
  destruct (detectLoginsOutsideBusinessHours_rule EventDetector_default)
    as (_ & Hyes & _ & Hstatus & Hedge).
  split; [|split].
  - apply (Hyes (success_at 18 0 "bob" "192.168.1.2")).
    split; [reflexivity|]. right. vm_compute. discriminate.
  - apply (Hedge eq_refl (success_at 17 59 "charlie" "192.168.1.3") eq_refl).
    vm_compute. reflexivity.
  - apply (Hstatus (failed_at 23 0 "bob" "192.168.1.2")). discriminate.
Defined.


(** C2 (as amended) from 10:00 on. *)
Lemma seven_attempts_one_finding_count_seven_witness :
  exists f,
    detectMultipleFailedLogins (mkEventDetector 5 10 8 18)
      (map (fun k =>
              mkLogEntry (createTimestamp 10 0 + k * ticks_per_minute)
                "alice" "192.168.1.1" FAILED)
         [0; 1; 2; 3; 4; 5; 6]) = Returned [f] /\
    ev_type f = MULTIPLE_FAILED_LOGINS /\
    ev_username f = "alice" /\
    first_occurrence f = createTimestamp 10 0 /\
    last_occurrence f = createTimestamp 10 0 + 6 * ticks_per_minute /\
    event_count f = 7.
Proof.
  exact (seven_attempts_one_finding_count_seven
           (createTimestamp 10 0) (fun _ => "192.168.1.1") 8 18).
Defined.

(** C7 on three logins from two addresses. *)
Lemma multiple_ip_finding_lists_distinct_addresses_witness :
  exists events,
    detectMultipleIPAddresses EventDetector_default alice_three_logins =
      Returned events /\
    Forall
      (fun f =>
         StronglySorted str_lt (ip_addresses f) /\
         NoDup (ip_addresses f) /\
         event_count f = Z.of_nat (length (ip_addresses f)))
      events.
Proof.
  destruct (multiple_ip_finding_lists_distinct_addresses
              EventDetector_default alice_three_logins)
    as (events & Hrun & Hall).
  exists events. split; [exact Hrun|].
  eapply Forall_impl; [|exact Hall].
  intros f (i & a & _ & _ & _ & Hs & Hn & Hc & _). auto.
Defined.

(** C8 on the input of the [detectAll] unit test. *)
Lemma detectAll_concatenates_in_order_witness :
  exists failed_logins multiple_ips all_events,
    detectMultipleFailedLogins EventDetector_default
      (alice_seven ++ alice_three_logins) = Returned failed_logins /\
    detectMultipleIPAddresses EventDetector_default
      (alice_seven ++ alice_three_logins) = Returned multiple_ips /\
    detectAll EventDetector_default
      (alice_seven ++ alice_three_logins) = Returned all_events /\
    all_events =
      failed_logins ++
      detectLoginsOutsideBusinessHours EventDetector_default
        (alice_seven ++ alice_three_logins) ++
      multiple_ips.
Proof.
  destruct (detectAll_concatenates_in_order EventDetector_default
              (alice_seven ++ alice_three_logins))
    as (failed & multiple & all & H1 & H2 & H3 & H4 & _).
  exists failed, multiple, all. auto.
Defined.

(** C9 on the same input. *)
Lemma detectors_return_witness :
  exists events,
    detectAll EventDetector_default (alice_seven ++ alice_three_logins) =
      Returned events.
Proof.
  exact (proj1 (proj2 (proj2 (proj2
           (detectors_return EventDetector_default
              (alice_seven ++ alice_three_logins)))))).
Defined.

(** C10 on seven failures. *)
Lemma failed_login_finding_carries_anchor_address_witness :
  exists events,
    detectMultipleFailedLogins EventDetector_default alice_seven =
      Returned events /\
    Forall (fun f => length (ip_addresses f) = 1%nat) events.
Proof.
  destruct (failed_login_finding_carries_anchor_address
              EventDetector_default alice_seven)
    as (events & Hrun & Hall).
  exists events. split; [exact Hrun|].
  eapply Forall_impl; [|exact Hall].
  intros f (i & a & _ & Hip & _). now rewrite Hip.
Defined.

(* ================================================================== *)
(** * Further properties of the detectors *)
(* ================================================================== *)

Lemma LoginStatus_eqb_eq (a b : LoginStatus) :
  LoginStatus_eqb a b = true <-> a = b.
Proof. destruct a, b; simpl; split; congruence. Qed.

Lemma selected_spec (st : LoginStatus) (user : string) (e : LogEntry) :
  selected st user e = true <-> status e = st /\ username e = user.
Proof.
  unfold selected.
  now rewrite andb_true_iff, LoginStatus_eqb_eq, String.eqb_eq.
Qed.

Lemma group_by_user_filter_status (st : LoginStatus) (entries : list LogEntry) :
  group_by_user st (filter (has_status st) entries) = group_by_user st entries.
Proof.
  unfold group_by_user, has_status. generalize (@nil (string * list LogEntry)).
  induction entries as [|e entries IH]; intros m; simpl; [reflexivity|].
  destruct (LoginStatus_eqb (status e) st) eqn:He; simpl.
  - rewrite He. apply IH.
  - apply IH.
Qed.

Lemma outside_hours_loop_filter {P : Platform} (self : EventDetector)
    (entries : list LogEntry) det :
  outside_hours_loop self (filter (has_status SUCCESS) entries) det =
  outside_hours_loop self entries det.
Proof.
  unfold has_status. revert det.
  induction entries as [|e entries IH]; intros det; simpl; [reflexivity|].
  destruct (LoginStatus_eqb (status e) SUCCESS) eqn:He; simpl.
  - rewrite He. simpl. destruct (_ || _); apply IH.
  - apply IH.
Qed.

Lemma filter_selected_of_user (st : LoginStatus) (user k : string)
    (entries : list LogEntry) :
  filter (selected st k) (filter (of_user user) entries) =
  if String.eqb k user then filter (selected st k) entries else [].
Proof.
  induction entries as [|e entries IH]; simpl.
  - now destruct (String.eqb k user).
  - unfold of_user at 1, selected at 2.
    destruct (String.eqb_spec (username e) user) as [Hu|Hu]; simpl.
    + rewrite IH. unfold selected at 1.
      destruct (String.eqb_spec k user) as [->|Hk].
      * reflexivity.
      * destruct (String.eqb_spec (username e) k) as [Hek|Hek];
          [congruence|].
        now rewrite andb_false_r.
    + rewrite IH.
      destruct (String.eqb_spec k user) as [->|Hk]; [|reflexivity].
      destruct (String.eqb_spec (username e) user) as [Hek|Hek];
        [congruence|].
      now rewrite andb_false_r.
Qed.

(** An emitted event names the user of its anchor, a record of the
    input with the status scanned. *)
Lemma emitted_anchor_in_input (st : LoginStatus) {P : Platform}
    (entries : list LogEntry)
    (emit : nat -> LogEntry -> option (nat * SuspiciousEvent))
    (f : SuspiciousEvent) :
  emitted (sort_by_timestamp (filter (selected st (ev_username f)) entries))
    emit f ->
  exists a, In a entries /\ status a = st /\ username a = ev_username f.
Proof.
  intros (i & a & n & Ha & _). exists a.
  apply nth_error_In in Ha.
  apply (Permutation_in _ (sort_by_timestamp_perm _)) in Ha.
  apply filter_In in Ha. destruct Ha as [Hin Hsel].
  apply selected_spec in Hsel. tauto.
Qed.

(** X1.  Each detector reads only the records of the status it scans:
    dropping the others from the input changes nothing. *)
Theorem detectors_ignore_other_statuses {P : Platform}
    (self : EventDetector) (entries : list LogEntry) :
  detectMultipleFailedLogins self (filter (has_status FAILED) entries) =
    detectMultipleFailedLogins self entries /\
  detectLoginsOutsideBusinessHours self (filter (has_status SUCCESS) entries) =
    detectLoginsOutsideBusinessHours self entries /\
  detectMultipleIPAddresses self (filter (has_status SUCCESS) entries) =
    detectMultipleIPAddresses self entries.
Proof.
  split; [|split].
  - unfold detectMultipleFailedLogins.
    now rewrite group_by_user_filter_status.
  - apply outside_hours_loop_filter.
  - unfold detectMultipleIPAddresses.
    now rewrite group_by_user_filter_status.
Qed.

(** X2.  The clustering detectors treat users apart: the findings that
    name a user are exactly what the detector returns on that user's
    records alone. *)
Theorem findings_of_a_user_need_only_their_records {P : Platform}
    (self : EventDetector) (entries : list LogEntry) (user : string) :
  (exists all own,
     detectMultipleFailedLogins self entries = Returned all /\
     detectMultipleFailedLogins self (filter (of_user user) entries) =
       Returned own /\
     events_for_user user all = own) /\
  (exists all own,
     detectMultipleIPAddresses self entries = Returned all /\
     detectMultipleIPAddresses self (filter (of_user user) entries) =
       Returned own /\
     events_for_user user all = own).
Proof.
  split.
  - destruct (failed_logins_by_user self entries user) as (all & Hall & Hfor).
    destruct (failed_logins_by_user self (filter (of_user user) entries) user)
      as (own & Hown & Hfor').
    destruct (detectMultipleFailedLogins_emitted self
                (filter (of_user user) entries)) as (own' & Hown' & Hem).
    rewrite Hown in Hown'. injection Hown' as <-.
    exists all, own. repeat split; try assumption.
    rewrite Hfor. rewrite <- (events_for_user_all user own).
    + rewrite Hfor', filter_selected_of_user, String.eqb_refl. reflexivity.
    + eapply Forall_impl; [|exact Hem]. intros f Hf. cbv zeta in Hf.
      apply (emitted_anchor_in_input FAILED) in Hf.
      destruct Hf as (a & Hin & _ & Hu). rewrite <- Hu.
      apply filter_In in Hin. now apply String.eqb_eq.
  - destruct (multiple_ips_by_user self entries user) as (all & Hall & Hfor).
    destruct (multiple_ips_by_user self (filter (of_user user) entries) user)
      as (own & Hown & Hfor').
    destruct (detectMultipleIPAddresses_emitted self
                (filter (of_user user) entries)) as (own' & Hown' & Hem).
    rewrite Hown in Hown'. injection Hown' as <-.
    exists all, own. repeat split; try assumption.
    rewrite Hfor. rewrite <- (events_for_user_all user own).
    + rewrite Hfor', filter_selected_of_user, String.eqb_refl. reflexivity.
    + eapply Forall_impl; [|exact Hem]. intros f Hf. cbv zeta in Hf.
      apply (emitted_anchor_in_input SUCCESS) in Hf.
      destruct Hf as (a & Hin & _ & Hu). rewrite <- Hu.
      apply filter_In in Hin. now apply String.eqb_eq.
Qed.

(** ** The anchor loop emits a chain *)

Section AnchorChain.

Variable v : list LogEntry.
Variable loop :
  nat -> nat -> list SuspiciousEvent -> outcome (list SuspiciousEvent).
Variable emit : nat -> LogEntry -> option (nat * SuspiciousEvent).

Hypothesis loop_done : forall fuel i det,
  (length v <= i)%nat -> loop (S fuel) i det = Returned det.
Hypothesis loop_step : forall fuel i det a,
  nth_error v i = Some a ->
  loop (S fuel) i det =
  match emit i a with
  | Some (n, e) => loop fuel (S (i + n)) (det ++ [e])
  | None => loop fuel (S i) det
  end.

Lemma chain_skip (i : nat) (a : LogEntry) (events : list SuspiciousEvent) :
  nth_error v i = Some a -> emit i a = None ->
  chain v emit (S i) events -> chain v emit i events.
Proof.
  intros Ha He Hc.
  assert (Hone : forall k b, (i <= k)%nat -> ~ (S i <= k)%nat ->
                   nth_error v k = Some b -> emit k b = None).
  { intros k b H1 H2 Hb. assert (k = i) by lia. subst k. congruence. }
  inversion Hc as [? Hnone | ? j a' n e evs Hle Hnone Ha' He' Hrest]; subst.
  - apply chain_end. intros k b Hk Hb.
    destruct (Nat.le_gt_cases (S i) k); [eauto | apply (Hone k b); auto; lia].
  - apply (chain_emit v emit i j a' n e evs); auto; [lia|].
    intros k b Hk Hb.
    destruct (Nat.le_gt_cases (S i) k);
      [apply (Hnone k b); auto; lia | apply (Hone k b); auto; lia].
Qed.

Lemma anchor_loop_chain (fuel i : nat) :
  (length v - i < fuel)%nat ->
  exists events,
    (forall det, loop fuel i det = Returned (det ++ events)) /\
    chain v emit i events.
Proof.
  revert i. induction fuel as [|fuel IH]; intros i Hf; [lia|].
  destruct (Nat.le_gt_cases (length v) i) as [Hge|Hlt].
  - exists []. split.
    + intros det. rewrite app_nil_r. now apply loop_done.
    + apply chain_end. intros k b Hk Hb.
      assert (k < length v)%nat by (apply nth_error_Some; congruence). lia.
  - destruct (nth_error_in_range v i Hlt) as [a Ha].
    destruct (emit i a) as [[n e]|] eqn:He.
    + destruct (IH (S (i + n))) as [events [Hrun Hc]]; [lia|].
      exists (e :: events). split.
      * intros det. rewrite (loop_step fuel i det a Ha), He, Hrun.
        now rewrite <- app_assoc.
      * apply (chain_emit v emit i i a n e events); auto.
        intros k b Hk. lia.
    + destruct (IH (S i)) as [events [Hrun Hc]]; [lia|].
      exists events. split.
      * intros det. now rewrite (loop_step fuel i det a Ha), He.
      * now apply (chain_skip i a).
Qed.

(** The events of a chain were emitted, at anchors from [i] on. *)
Lemma chain_anchors (i : nat) (events : list SuspiciousEvent) :
  chain v emit i events ->
  Forall
    (fun e => exists j a n,
       (i <= j)%nat /\ nth_error v j = Some a /\ emit j a = Some (n, e))
    events.
Proof.
  induction 1 as [|i j a n e events Hle _ Ha He _ IH]; constructor.
  - now exists j, a, n.
  - eapply Forall_impl; [|exact IH].
    intros e' (j' & a' & n' & Hj' & H'). exists j', a', n'.
    split; [lia | exact H'].
Qed.

(** When each event counts its anchor and the [n] records after it,
    the counts of a chain from [i] add up to at most the records left. *)
Lemma chain_total_count (i : nat) (events : list SuspiciousEvent) :
  (forall j a n e, nth_error v j = Some a -> emit j a = Some (n, e) ->
     event_count e = 1 + Z.of_nat n /\ (j + n < length v)%nat) ->
  chain v emit i events ->
  total_count events <= Z.of_nat (length v - i).
Proof.
  intros Hw. induction 1 as [|i j a n e events Hle _ Ha He _ IH]; simpl.
  - lia.
  - destruct (Hw j a n e Ha He) as [Hc Hr]. lia.
Qed.

End AnchorChain.

Section Chains.

Context {P : Platform}.
Variable self : EventDetector.

Lemma failed_logins_of_chain (user : string) (v : list LogEntry) :
  chain v (failed_logins_emit self user v) 0 (failed_logins_of self user v).
Proof.
  destruct (anchor_loop_chain v
              (fun fuel i det => failed_logins_loop self fuel user v i det)
              (failed_logins_emit self user v)
              (fun fuel i det => failed_logins_loop_done self user v fuel i det)
              (fun fuel i det a => failed_logins_loop_step self user v fuel i det a)
              (S (length v)) 0%nat) as [events [Hrun Hc]]; [lia|].
  unfold failed_logins_of. now rewrite (Hrun []).
Qed.

Lemma multiple_ips_of_chain (user : string) (v : list LogEntry) :
  chain v (multiple_ips_emit self user v) 0 (multiple_ips_of self user v).
Proof.
  destruct (anchor_loop_chain v
              (fun fuel i det => multiple_ips_loop self fuel user v i det)
              (multiple_ips_emit self user v)
              (fun fuel i det => multiple_ips_loop_done self user v fuel i det)
              (fun fuel i det a => multiple_ips_loop_step self user v fuel i det a)
              (S (length v)) 0%nat) as [events [Hrun Hc]]; [lia|].
  unfold multiple_ips_of. now rewrite (Hrun []).
Qed.

(** What an emitted failed-login event holds. *)
Lemma failed_logins_emit_some (user : string) (v : list LogEntry)
    (j n : nat) (a : LogEntry) (e : SuspiciousEvent) :
  nth_error v j = Some a ->
  failed_logins_emit self user v j a = Some (n, e) ->
  n = within_run self (timestamp a) (skipn (S j) v) /\
  (j + n < length v)%nat /\
  failed_login_threshold_ self <= 1 + Z.of_nat n /\
  e = failed_logins_event self user a (nth (j + n) v a) (1 + Z.of_nat n).
Proof.
  intros Ha He. pose proof (run_in_range self v j a Ha) as Hr.
  unfold failed_logins_emit in He. cbv zeta in He.
  remember (within_run self (timestamp a) (skipn (S j) v)) as m eqn:Hm.
  destruct (Z.geb_spec (1 + Z.of_nat m) (failed_login_threshold_ self))
    as [Hge|Hlt]; [|discriminate].
  assert (n = m) by congruence. subst n.
  repeat split; try lia. congruence.
Qed.

Lemma multiple_ips_emit_some (user : string) (v : list LogEntry)
    (j n : nat) (a : LogEntry) (e : SuspiciousEvent) :
  nth_error v j = Some a ->
  multiple_ips_emit self user v j a = Some (n, e) ->
  let ips :=
    fold_left set_insert (map ip_address (firstn n (skipn (S j) v)))
      (set_insert [] (ip_address a)) in
  n = within_run self (timestamp a) (skipn (S j) v) /\
  (j + n < length v)%nat /\
  (2 <= length ips)%nat /\
  e = multiple_ips_event self user a (nth (j + n) v a) ips.
Proof.
  intros Ha He. pose proof (run_in_range self v j a Ha) as Hr.
  unfold multiple_ips_emit in He. cbv zeta in He.
  remember (within_run self (timestamp a) (skipn (S j) v)) as m eqn:Hm.
  cbv zeta.
  destruct (Nat.leb_spec 2
              (length (fold_left set_insert
                         (map ip_address (firstn m (skipn (S j) v)))
                         (set_insert [] (ip_address a))))) as [Hge|Hlt];
    [|discriminate].
  assert (n = m) by congruence. subst n.
  repeat split; try lia. congruence.
Qed.

End Chains.

(** ** Facts on sorted vectors and on the run of a window *)

Lemma sorted_nth_le (v : list LogEntry) (i j : nat) (x y : LogEntry) :
  StronglySorted timestamp_le v ->
  (i <= j)%nat ->
  nth_error v i = Some x -> nth_error v j = Some y ->
  timestamp x <= timestamp y.
Proof.
  intros Hs Hij Hx Hy.
  apply (StronglySorted_skipn _ _ i) in Hs.
  rewrite (nth_error_skipn_cons v i x Hx) in Hs.
  destruct (Nat.eq_dec i j) as [->|Hne]; [assert (x = y) by congruence; subst; lia|].
  apply StronglySorted_inv in Hs. destruct Hs as [_ Hmin].
  rewrite Forall_forall in Hmin. apply Hmin.
  apply (nth_error_In _ (j - S i)).
  rewrite nth_error_skipn. replace (S i + (j - S i))%nat with j by lia.
  exact Hy.
Qed.

Section Runs.

Context {P : Platform}.
Variable self : EventDetector.

(** The record at which a run stops is out of the window. *)
Lemma within_run_stop (t0 : time_point) (l : list LogEntry) (b : LogEntry) :
  nth_error l (within_run self t0 l) = Some b ->
  isWithinTimeWindow self t0 (timestamp b) = false.
Proof.
  induction l as [|e l IH]; simpl; [discriminate|].
  destruct (isWithinTimeWindow self t0 (timestamp e)) eqn:He; simpl.
  - exact IH.
  - intros [= <-]. exact He.
Qed.

(** Every record of a run is within the window. *)
Lemma within_run_nth (t0 : time_point) (l : list LogEntry) (k : nat)
    (b : LogEntry) :
  (k < within_run self t0 l)%nat ->
  nth_error l k = Some b ->
  isWithinTimeWindow self t0 (timestamp b) = true.
Proof.
  intros Hk Hb.
  pose proof (within_run_firstn self t0 l) as Hall.
  rewrite Forall_forall in Hall. apply Hall.
  apply (nth_error_In _ k). now rewrite nth_error_firstn, (proj2 (Nat.ltb_lt _ _) Hk).
Qed.

Lemma isWithinTimeWindow_self (t : time_point) :
  0 <= time_window_minutes_ self ->
  isWithinTimeWindow self t t = true.
Proof.
  intros Hw. rewrite isWithinTimeWindow_abs, Z.sub_diag. simpl Z.abs.
  rewrite Z.quot_0_l; [now apply Z.leb_le|].
  pose proof ticks_per_minute_pos. lia.
Qed.

(** Past a record out of the window of [t0], every later record is out
    of it too. *)
Lemma isWithinTimeWindow_beyond (t0 t1 t2 : time_point) :
  t0 <= t1 <= t2 ->
  isWithinTimeWindow self t0 t1 = false ->
  isWithinTimeWindow self t0 t2 = false.
Proof.
  intros Hle H1.
  destruct (isWithinTimeWindow self t0 t2) eqn:H2; [|reflexivity].
  rewrite (isWithinTimeWindow_between self t0 t1 t2 Hle H2) in H1.
  discriminate.
Qed.

(** The span of a cluster on a sorted vector: from the anchor to the
    last record of its run. *)
Lemma cluster_span (v : list LogEntry) (j : nat) (a : LogEntry) :
  StronglySorted timestamp_le v ->
  nth_error v j = Some a ->
  let n := within_run self (timestamp a) (skipn (S j) v) in
  let b := nth (j + n) v a in
  nth_error v (j + n) = Some b /\
  timestamp a <= timestamp b /\
  ((0 < n)%nat \/ 0 <= time_window_minutes_ self ->
   isWithinTimeWindow self (timestamp a) (timestamp b) = true).
Proof.
  intros Hs Ha n b.
  pose proof (run_in_range self v j a Ha) as Hr. fold n in Hr.
  assert (Hb : nth_error v (j + n) = Some b) by now apply nth_error_nth'.
  split; [exact Hb|]. split.
  - apply (sorted_nth_le v j (j + n) a b Hs); auto; lia.
  - intros Hor. destruct (Nat.eq_dec n 0) as [Hz|Hnz].
    + assert (a = b) by (rewrite Hz, Nat.add_0_r in Hb; congruence).
      subst b. rewrite <- H. apply isWithinTimeWindow_self.
      destruct Hor; [lia | assumption].
    + apply (within_run_nth (timestamp a) (skipn (S j) v) (n - 1)).
      * fold n. lia.
      * rewrite nth_error_skipn.
        replace (S j + (n - 1))%nat with (j + n)%nat by lia. exact Hb.
Qed.

End Runs.

(** ** What every finding of the clustering detectors satisfies *)

Lemma In_skipn {A : Type} (l : list A) (n : nat) (x : A) :
  In x (skipn n l) -> In x l.
Proof.
  intros H. rewrite <- (firstn_skipn n l). apply in_or_app. now right.
Qed.

(** X3.  On an input whose records are at most 2^63 - 1 ticks apart, a
    failed-login finding counts at least [failed_login_threshold_]
    records and at most the FAILED records of its user; it ends no
    earlier than it starts, and its end is within the window of its
    start (for a window that is not negative), in exact arithmetic and
    by the 64-bit test of the code alike. *)
Theorem failed_login_finding_bounds {P : Platform}
    (self : EventDetector) (entries : list LogEntry) :
  span_fits_int64 entries ->
  exists events,
    detectMultipleFailedLogins self entries = Returned events /\
    Forall
      (fun f =>
         ev_type f = MULTIPLE_FAILED_LOGINS /\
         failed_login_threshold_ self <= event_count f /\
         1 <= event_count f /\
         event_count f <=
           Z.of_nat
             (length (filter (selected FAILED (ev_username f)) entries)) /\
         first_occurrence f <= last_occurrence f /\
         (0 <= time_window_minutes_ self ->
          isWithinTimeWindow self (first_occurrence f) (last_occurrence f)
          = true /\
          isWithinTimeWindow_int64 self
            (first_occurrence f) (last_occurrence f) = true))
      events.
Proof.
  intros Hfit.
  destruct (detectMultipleFailedLogins_emitted self entries)
    as (events & Hrun & Hall).
  exists events. split; [exact Hrun|].
  eapply Forall_impl; [|exact Hall].
  intros f. cbv zeta. intros (j & a & n & Ha & He).
  pose proof (sort_by_timestamp_sorted
                (filter (selected FAILED (ev_username f)) entries)) as Hs.
  pose proof (sort_by_timestamp_perm
                (filter (selected FAILED (ev_username f)) entries)) as Hp.
  pose proof (Permutation_length Hp) as Hl.
  set (v := sort_by_timestamp _) in *.
  destruct (failed_logins_emit_some self _ v j n a f Ha He)
    as (Hn & Hr & Hthr & Hf).
  destruct (cluster_span self v j a Hs Ha) as (Hb & Hle & Hwin).
  rewrite <- Hn in Hb, Hle, Hwin.
  assert (Hin : forall r, In r v -> In r entries).
  { intros r Hr'. apply (Permutation_in _ Hp) in Hr'.
    apply filter_In in Hr'. tauto. }
  assert (Hty : ev_type f = MULTIPLE_FAILED_LOGINS) by (rewrite Hf; reflexivity).
  assert (Hc : event_count f = 1 + Z.of_nat n) by (rewrite Hf; reflexivity).
  assert (H1 : first_occurrence f = timestamp a) by (rewrite Hf; reflexivity).
  assert (H2 : last_occurrence f = timestamp (nth (j + n) v a))
    by (rewrite Hf; reflexivity).
  rewrite Hc, H1, H2.
  split; [exact Hty|]. split; [lia|]. split; [lia|]. split; [lia|].
  split; [exact Hle|].
  intros Hw.
  rewrite (span_fits_window_test self entries a (nth (j + n) v a) Hfit)
    by eauto using nth_error_In.
  split; auto.
Qed.

(** X4.  On an input whose records are at most 2^63 - 1 ticks apart, a
    multi-address finding counts at least two addresses, each the
    source address of a SUCCESS record of its user; it ends no earlier
    than it starts and its end is within the window of its start, in
    exact arithmetic and by the 64-bit test of the code alike. *)
Theorem multiple_ip_finding_bounds {P : Platform}
    (self : EventDetector) (entries : list LogEntry) :
  span_fits_int64 entries ->
  exists events,
    detectMultipleIPAddresses self entries = Returned events /\
    Forall
      (fun f =>
         ev_type f = MULTIPLE_IP_ADDRESSES /\
         2 <= event_count f /\
         first_occurrence f <= last_occurrence f /\
         isWithinTimeWindow self (first_occurrence f) (last_occurrence f)
         = true /\
         isWithinTimeWindow_int64 self
           (first_occurrence f) (last_occurrence f) = true /\
         forall ip, In ip (ip_addresses f) ->
           exists r,
             In r entries /\ status r = SUCCESS /\
             username r = ev_username f /\ ip_address r = ip)
      events.
Proof.
  intros Hfit.
  destruct (detectMultipleIPAddresses_emitted self entries)
    as (events & Hrun & Hall).
  exists events. split; [exact Hrun|].
  eapply Forall_impl; [|exact Hall].
  intros f. cbv zeta. intros (j & a & n & Ha & He).
  pose proof (sort_by_timestamp_sorted
                (filter (selected SUCCESS (ev_username f)) entries)) as Hs.
  pose proof (sort_by_timestamp_perm
                (filter (selected SUCCESS (ev_username f)) entries)) as Hp.
  set (v := sort_by_timestamp _) in *.
  destruct (multiple_ips_emit_some self _ v j n a f Ha He)
    as (Hn & Hr & Hips & Hf).
  destruct (cluster_span self v j a Hs Ha) as (Hb & Hle & Hwin).
  rewrite <- Hn in Hb, Hle, Hwin.
  assert (Hpos : (0 < n)%nat).
  { destruct n; [|lia]. simpl in Hips. lia. }
  assert (Hin : forall r, In r v ->
            In r entries /\ status r = SUCCESS /\ username r = ev_username f).
  { intros r Hr'. apply (Permutation_in _ Hp) in Hr'.
    apply filter_In in Hr'. destruct Hr' as [Hre Hsel].
    apply selected_spec in Hsel. tauto. }
  set (ips := fold_left set_insert _ _) in *.
  assert (Hty : ev_type f = MULTIPLE_IP_ADDRESSES) by (rewrite Hf; reflexivity).
  assert (Hc : event_count f = Z.of_nat (length ips))
    by (rewrite Hf; reflexivity).
  assert (H1 : first_occurrence f = timestamp a) by (rewrite Hf; reflexivity).
  assert (H2 : last_occurrence f = timestamp (nth (j + n) v a))
    by (rewrite Hf; reflexivity).
  assert (H3 : ip_addresses f = ips).
  { rewrite Hf. cbn [ip_addresses multiple_ips_event set_description
                     set_ip_addresses]. apply fold_push_back. }
  rewrite Hc, H1, H2, H3.
  split; [exact Hty|]. split; [lia|]. split; [exact Hle|].
  split; [auto|].
  split.
  { rewrite (span_fits_window_test self entries a (nth (j + n) v a) Hfit);
      [auto | apply Hin; eauto using nth_error_In
            | apply Hin; eauto using nth_error_In]. }
  intros ip Hip. apply fold_set_insert_in in Hip.
  destruct Hip as [Hip|Hip].
  - apply in_map_iff in Hip. destruct Hip as (r & Hr1 & Hr2).
    exists r. apply In_firstn, In_skipn in Hr2.
    destruct (Hin r Hr2) as (? & ? & ?). auto.
  - cbn in Hip. destruct Hip as [<-|[]].
    exists a. destruct (Hin a (nth_error_In _ _ Ha)) as (? & ? & ?). auto.
Qed.

(** ** The groups partition the records scanned *)

Lemma map_push_back_concat (m : list (string * list LogEntry)) key e :
  Permutation (concat (map snd (map_push_back m key e)))
    (e :: concat (map snd m)).
Proof.
  induction m as [|[k v] m IH]; simpl.
  - apply Permutation_refl.
  - destruct (String.compare key k); simpl.
    + rewrite <- app_assoc. simpl.
      apply Permutation_sym, Permutation_middle.
    + apply Permutation_refl.
    + eapply perm_trans; [apply Permutation_app_head, IH|].
      apply Permutation_sym, Permutation_middle.
Qed.

Lemma group_by_user_partition (st : LoginStatus) (entries : list LogEntry) :
  Permutation (concat (map snd (group_by_user st entries)))
    (filter (has_status st) entries).
Proof.
  unfold group_by_user, has_status.
  assert (Hgen : forall m,
    Permutation
      (concat (map snd
         (fold_left
            (fun m entry =>
               if LoginStatus_eqb (status entry) st
               then map_push_back m (username entry) entry else m)
            entries m)))
      (concat (map snd m) ++
       filter (fun e => LoginStatus_eqb (status e) st) entries)).
  { induction entries as [|e entries IH]; intros m; simpl.
    - now rewrite app_nil_r.
    - eapply perm_trans; [apply IH|].
      destruct (LoginStatus_eqb (status e) st); [|apply Permutation_refl].
      eapply perm_trans;
        [apply Permutation_app_tail, map_push_back_concat|].
      simpl. apply Permutation_middle. }
  apply (Hgen []).
Qed.

Lemma total_count_app (l1 l2 : list SuspiciousEvent) :
  total_count (l1 ++ l2) = total_count l1 + total_count l2.
Proof.
  induction l1 as [|f l1 IH]; simpl; [reflexivity|]. rewrite IH. lia.
Qed.

Lemma StronglySorted_app {A : Type} (R : A -> A -> Prop) (l1 l2 : list A) :
  StronglySorted R l1 -> StronglySorted R l2 ->
  (forall x y, In x l1 -> In y l2 -> R x y) ->
  StronglySorted R (l1 ++ l2).
Proof.
  induction 1 as [|x l1 Hs IH Hx]; intros H2 Hc; simpl; [exact H2|].
  constructor.
  - apply IH; [exact H2|]. intros a b Ha Hb. apply Hc; [now right | exact Hb].
  - apply Forall_app. split; [exact Hx|].
    apply Forall_forall. intros y Hy. apply Hc; [now left | exact Hy].
Qed.

(** Events produced per key, each naming its key, come out in the order
    of the keys. *)
Lemma flat_map_username_le
    (F : string -> list LogEntry -> list SuspiciousEvent)
    (m : list (string * list LogEntry)) :
  StronglySorted str_lt (keys m) ->
  (forall k g, Forall (fun f => ev_username f = k) (F k g)) ->
  StronglySorted username_le (flat_map (fun kv => F (fst kv) (snd kv)) m).
Proof.
  intros Hs HF. induction m as [|[k g] m IH]; simpl; [constructor|].
  apply StronglySorted_inv in Hs. destruct Hs as [Hs Hk].
  apply StronglySorted_app.
  - specialize (HF k g). induction HF as [|f l Hf Hl IHl]; constructor; auto.
    eapply Forall_impl; [|exact Hl].
    intros f' Hf'. left. congruence.
  - now apply IH.
  - intros x y Hx Hy. right.
    pose proof (HF k g) as Hkx. rewrite Forall_forall in Hkx.
    rewrite (Hkx x Hx).
    apply in_flat_map in Hy. destruct Hy as ([k' g'] & Hin & Hy).
    pose proof (HF k' g') as Hky. rewrite Forall_forall in Hky.
    rewrite (Hky y Hy).
    rewrite Forall_forall in Hk. apply Hk.
    unfold keys. now apply (in_map fst _ (k', g')).
Qed.

Section Ordering.

Context {P : Platform}.
Variable self : EventDetector.

(** The events of a chain on a sorted vector come in time order: each
    starts no earlier than the one before ends, and out of the window
    of the start of the one before. *)
Lemma chain_time_order (v : list LogEntry)
    (emit : nat -> LogEntry -> option (nat * SuspiciousEvent))
    (i : nat) (events : list SuspiciousEvent) :
  StronglySorted timestamp_le v ->
  (forall j a n e, nth_error v j = Some a -> emit j a = Some (n, e) ->
     n = within_run self (timestamp a) (skipn (S j) v) /\
     first_occurrence e = timestamp a /\
     last_occurrence e = timestamp (nth (j + n) v a)) ->
  chain v emit i events ->
  StronglySorted
    (fun f g =>
       last_occurrence f <= first_occurrence g /\
       isWithinTimeWindow self (first_occurrence f) (first_occurrence g)
       = false)
    events.
Proof.
  intros Hs Hemit.
  induction 1 as [|i j a n e events Hle _ Ha He Hc IH]; constructor; [exact IH|].
  destruct (Hemit j a n e Ha He) as (Hn & H1 & H2).
  destruct (cluster_span self v j a Hs Ha) as (Hb & _ & _).
  rewrite <- Hn in Hb.
  eapply Forall_impl; [|exact (chain_anchors v emit _ _ Hc)].
  intros g (j' & a' & n' & Hj' & Ha' & He').
  destruct (Hemit j' a' n' g Ha' He') as (_ & H1' & _).
  rewrite H1, H2, H1'. split.
  - apply (sorted_nth_le v (j + n) j' _ a' Hs); auto; lia.
  - assert (Hlt : (S (j + n) < length v)%nat).
    { assert (j' < length v)%nat by (apply nth_error_Some; congruence). lia. }
    destruct (nth_error_in_range v _ Hlt) as [c Hc'].
    apply (isWithinTimeWindow_beyond self _ (timestamp c)).
    + split.
      * apply (sorted_nth_le v j (S (j + n)) a c Hs); auto; lia.
      * apply (sorted_nth_le v (S (j + n)) j' c a' Hs); auto.
    + apply (within_run_stop self _ (skipn (S j) v)).
      rewrite <- Hn, nth_error_skipn.
      replace (S j + n)%nat with (S (j + n)) by lia. exact Hc'.
Qed.

End Ordering.

(** X5.  No FAILED record is counted twice: the counts of the
    failed-login findings of a user add up to at most that user's
    FAILED records, and the counts of all findings to at most the
    FAILED records of the input. *)
Theorem failed_login_findings_count_each_record_once {P : Platform}
    (self : EventDetector) (entries : list LogEntry) :
  exists events,
    detectMultipleFailedLogins self entries = Returned events /\
    total_count events <=
      Z.of_nat (length (filter (has_status FAILED) entries)) /\
    forall user,
      total_count (events_for_user user events) <=
      Z.of_nat (length (filter (selected FAILED user) entries)).
Proof.
  assert (Hone : forall user v,
    total_count (failed_logins_of self user v) <= Z.of_nat (length v)).
  { intros user v.
    pose proof (chain_total_count v (failed_logins_emit self user v) 0
                  (failed_logins_of self user v)) as H.
    rewrite Nat.sub_0_r in H. apply H.
    - intros j a n e Ha He.
      destruct (failed_logins_emit_some self user v j n a e Ha He)
        as (_ & Hr & _ & ->). split; [reflexivity | exact Hr].
    - apply failed_logins_of_chain. }
  exists (flat_map
            (fun kv => failed_logins_of self (fst kv) (sort_by_timestamp (snd kv)))
            (group_by_user FAILED entries)).
  split; [apply detectMultipleFailedLogins_run|]. split.
  - rewrite <- (Permutation_length (group_by_user_partition FAILED entries)).
    induction (group_by_user FAILED entries) as [|[k g] m IH]; simpl; [lia|].
    rewrite total_count_app, length_app, Nat2Z.inj_add.
    pose proof (Hone k (sort_by_timestamp g)) as Hk.
    rewrite (Permutation_length (sort_by_timestamp_perm g)) in Hk. lia.
  - intros user.
    destruct (failed_logins_by_user self entries user) as (events & Hrun & Hfor).
    rewrite detectMultipleFailedLogins_run in Hrun. injection Hrun as <-.
    rewrite Hfor.
    rewrite <- (Permutation_length
                  (sort_by_timestamp_perm
                     (filter (selected FAILED user) entries))).
    apply Hone.
Qed.

(** X6.  On an input whose records are at most 2^63 - 1 ticks apart, a
    user gets no failed-login finding exactly when, on the sorted
    vector of their FAILED records, no record together with the run of
    records after it within its window makes up the threshold; in
    particular when they have fewer FAILED records than the threshold.
    Between the records of that vector the window test in exact
    arithmetic is the 64-bit test of the code. *)
Theorem no_failed_login_finding_iff_no_anchor_reaches_threshold
    {P : Platform} (self : EventDetector) (entries : list LogEntry)
    (user : string) :
  span_fits_int64 entries ->
  let v := sort_by_timestamp (filter (selected FAILED user) entries) in
  (forall a b, In a v -> In b v ->
     isWithinTimeWindow_int64 self (timestamp a) (timestamp b) =
     isWithinTimeWindow self (timestamp a) (timestamp b)) /\
  exists events,
    detectMultipleFailedLogins self entries = Returned events /\
    (events_for_user user events = [] <->
     forall i a, nth_error v i = Some a ->
       1 + Z.of_nat (within_run self (timestamp a) (skipn (S i) v)) <
       failed_login_threshold_ self) /\
    (Z.of_nat (length (filter (selected FAILED user) entries)) <
       failed_login_threshold_ self ->
     events_for_user user events = []).
Proof.
  intros Hfit v. split.
  { assert (Hin : forall r, In r v -> In r entries).
    { intros r Hr. apply (Permutation_in _ (sort_by_timestamp_perm _)) in Hr.
      apply filter_In in Hr. tauto. }
    intros a b Ha Hb. apply (span_fits_window_test self entries); auto. }
  destruct (failed_logins_by_user self entries user) as (events & Hrun & Hfor).
  fold v in Hfor. exists events. split; [exact Hrun|].
  rewrite Hfor.
  pose proof (failed_logins_of_chain self user v) as Hc.
  split; [split|].
  - intros Hnil i a Ha. rewrite Hnil in Hc.
    inversion Hc as [? Hnone|]; subst.
    specialize (Hnone i a (Nat.le_0_l i) Ha).
    unfold failed_logins_emit in Hnone. cbv zeta in Hnone.
    destruct (Z.geb_spec
                (1 + Z.of_nat (within_run self (timestamp a) (skipn (S i) v)))
                (failed_login_threshold_ self)); [discriminate | assumption].
  - intros Hall.
    destruct (failed_logins_of self user v) as [|e l]; [reflexivity|].
    exfalso.
    inversion Hc as [|? j a n ? ? _ _ Ha He _]; subst.
    destruct (failed_logins_emit_some self user v j n a e Ha He)
      as (Hn & _ & Hthr & _).
    specialize (Hall j a Ha). rewrite <- Hn in Hall. lia.
  - intros Hlen. apply failed_logins_of_short.
    unfold v. now rewrite (Permutation_length (sort_by_timestamp_perm _)).
Qed.

(** X7.  The findings of a user do not overlap and are not repeated:
    in the output of either clustering detector each finding of a user
    starts no earlier than the one before it ends, and out of the
    window of the start of the one before. *)
Theorem findings_of_a_user_do_not_overlap {P : Platform}
    (self : EventDetector) (entries : list LogEntry) (user : string) :
  (exists events,
     detectMultipleFailedLogins self entries = Returned events /\
     StronglySorted
       (fun f g =>
          last_occurrence f <= first_occurrence g /\
          isWithinTimeWindow self (first_occurrence f) (first_occurrence g)
          = false)
       (events_for_user user events)) /\
  (exists events,
     detectMultipleIPAddresses self entries = Returned events /\
     StronglySorted
       (fun f g =>
          last_occurrence f <= first_occurrence g /\
          isWithinTimeWindow self (first_occurrence f) (first_occurrence g)
          = false)
       (events_for_user user events)).
Proof.
  split.
  - destruct (failed_logins_by_user self entries user) as (events & Hrun & Hfor).
    exists events. split; [exact Hrun|]. rewrite Hfor.
    eapply chain_time_order;
      [apply sort_by_timestamp_sorted | | apply failed_logins_of_chain].
    intros j a n e Ha He.
    destruct (failed_logins_emit_some self user _ j n a e Ha He)
      as (Hn & _ & _ & ->). repeat split. exact Hn.
  - destruct (multiple_ips_by_user self entries user) as (events & Hrun & Hfor).
    exists events. split; [exact Hrun|]. rewrite Hfor.
    eapply chain_time_order;
      [apply sort_by_timestamp_sorted | | apply multiple_ips_of_chain].
    intros j a n e Ha He.
    destruct (multiple_ips_emit_some self user _ j n a e Ha He)
      as (Hn & _ & _ & ->). repeat split. exact Hn.
Qed.

(** X8.  The output of either clustering detector is grouped by user,
    the users in ascending lexicographic order of their names (the
    iteration order of [std::map]). *)
Theorem findings_are_grouped_by_ascending_username {P : Platform}
    (self : EventDetector) (entries : list LogEntry) :
  (exists events,
     detectMultipleFailedLogins self entries = Returned events /\
     StronglySorted username_le events) /\
  (exists events,
     detectMultipleIPAddresses self entries = Returned events /\
     StronglySorted username_le events).
Proof.
  split; eexists.
  - split; [apply detectMultipleFailedLogins_run|].
    apply (flat_map_username_le
             (fun k g => failed_logins_of self k (sort_by_timestamp g))).
    + apply group_by_user_sorted.
    + intros k g. apply failed_logins_of_user.
  - split; [apply detectMultipleIPAddresses_run|].
    apply (flat_map_username_le
             (fun k g => multiple_ips_of self k (sort_by_timestamp g))).
    + apply group_by_user_sorted.
    + intros k g. apply multiple_ips_of_user.
Qed.

(** ** The order of the input *)

Lemma Permutation_filter_same {A : Type} (p : A -> bool) (l l' : list A) :
  Permutation l l' -> Permutation (filter p l) (filter p l').
Proof.
  induction 1 as [|x l l' _ IH|x y l|l l' l'' _ IH1 _ IH2]; simpl.
  - constructor.
  - destruct (p x); [now constructor | exact IH].
  - destruct (p x), (p y); try apply Permutation_refl. apply perm_swap.
  - eapply perm_trans; eassumption.
Qed.

(** Two sorted arrangements of the same records are equal when records
    with equal timestamps are equal. *)
Lemma sorted_perm_ties (l1 l2 : list LogEntry) :
  StronglySorted timestamp_le l1 ->
  StronglySorted timestamp_le l2 ->
  Permutation l1 l2 ->
  (forall a b, In a l2 -> In b l2 -> timestamp a = timestamp b -> a = b) ->
  l1 = l2.
Proof.
  intros H1. revert l2.
  induction H1 as [|x l1 Hs1 IH Hx]; intros l2 H2 Hp Hties.
  - now apply Permutation_nil in Hp.
  - destruct l2 as [|y l2];
      [apply Permutation_sym, Permutation_nil in Hp; discriminate|].
    apply StronglySorted_inv in H2. destruct H2 as [Hs2 Hy].
    rewrite Forall_forall in Hx, Hy.
    assert (Hxin : In x (y :: l2))
      by (eapply Permutation_in; [exact Hp | now left]).
    assert (Hyin : In y (x :: l1))
      by (eapply Permutation_in; [apply Permutation_sym; exact Hp | now left]).
    assert (Hxy : x = y).
    { apply Hties; [exact Hxin | now left |].
      assert (timestamp y <= timestamp x)
        by (destruct Hxin as [->|Hxin]; [lia | exact (Hy x Hxin)]).
      assert (timestamp x <= timestamp y)
        by (destruct Hyin as [->|Hyin]; [lia | exact (Hx y Hyin)]).
      lia. }
    subst y. f_equal. apply IH; [exact Hs2 | |].
    + now apply Permutation_cons_inv with (a := x).
    + intros a b Ha Hb. apply Hties; now right.
Qed.

Lemma str_lt_sorted_unique (l1 l2 : list string) :
  StronglySorted str_lt l1 -> StronglySorted str_lt l2 ->
  (forall x, In x l1 <-> In x l2) ->
  l1 = l2.
Proof.
  intros H1. revert l2.
  induction H1 as [|x l1 Hs1 IH Hx]; intros l2 H2 Hmem.
  - destruct l2 as [|y l2]; [reflexivity|].
    exfalso. apply (proj2 (Hmem y)). now left.
  - destruct l2 as [|y l2]; [exfalso; apply (proj1 (Hmem x)); now left|].
    apply StronglySorted_inv in H2. destruct H2 as [Hs2 Hy].
    rewrite Forall_forall in Hx, Hy.
    assert (Hxy : x = y).
    { destruct (proj1 (Hmem x) (or_introl eq_refl)) as [->|Hxin]; [reflexivity|].
      destruct (proj2 (Hmem y) (or_introl eq_refl)) as [->|Hyin]; [reflexivity|].
      exfalso. apply (str_lt_irrefl x).
      apply (str_lt_trans x y x); [exact (Hx y Hyin) | exact (Hy x Hxin)]. }
    subst y. f_equal. apply IH; [exact Hs2|].
    intros z. split; intros Hz.
    + destruct (proj1 (Hmem z) (or_intror Hz)) as [<-|Hz2]; [|exact Hz2].
      exfalso. exact (str_lt_irrefl x (Hx x Hz)).
    + destruct (proj2 (Hmem z) (or_intror Hz)) as [<-|Hz1]; [|exact Hz1].
      exfalso. exact (str_lt_irrefl x (Hy x Hz)).
Qed.

(** The keys of the map are the users with a record of the status. *)
Lemma group_by_user_keys (st : LoginStatus) (entries : list LogEntry)
    (k : string) :
  In k (keys (group_by_user st entries)) <->
  exists e, In e entries /\ selected st k e = true.
Proof.
  unfold group_by_user.
  assert (Hgen : forall m,
    In k (keys
            (fold_left
               (fun m entry =>
                  if LoginStatus_eqb (status entry) st
                  then map_push_back m (username entry) entry else m)
               entries m)) <->
    In k (keys m) \/ exists e, In e entries /\ selected st k e = true).
  { induction entries as [|e entries IH]; intros m; simpl.
    - split; [now left | intros [H|(e & [] & _)]; exact H].
    - rewrite IH. unfold selected at 2.
      destruct (LoginStatus_eqb (status e) st) eqn:He.
      + rewrite map_push_back_keys. split.
        * intros [[->|H]|(x & Hx & Hs)]; eauto.
          right. exists e. split; [now left|].
          unfold selected. now rewrite He, String.eqb_refl.
        * intros [H|(x & [<-|Hx] & Hs)]; eauto.
          left. left. unfold selected in Hs. rewrite He in Hs.
          symmetry. now apply String.eqb_eq.
      + split.
        * intros [H|(x & Hx & Hs)]; eauto.
        * intros [H|(x & [<-|Hx] & Hs)]; eauto.
          unfold selected in Hs. rewrite He in Hs. discriminate. }
  rewrite (Hgen []). simpl. tauto.
Qed.

(** The output of a clustering detector, by the keys of the map. *)
Lemma flat_map_by_keys (st : LoginStatus) (entries : list LogEntry)
    (G : string -> list LogEntry -> list SuspiciousEvent) :
  flat_map (fun kv => G (fst kv) (snd kv)) (group_by_user st entries) =
  flat_map (fun k => G k (filter (selected st k) entries))
    (keys (group_by_user st entries)).
Proof.
  pose proof (group_by_user_in st entries) as Hin.
  induction (group_by_user st entries) as [|[k g] m IH]; simpl; [reflexivity|].
  rewrite (Hin k g) by now left.
  f_equal. apply IH. intros u w Huw. apply Hin. now right.
Qed.

Section InputOrder.

Context {P : Platform}.

Lemma grouped_output_permutation (st : LoginStatus)
    (G : string -> list LogEntry -> list SuspiciousEvent)
    (entries entries' : list LogEntry) :
  Permutation entries entries' ->
  (forall a b, In a entries -> In b entries ->
     status a = status b -> username a = username b ->
     timestamp a = timestamp b -> a = b) ->
  flat_map (fun kv => G (fst kv) (sort_by_timestamp (snd kv)))
    (group_by_user st entries') =
  flat_map (fun kv => G (fst kv) (sort_by_timestamp (snd kv)))
    (group_by_user st entries).
Proof.
  intros Hp Hties.
  rewrite !(flat_map_by_keys st _ (fun k g => G k (sort_by_timestamp g))).
  assert (Hkeys : keys (group_by_user st entries') =
                  keys (group_by_user st entries)).
  { apply str_lt_sorted_unique; try apply group_by_user_sorted.
    intros k. rewrite !group_by_user_keys.
    split; intros (e & He & Hs); exists e; split; auto;
      [eapply Permutation_in; [apply Permutation_sym|]; eassumption
      |eapply Permutation_in; eassumption]. }
  rewrite Hkeys. apply flat_map_ext. intros k. f_equal.
  apply sorted_perm_ties; try apply sort_by_timestamp_sorted.
  - eapply perm_trans; [apply sort_by_timestamp_perm|].
    eapply perm_trans;
      [|apply Permutation_sym, sort_by_timestamp_perm].
    apply Permutation_filter_same, Permutation_sym, Hp.
  - intros a b Ha Hb.
    apply (Permutation_in _ (sort_by_timestamp_perm _)) in Ha, Hb.
    apply filter_In in Ha, Hb.
    destruct Ha as [Ha Hsa], Hb as [Hb Hsb].
    apply selected_spec in Hsa, Hsb.
    apply Hties; auto; destruct Hsa, Hsb; congruence.
Qed.

End InputOrder.

(** X9.  The clustering detectors do not depend on the order of the
    input: when two records of the same user and status with the same
    timestamp are the same record, every arrangement of the input
    gives the same findings in the same order. *)
Theorem clustering_detectors_ignore_input_order {P : Platform}
    (self : EventDetector) (entries entries' : list LogEntry) :
  Permutation entries entries' ->
  (forall a b, In a entries -> In b entries ->
     status a = status b -> username a = username b ->
     timestamp a = timestamp b -> a = b) ->
  detectMultipleFailedLogins self entries' =
    detectMultipleFailedLogins self entries /\
  detectMultipleIPAddresses self entries' =
    detectMultipleIPAddresses self entries.
Proof.
  intros Hp Hties. split.
  - rewrite !detectMultipleFailedLogins_run. f_equal.
    exact (grouped_output_permutation FAILED (failed_logins_of self)
             entries entries' Hp Hties).
  - rewrite !detectMultipleIPAddresses_run. f_equal.
    exact (grouped_output_permutation SUCCESS (multiple_ips_of self)
             entries entries' Hp Hties).
Qed.

(** X10.  A user whose SUCCESS records all come from one address gets
    no multi-address finding, however many records there are. *)
Theorem one_address_gives_no_multiple_ip_finding {P : Platform}
    (self : EventDetector) (entries : list LogEntry) (user ip : string) :
  (forall e, In e entries -> status e = SUCCESS -> username e = user ->
     ip_address e = ip) ->
  exists events,
    detectMultipleIPAddresses self entries = Returned events /\
    events_for_user user events = [].
Proof.
  intros Hone.
  destruct (multiple_ips_by_user self entries user) as (events & Hrun & Hfor).
  exists events. split; [exact Hrun|]. rewrite Hfor.
  pose proof (sort_by_timestamp_perm
                (filter (selected SUCCESS user) entries)) as Hp.
  set (v := sort_by_timestamp _) in *.
  pose proof (proj2 (multiple_ips_loop_run self user v)) as Hall.
  destruct (multiple_ips_of self user v) as [|f l]; [reflexivity|].
  exfalso. apply Forall_inv in Hall. destruct Hall as (j & a & n & Ha & He).
  destruct (multiple_ips_emit_some self user v j n a f Ha He)
    as (_ & _ & Hlen & _).
  set (ips := fold_left set_insert _ _) in *.
  assert (Hv : forall r, In r v -> ip_address r = ip).
  { intros r Hr. apply (Permutation_in _ Hp) in Hr.
    apply filter_In in Hr. destruct Hr as [Hr Hs].
    apply selected_spec in Hs. destruct Hs. now apply Hone. }
  assert (Hmem : forall x, In x ips -> x = ip).
  { intros x Hx. apply fold_set_insert_in in Hx. destruct Hx as [Hx|Hx].
    - apply in_map_iff in Hx. destruct Hx as (r & <- & Hr).
      apply Hv. now apply In_firstn, In_skipn in Hr.
    - cbn in Hx. destruct Hx as [<-|[]]. apply Hv.
      now apply (nth_error_In _ _ Ha). }
  assert (Hnd : NoDup ips).
  { apply str_lt_sorted_nodup, fold_set_insert_sorted. repeat constructor. }
  destruct ips as [|x [|y l']]; simpl in Hlen; try lia.
  inversion Hnd as [|? ? Hnx _]; subst. apply Hnx. left.
  rewrite (Hmem x), (Hmem y); auto; simpl; auto.
Qed.

(* ================================================================== *)
(** * Properties of the configuration manager *)
(* ================================================================== *)

Lemma empty_false (s : string) : empty s = false <-> s <> "".
Proof. destruct s; simpl; split; congruence. Qed.

Lemma validateConfiguration_true (self : ConfigManager) :
  validateConfiguration self = true <->
  0 < failed_login_threshold (config_ self) /\
  0 < time_window_minutes (config_ self) /\
  0 <= business_hour_start (config_ self) /\
  business_hour_start (config_ self) < business_hour_end (config_ self) /\
  business_hour_end (config_ self) <= 23 /\
  log_file_path (config_ self) <> "" /\
  report_output_path (config_ self) <> "".
Proof.
  unfold validateConfiguration. cbv zeta.
  rewrite <- !empty_false.
  destruct (Z.leb_spec (failed_login_threshold (config_ self)) 0);
    [intuition (lia || congruence)|].
  destruct (Z.leb_spec (time_window_minutes (config_ self)) 0);
    [intuition (lia || congruence)|].
  rewrite !Z.gtb_ltb, Z.geb_leb.
  destruct (Z.ltb_spec (business_hour_start (config_ self)) 0);
    [simpl; intuition (lia || congruence)|].
  destruct (Z.ltb_spec 23 (business_hour_start (config_ self)));
    [simpl; intuition (lia || congruence)|].
  destruct (Z.ltb_spec (business_hour_end (config_ self)) 0);
    [simpl; intuition (lia || congruence)|].
  destruct (Z.ltb_spec 23 (business_hour_end (config_ self)));
    [simpl; intuition (lia || congruence)|].
  simpl.
  destruct (Z.leb_spec (business_hour_end (config_ self))
              (business_hour_start (config_ self)));
    [intuition (lia || congruence)|].
  destruct (empty (log_file_path (config_ self)));
    [intuition (lia || congruence)|].
  destruct (empty (report_output_path (config_ self)));
    intuition (lia || congruence).
Qed.

(** The loop leaves by [return true] only for a help flag, by
    [return false] with one line of error; it never clears the help
    flag. *)
Lemma args_loop_exit (n : nat) :
  forall args self r self' cerr,
  (length args <= n)%nat ->
  args_loop args self = (r, self', cerr) ->
  match r with
  | None => cerr = [] /\ help_requested_ self' = help_requested_ self
  | Some true => cerr = [] /\ help_requested_ self' = true
  | Some false =>
      length cerr = 1%nat /\ help_requested_ self' = help_requested_ self
  end.
Proof.
  induction n as [|n IH]; intros args self r self' cerr Hlen Hrun.
  - destruct args; [|simpl in Hlen; lia].
    simpl in Hrun. injection Hrun as <- <- <-. auto.
  - destruct args as [|arg rest]; [simpl in Hrun; injection Hrun as <- <- <-; auto|].
    simpl in Hlen. cbn [args_loop] in Hrun.
    repeat
      match type of Hrun with
      | (if ?c then _ else _) = _ => destruct c
      | match ?l with [] => _ | _ :: _ => _ end = _ =>
          let v := fresh "v" in let t := fresh "t" in
          destruct l as [|v t]; [|simpl in Hlen]
      | match ?o with Some _ => _ | None => _ end = _ =>
          let x := fresh "x" in destruct o as [x|]
      | (let (_, _) := ?p in _) = _ => destruct p
      end;
      try (injection Hrun as <- <- <-; auto; fail);
      try (apply IH in Hrun; [|lia]; destruct r as [[|]|]; exact Hrun).
Qed.

(** Arguments read without leaving the loop can be followed by more. *)
Lemma args_loop_app (n : nat) :
  forall before rest self self',
  (length before <= n)%nat ->
  args_loop before self = (None, self', []) ->
  args_loop (before ++ rest) self = args_loop rest self'.
Proof.
  induction n as [|n IH]; intros before rest self self' Hlen Hrun.
  - destruct before; [|simpl in Hlen; lia].
    simpl in Hrun. now injection Hrun as <-.
  - destruct before as [|arg more];
      [simpl in Hrun; now injection Hrun as <-|].
    simpl in Hlen. cbn [args_loop app] in *.
    repeat
      match type of Hrun with
      | (if ?c then _ else _) = _ => destruct c
      | match ?l with [] => _ | _ :: _ => _ end = _ =>
          let v := fresh "v" in let t := fresh "t" in
          destruct l as [|v t]; [|simpl in Hlen]
      | match ?o with Some _ => _ | None => _ end = _ =>
          let x := fresh "x" in let E := fresh "E" in
          destruct o as [x|] eqn:E
      | (let (_, _) := ?p in _) = _ => destruct p
      end;
      try discriminate;
      cbn [app];
      repeat match goal with E : _ = Some _ |- _ => rewrite E; clear E end;
      (apply IH; [lia | exact Hrun]).
Qed.

(** X11.  [parseCommandLineArgs] returns true without a word on
    [std::cerr], and then either help was requested or the stored
    configuration is valid, so that the detector [main] builds from it
    has a positive threshold and window and business hours
    [0 <= start < end <= 23]; it returns false with exactly one line
    on [std::cerr]. *)
Theorem parseCommandLineArgs_outcome (argv : list string)
    (self self' : ConfigManager) (ok : bool) (cerr : list string) :
  parseCommandLineArgs argv self = (ok, self', cerr) ->
  (ok = true ->
   cerr = [] /\
   (help_requested_ self' = true \/
    validateConfiguration self' = true /\
    0 < failed_login_threshold_ (make_detector (config_ self')) /\
    0 < time_window_minutes_ (make_detector (config_ self')) /\
    0 <= business_hour_start_ (make_detector (config_ self')) /\
    business_hour_start_ (make_detector (config_ self')) <
      business_hour_end_ (make_detector (config_ self')) /\
    business_hour_end_ (make_detector (config_ self')) <= 23)) /\
  (ok = false -> length cerr = 1%nat /\ help_requested_ self' = false).
Proof.
  unfold parseCommandLineArgs. cbv zeta.
  destruct (args_loop (tl argv) (set_help_requested self false))
    as [[r s] c] eqn:Hloop.
  pose proof (args_loop_exit (length (tl argv)) _ _ _ _ _ (Nat.le_refl _) Hloop)
    as Hexit.
  destruct r as [[|]|].
  - intros [= <- <- <-]. destruct Hexit as [-> Hh].
    split; [auto | discriminate].
  - intros [= <- <- <-]. destruct Hexit as [Hc Hh].
    split; [discriminate | auto].
  - destruct Hexit as [-> Hh]. simpl in Hh.
    destruct (help_requested_ s) eqn:Hhelp; [discriminate|]. simpl.
    destruct (validateConfiguration s) eqn:Hv; simpl;
      intros [= <- <- <-].
    + split; [|discriminate]. intros _. split; [reflexivity|]. right.
      split; [exact Hv|].
      apply validateConfiguration_true in Hv. simpl. tauto.
    + split; [discriminate | auto].
Qed.

(** X12.  A help flag ends the parse at once: after arguments that were
    read without error, [--help] or [-h] makes [parseCommandLineArgs]
    return true with the help flag set, whatever follows the flag, and
    without the configuration being validated. *)
Theorem help_flag_ends_the_parse (prog flag : string)
    (before after : list string) (self self1 : ConfigManager) :
  flag = "--help" \/ flag = "-h" ->
  args_loop before (set_help_requested self false) = (None, self1, []) ->
  parseCommandLineArgs (prog :: before ++ flag :: after) self =
  (true, set_help_requested self1 true, []).
Proof.
  intros Hflag Hloop. unfold parseCommandLineArgs. cbv zeta. cbn [tl].
  rewrite (args_loop_app (length before) before (flag :: after) _ self1
             (Nat.le_refl _) Hloop).
  destruct Hflag as [-> | ->]; reflexivity.
Qed.

(** X13.  [setConfiguration] stores the new configuration exactly when
    it is valid and then returns true; otherwise it returns false and
    leaves the manager as it was.  A manager whose configuration is
    valid keeps a valid configuration. *)
Theorem setConfiguration_keeps_valid (self : ConfigManager)
    (config : Configuration) :
  let ok := fst (setConfiguration self config) in
  let self' := snd (setConfiguration self config) in
  ok = validateConfiguration (set_config self config) /\
  (ok = true -> self' = set_config self config) /\
  (ok = false -> self' = self) /\
  (validateConfiguration self = true -> validateConfiguration self' = true).
Proof.
  unfold setConfiguration. cbv zeta.
  destruct (validateConfiguration (set_config self config)) eqn:Hv; simpl.
  - repeat split; auto; discriminate.
  - destruct self as [c h]. repeat split; auto; discriminate.
Qed.

(** ** Reading numbers *)

Lemma isdigit_not_minus (c : ascii) : isdigit c = true -> Ascii.eqb c "-" = false.
Proof.
  intros H. destruct (Ascii.eqb_spec c "-") as [->|]; [discriminate H | reflexivity].
Qed.

(** A text of digits only is read as its decimal value. *)
Lemma parseInteger_digits (s : string) :
  s <> "" -> all_digits s = true ->
  parseInteger s =
  if (decimal_value s 0 <? INT_MIN) || (decimal_value s 0 >? INT_MAX)
  then None else Some (decimal_value s 0).
Proof.
  intros Hne Hd. destruct s as [|c rest]; [congruence|].
  unfold parseInteger.
  assert (Hc : Ascii.eqb c "-" = false).
  { apply isdigit_not_minus. simpl in Hd.
    destruct (isdigit c); [reflexivity | discriminate]. }
  rewrite Hc. cbn [andb]. rewrite Hd. reflexivity.
Qed.

(** A minus sign before digits negates the value. *)
Lemma parseInteger_minus (rest : string) :
  rest <> "" -> all_digits rest = true ->
  parseInteger (String "-" rest) =
  if (- decimal_value rest 0 <? INT_MIN) || (- decimal_value rest 0 >? INT_MAX)
  then None else Some (- decimal_value rest 0).
Proof.
  intros Hne Hd. destruct rest as [|c rest]; [congruence|].
  unfold parseInteger.
  change (Ascii.eqb "-" "-") with true. cbn [andb String.length Nat.eqb].
  rewrite Hd. reflexivity.
Qed.

Lemma string_of_uint_digits (d : Decimal.uint) :
  all_digits (NilEmpty.string_of_uint d) = true.
Proof. induction d; simpl; auto. Qed.

Lemma string_of_uint_nonempty (d : Decimal.uint) :
  d <> Decimal.Nil -> NilEmpty.string_of_uint d <> "".
Proof. destruct d; simpl; congruence. Qed.

Lemma string_of_uint_value (d : Decimal.uint) (acc : Z) :
  decimal_value (NilEmpty.string_of_uint d) acc =
  Z.of_N (Unsigned.of_lu (Decimal.rev d)) +
  acc * 10 ^ Z.of_N (Unsigned.usize d).
Proof.
  revert acc.
  induction d; intros acc;
    [ simpl; lia | .. ];
    cbn [NilEmpty.string_of_uint decimal_value];
    rewrite IHd; unfold Decimal.rev at 2; cbn [Decimal.revapp];
    rewrite (Unsigned.of_lu_revapp d);
    cbn [Unsigned.of_lu Unsigned.usize];
    rewrite !N2Z.inj_add, !N2Z.inj_mul, !N2Z.inj_pow, N2Z.inj_succ,
      Z.pow_succ_r by lia;
    simpl Z.of_N; ring.
Qed.

Lemma to_string_pos (p : positive) :
  to_string (Zpos p) = NilEmpty.string_of_uint (Pos.to_uint p).
Proof.
  unfold to_string. simpl.
  pose proof (Unsigned.to_uint_nonnil p).
  now destruct (Pos.to_uint p).
Qed.

Lemma to_string_neg (p : positive) :
  to_string (Zneg p) =
  String "-" (NilEmpty.string_of_uint (Pos.to_uint p)).
Proof.
  unfold to_string. simpl.
  pose proof (Unsigned.to_uint_nonnil p).
  now destruct (Pos.to_uint p).
Qed.

Lemma decimal_value_to_uint (p : positive) :
  decimal_value (NilEmpty.string_of_uint (Pos.to_uint p)) 0 =
  Zpos p.
Proof.
  rewrite string_of_uint_value, <- Unsigned.of_uint_alt, Unsigned.of_to.
  simpl. lia.
Qed.

Lemma all_digits_app (s1 s2 : string) :
  all_digits (s1 +++ s2) = all_digits s1 && all_digits s2.
Proof.
  induction s1 as [|c s1 IH]; simpl; [reflexivity|].
  destruct (isdigit c); simpl; auto.
Qed.

(** X14.  [parseInteger] reads back every [int] from the text
    [std::to_string] gives for it, and whatever it accepts is in the
    range of [int]; a text holding any character that is not a digit,
    other than a minus sign in front, is refused, as are the empty text
    and a lone minus sign. *)
Theorem parseInteger_reads_every_int :
  (forall n, INT_MIN <= n <= INT_MAX -> parseInteger (to_string n) = Some n) /\
  (forall s v, parseInteger s = Some v -> INT_MIN <= v <= INT_MAX) /\
  (forall s1 c s2,
     isdigit c = false -> s1 <> "" \/ c <> "-"%char ->
     parseInteger (s1 +++ String c s2) = None) /\
  parseInteger "" = None /\ parseInteger "-" = None.
Proof.
  split; [|split; [|split]].
  - intros [|p|p] Hr.
    + reflexivity.
    + rewrite to_string_pos, parseInteger_digits.
      * rewrite decimal_value_to_uint.
        destruct (Z.ltb_spec (Zpos p) INT_MIN); [lia|].
        rewrite Z.gtb_ltb.
        destruct (Z.ltb_spec INT_MAX (Zpos p)); [lia | reflexivity].
      * apply string_of_uint_nonempty, Unsigned.to_uint_nonnil.
      * apply string_of_uint_digits.
    + rewrite to_string_neg, parseInteger_minus.
      * rewrite decimal_value_to_uint.
        change (- Zpos p) with (Zneg p).
        destruct (Z.ltb_spec (Zneg p) INT_MIN); [lia|].
        rewrite Z.gtb_ltb.
        destruct (Z.ltb_spec INT_MAX (Zneg p)); [lia | reflexivity].
      * apply string_of_uint_nonempty, Unsigned.to_uint_nonnil.
      * apply string_of_uint_digits.
  - intros s v. unfold parseInteger. destruct s as [|c rest]; [discriminate|].
    destruct (_ && _); [discriminate|].
    destruct (negb _); [discriminate|].
    match goal with
    | |- (if (?x <? _) || (_ >? _) then _ else _) = _ -> _ =>
        generalize x; intros val;
        rewrite Z.gtb_ltb;
        destruct (Z.ltb_spec val INT_MIN); [discriminate|];
        destruct (Z.ltb_spec INT_MAX val); [discriminate|]
    end.
    intros Hv. cbn [orb] in Hv. assert (v = val) by congruence. lia.
  - intros s1 c s2 Hc Hor.
    destruct s1 as [|c1 s1].
    + destruct Hor as [Hor|Hor]; [congruence|].
      cbn [String.append]. unfold parseInteger.
      destruct (Ascii.eqb_spec c "-") as [->|_]; [congruence|].
      cbn [andb]. cbn [all_digits]. now rewrite Hc.
    + cbn [String.append]. unfold parseInteger.
      destruct (Ascii.eqb c1 "-"); cbn [andb].
      * destruct (_ =? 1)%nat; [reflexivity|].
        rewrite all_digits_app. cbn [all_digits]. rewrite Hc.
        now rewrite andb_false_r.
      * change (String c1 (s1 +++ String c s2))
          with (String c1 s1 +++ String c s2).
        rewrite all_digits_app.
        assert (Hd : all_digits (String c s2) = false)
          by (cbn [all_digits]; now rewrite Hc).
        rewrite Hd. now rewrite andb_false_r.
  - split; reflexivity.
Qed.

(* ================================================================== *)
(** * The further statements at concrete inputs *)
(* ================================================================== *)

(** X9 on six records of two users, read backwards. *)
Lemma clustering_detectors_ignore_input_order_witness :
  detectMultipleFailedLogins (mkEventDetector 2 10 8 18)
    (rev alice_four_and_bob) =
    detectMultipleFailedLogins (mkEventDetector 2 10 8 18)
      alice_four_and_bob /\
  detectMultipleIPAddresses (mkEventDetector 2 10 8 18)
    (rev alice_four_and_bob) =
    detectMultipleIPAddresses (mkEventDetector 2 10 8 18)
      alice_four_and_bob.
Proof.
  apply (clustering_detectors_ignore_input_order
           (mkEventDetector 2 10 8 18) alice_four_and_bob
           (rev alice_four_and_bob)).
  - apply Permutation_rev.
  - intros a b Ha Hb _ _ Ht. vm_compute in Ha, Hb.
    in_cases Ha; in_cases Hb; try reflexivity; vm_compute in Ht;
      discriminate.
Defined.

(** X10 on three logins of "alice" from one address and one login of
    "bob" from another. *)
Lemma one_address_gives_no_multiple_ip_finding_witness :
  exists events,
    detectMultipleIPAddresses EventDetector_default
      [ success_at 10 0 "alice" "10.0.0.1";
        success_at 10 1 "bob" "10.0.0.2";
        success_at 10 2 "alice" "10.0.0.1";
        success_at 10 3 "alice" "10.0.0.1" ] = Returned events /\
    events_for_user "alice" events = [].
Proof.
  apply (one_address_gives_no_multiple_ip_finding EventDetector_default
           [ success_at 10 0 "alice" "10.0.0.1";
             success_at 10 1 "bob" "10.0.0.2";
             success_at 10 2 "alice" "10.0.0.1";
             success_at 10 3 "alice" "10.0.0.1" ] "alice" "10.0.0.1").
  intros e He _ Hu. vm_compute in He.
  in_cases He; try reflexivity; vm_compute in Hu; discriminate.
Defined.

(** X11 on [loganalyzer --threshold 3 --hours 9-17]. *)
Lemma parseCommandLineArgs_outcome_witness :
  validateConfiguration
    (mkConfigManager
       (mkConfiguration 3 10 9 17 "logs/sample.log" "reports/report.txt")
       false) = true.
Proof.
  destruct (parseCommandLineArgs_outcome
              ["loganalyzer"; "--threshold"; "3"; "--hours"; "9-17"]
              ConfigManager_default
              (mkConfigManager
                 (mkConfiguration 3 10 9 17
                    "logs/sample.log" "reports/report.txt") false)
              true [] eq_refl) as [Hok _].
  destruct (Hok eq_refl) as [_ [Hhelp | [Hvalid _]]].
  - discriminate Hhelp.
  - exact Hvalid.
Defined.

(** X12 on [loganalyzer --threshold 0 --help --bogus]: the threshold is
    not valid and the last argument is not known. *)
Lemma help_flag_ends_the_parse_witness :
  parseCommandLineArgs
    ("loganalyzer" :: ["--threshold"; "0"] ++ "--help" :: ["--bogus"])
    ConfigManager_default =
  (true,
   set_help_requested
     (mkConfigManager
        (mkConfiguration 0 10 8 18 "logs/sample.log" "reports/report.txt")
        false) true,
   []).
Proof.
  apply (help_flag_ends_the_parse "loganalyzer" "--help"
           ["--threshold"; "0"] ["--bogus"] ConfigManager_default).
  - left. reflexivity.
  - reflexivity.
Defined.

(* ================================================================== *)
(** * Reading business hours *)
(* ================================================================== *)

Lemma hours_round_trip_all :
  forallb
    (fun a =>
       forallb (fun b => if Z.of_nat a <? Z.of_nat b
                         then hours_round_trip (Z.of_nat a) (Z.of_nat b)
                         else true)
         (seq 0 24))
    (seq 0 24) = true.
Proof. vm_compute. reflexivity. Qed.

(** X15.  [parseBusinessHours] accepts only ranges [start-end] with
    [0 <= start < end <= 23], the very ranges [validateConfiguration]
    lets pass, and reads every such range back from its decimal text;
    a text that begins with a minus sign is refused. *)
Theorem parseBusinessHours_accepts_the_valid_ranges :
  (forall s a b, parseBusinessHours s = Some (a, b) ->
     0 <= a /\ a < b /\ b <= 23) /\
  (forall a b, 0 <= a -> a < b -> b <= 23 ->
     parseBusinessHours (to_string a +++ "-" +++ to_string b) = Some (a, b)) /\
  (forall s, parseBusinessHours (String "-" s) = None).
Proof.
  split; [|split].
  - intros s a b. unfold parseBusinessHours.
    destruct (index 0 "-" s); [|discriminate].
    destruct (parseInteger _); [|discriminate].
    destruct (parseInteger _); [|discriminate].
    rewrite !Z.gtb_ltb, Z.geb_leb.
    destruct (Z.ltb_spec z 0); [discriminate|].
    destruct (Z.ltb_spec 23 z); [discriminate|].
    destruct (Z.ltb_spec z0 0); [discriminate|].
    destruct (Z.ltb_spec 23 z0); [discriminate|].
    destruct (Z.leb_spec z0 z); [discriminate|].
    cbn [orb]. intros H'. assert (a = z /\ b = z0) as [-> ->]
      by (split; congruence).
    lia.
  - intros a b Ha Hab Hb.
    pose proof hours_round_trip_all as Hall.
    rewrite forallb_forall in Hall.
    specialize (Hall (Z.to_nat a)).
    rewrite forallb_forall in Hall.
    specialize (Hall ltac:(apply in_seq; lia) (Z.to_nat b)
                  ltac:(apply in_seq; lia)).
    rewrite !Z2Nat.id in Hall by lia.
    destruct (Z.ltb_spec a b); [|lia].
    unfold hours_round_trip in Hall.
    destruct (parseBusinessHours _) as [[x y]|]; [|discriminate].
    apply andb_prop in Hall. destruct Hall as [Hx Hy].
    apply Z.eqb_eq in Hx, Hy. now subst.
  - intros s. unfold parseBusinessHours.
    destruct s; reflexivity.
Qed.

(* ================================================================== *)
(** * Trimming a field *)
(* ================================================================== *)

Lemma string_of_list_ascii_app (a b : list ascii) :
  string_of_list_ascii (a ++ b) =
  string_of_list_ascii a +++ string_of_list_ascii b.
Proof.
  induction a as [|c a IH]; [reflexivity|].
  cbn [app string_of_list_ascii String.append]. now rewrite IH.
Qed.

Lemma list_ascii_of_string_app (a b : string) :
  list_ascii_of_string (a +++ b) =
  list_ascii_of_string a ++ list_ascii_of_string b.
Proof.
  induction a as [|c a IH]; [reflexivity|].
  cbn [app list_ascii_of_string String.append]. now rewrite IH.
Qed.

Lemma append_empty_r (s : string) : s +++ "" = s.
Proof.
  induction s as [|c s IH]; [reflexivity|].
  cbn [String.append]. now rewrite IH.
Qed.

Lemma forallb_rev {A : Type} (f : A -> bool) (l : list A) :
  forallb f (rev l) = forallb f l.
Proof.
  induction l as [|x l IH]; [reflexivity|].
  cbn [rev forallb]. rewrite forallb_app, IH. cbn [forallb].
  rewrite andb_true_r. apply andb_comm.
Qed.

Lemma find_if_not_space_spaces (l : list ascii) :
  forallb isspace l = true -> find_if_not_space l = length l.
Proof.
  induction l as [|c l IH]; [reflexivity|].
  cbn [forallb find_if_not_space length]. intros H.
  apply andb_prop in H. destruct H as [Hc Hl].
  rewrite Hc. now rewrite IH.
Qed.

Lemma find_if_not_space_app (l1 l : list ascii) :
  forallb isspace l1 = true ->
  find_if_not_space (l1 ++ l) = (length l1 + find_if_not_space l)%nat.
Proof.
  induction l1 as [|c l1 IH]; [reflexivity|].
  cbn [forallb find_if_not_space length app]. intros H.
  apply andb_prop in H. destruct H as [Hc Hl].
  rewrite Hc. now rewrite IH.
Qed.

Lemma find_if_not_space_split (l : list ascii) :
  exists l1 l',
    l = l1 ++ l' /\ forallb isspace l1 = true /\
    (l' = [] \/ exists c t, l' = c :: t /\ isspace c = false).
Proof.
  induction l as [|c l (l1 & l' & Hl & H1 & H')].
  - exists [], []. auto.
  - destruct (isspace c) eqn:Hc.
    + exists (c :: l1), l'. cbn [forallb app]. rewrite Hc, H1, <- Hl. auto.
    + exists [], (c :: l). split; [reflexivity|]. split; [reflexivity|].
      right. now exists c, l.
Qed.

(** The text between the outer white space is what [trim] returns. *)
Lemma trim_chars (l1 core l2 : list ascii) (c d : ascii) (m m' : list ascii) :
  forallb isspace l1 = true -> forallb isspace l2 = true ->
  core = c :: m -> rev core = d :: m' ->
  isspace c = false -> isspace d = false ->
  trim (string_of_list_ascii (l1 ++ core ++ l2)) = string_of_list_ascii core.
Proof.
  intros H1 H2 Hcore Hrev Hc Hd. unfold trim.
  rewrite list_ascii_of_string_of_list_ascii.
  assert (Hs : find_if_not_space (l1 ++ core ++ l2) = length l1).
  { rewrite find_if_not_space_app by exact H1.
    rewrite Hcore. cbn [app find_if_not_space]. rewrite Hc. lia. }
  assert (He : find_if_not_space (rev (l1 ++ core ++ l2)) = length l2).
  { rewrite !rev_app_distr, <- app_assoc.
    rewrite find_if_not_space_app by (now rewrite forallb_rev).
    rewrite Hrev. cbn [app find_if_not_space]. rewrite Hd.
    rewrite length_rev. lia. }
  cbv zeta. rewrite Hs, He, !length_app.
  assert (Hn : (0 < length core)%nat) by (rewrite Hcore; cbn [length]; lia).
  destruct (Nat.ltb_spec (length l1)
              (length l1 + (length core + length l2) - length l2)); [|lia].
  f_equal.
  rewrite skipn_app, skipn_all, Nat.sub_diag. cbn [skipn app].
  replace (length l1 + (length core + length l2) - length l2 - length l1)%nat
    with (length core + 0)%nat by lia.
  rewrite firstn_app_2. cbn [firstn]. apply app_nil_r.
Qed.

Lemma trim_spaces (l : list ascii) :
  forallb isspace l = true -> trim (string_of_list_ascii l) = "".
Proof.
  intros H. unfold trim. rewrite list_ascii_of_string_of_list_ascii.
  cbv zeta.
  rewrite (find_if_not_space_spaces l H).
  rewrite (find_if_not_space_spaces (rev l)) by (now rewrite forallb_rev).
  rewrite length_rev, Nat.sub_diag.
  destruct (Nat.ltb_spec (length l) 0); [lia | reflexivity].
Qed.

(** A text is white space only, or white space around a text that
    neither begins nor ends with white space. *)
Lemma outer_split (l : list ascii) :
  forallb isspace l = true \/
  exists l1 core l2 c m d m',
    l = l1 ++ core ++ l2 /\
    forallb isspace l1 = true /\ forallb isspace l2 = true /\
    core = c :: m /\ rev core = d :: m' /\
    isspace c = false /\ isspace d = false.
Proof.
  destruct (find_if_not_space_split l) as (l1 & l' & Hl & H1 & [->|H']).
  - left. rewrite Hl, app_nil_r. exact H1.
  - right. destruct H' as (c & t & Hl' & Hc).
    destruct (find_if_not_space_split (rev l'))
      as (r1 & r' & Hr & Hr1 & [->|(d & t' & -> & Hd)]).
    + exfalso. rewrite app_nil_r in Hr. rewrite <- Hr in Hr1.
      rewrite forallb_rev, Hl' in Hr1. cbn [forallb] in Hr1.
      rewrite Hc in Hr1. discriminate.
    + assert (Hl2 : l' = rev (d :: t') ++ rev r1).
      { rewrite <- rev_app_distr, <- Hr. symmetry. apply rev_involutive. }
      destruct (rev (d :: t')) as [|c' m] eqn:Hcore.
      * exfalso. apply (f_equal (@length ascii)) in Hcore.
        rewrite length_rev in Hcore. discriminate.
      * exists l1, (c' :: m), (rev r1), c, m, d, t'.
        assert (c' = c) as -> by (rewrite Hl' in Hl2; now inversion Hl2).
        split; [now rewrite Hl, Hl2|].
        split; [exact H1|]. split; [now rewrite forallb_rev|].
        split; [reflexivity|].
        split; [rewrite <- Hcore; apply rev_involutive|]. auto.
Qed.

Lemma trim_of_clean (s : string) : outer_clean s = true -> trim s = s.
Proof.
  unfold outer_clean. intros H.
  rewrite <- (string_of_list_ascii_of_string s) at 1 2.
  destruct (list_ascii_of_string s) as [|c m] eqn:Hl; [reflexivity|].
  destruct (rev (c :: m)) as [|d m'] eqn:Hr.
  - apply (f_equal (@length ascii)) in Hr. rewrite length_rev in Hr.
    discriminate.
  - apply andb_prop in H. destruct H as [Hc Hd].
    apply negb_true_iff in Hc, Hd.
    rewrite <- (trim_chars [] (c :: m) [] c d m m') at 2; auto.
    now rewrite app_nil_r.
Qed.

Lemma trim_decompose (s : string) :
  exists l1 l2,
    s = l1 +++ trim s +++ l2 /\
    all_space l1 = true /\ all_space l2 = true /\
    outer_clean (trim s) = true /\
    (trim s = "" <-> all_space s = true).
Proof.
  unfold all_space.
  destruct (outer_split (list_ascii_of_string s))
    as [Hsp | (l1 & core & l2 & c & m & d & m' & Hl & H1 & H2 & Hcore & Hrev
               & Hc & Hd)].
  - assert (Ht : trim s = "").
    { rewrite <- (string_of_list_ascii_of_string s). now apply trim_spaces. }
    exists s, "". rewrite Ht. cbn [String.append]. rewrite append_empty_r.
    repeat split; auto.
  - assert (Hs : s = string_of_list_ascii (l1 ++ core ++ l2))
      by (rewrite <- Hl; symmetry; apply string_of_list_ascii_of_string).
    assert (Ht : trim s = string_of_list_ascii core)
      by (rewrite Hs; eapply trim_chars; eassumption).
    exists (string_of_list_ascii l1), (string_of_list_ascii l2).
    rewrite Ht, !list_ascii_of_string_of_list_ascii.
    split; [now rewrite <- !string_of_list_ascii_app|].
    split; [exact H1|]. split; [exact H2|]. split.
    + unfold outer_clean. rewrite list_ascii_of_string_of_list_ascii.
      rewrite Hrev, Hcore, Hc, Hd. reflexivity.
    + split.
      * rewrite Hcore. discriminate.
      * rewrite Hl, !forallb_app, Hcore. cbn [forallb]. rewrite Hc.
        rewrite andb_false_r. discriminate.
Qed.

(** X16.  [trim] takes away white space at the two ends and nothing
    else: the text is what [trim] returns with white space before and
    after it, and what [trim] returns neither begins nor ends with
    white space. *)
Theorem trim_strips_exactly_the_outer_whitespace (s : string) :
  exists before after,
    s = before +++ trim s +++ after /\
    all_space before = true /\ all_space after = true /\
    outer_clean (trim s) = true.
Proof.
  destruct (trim_decompose s) as (l1 & l2 & H). exists l1, l2. tauto.
Qed.

(** X17.  Trimming twice is trimming once; [trim] leaves a text as it
    is exactly when the text neither begins nor ends with white space,
    and returns the empty text exactly when there is nothing but white
    space. *)
Theorem trim_fixed_points (s : string) :
  trim (trim s) = trim s /\
  (trim s = s <-> outer_clean s = true) /\
  (trim s = "" <-> all_space s = true).
Proof.
  destruct (trim_decompose s) as (l1 & l2 & _ & _ & _ & Hclean & Hempty).
  split; [now apply trim_of_clean|]. split; [|exact Hempty].
  split; [|apply trim_of_clean].
  intros H. now rewrite H in Hclean.
Qed.

(* ================================================================== *)
(** * Reading a line of the log *)
(* ================================================================== *)

Lemma has_char_app (c : ascii) (a b : string) :
  has_char c (a +++ b) = has_char c a || has_char c b.
Proof.
  induction a as [|x a IH]; [reflexivity|].
  cbn [String.append has_char]. now rewrite IH, orb_assoc.
Qed.

Lemma count_char_app (c : ascii) (a b : string) :
  count_char c (a +++ b) = (count_char c a + count_char c b)%nat.
Proof.
  induction a as [|x a IH]; [reflexivity|].
  cbn [String.append count_char]. rewrite IH. lia.
Qed.

Lemma count_char_has_char (c : ascii) (s : string) :
  has_char c s = false <-> count_char c s = O.
Proof.
  induction s as [|x s IH]; [easy|].
  cbn [has_char count_char]. destruct (Ascii.eqb x c); cbn [orb].
  - split; [discriminate | cbn; discriminate].
  - exact IH.
Qed.

Lemma all_space_has_char (c : ascii) (s : string) :
  all_space s = true -> isspace c = false -> has_char c s = false.
Proof.
  unfold all_space. induction s as [|x s IH]; [reflexivity|].
  cbn [list_ascii_of_string forallb has_char]. intros H Hc.
  apply andb_prop in H. destruct H as [Hx Hs].
  destruct (Ascii.eqb_spec x c) as [->|_]; [congruence|].
  now apply IH.
Qed.

(** [trim] brings in no character, and drops none but white space. *)
Lemma trim_has_char (c : ascii) (s : string) :
  (has_char c s = false -> has_char c (trim s) = false) /\
  (isspace c = false -> has_char c (trim s) = has_char c s).
Proof.
  destruct (trim_decompose s) as (l1 & l2 & Hs & H1 & H2 & _).
  split.
  - intros H. rewrite Hs, !has_char_app in H.
    apply orb_false_elim in H. destruct H as [_ H].
    apply orb_false_elim in H. tauto.
  - intros Hc. rewrite Hs at 2. rewrite !has_char_app.
    rewrite (all_space_has_char c l1 H1 Hc), (all_space_has_char c l2 H2 Hc).
    now rewrite orb_false_r.
Qed.

Lemma split_at_spec (d : ascii) (s : string) :
  has_char d (fst (split_at d s)) = false /\
  match snd (split_at d s) with
  | Some rest => s = fst (split_at d s) +++ String d rest
  | None => s = fst (split_at d s)
  end.
Proof.
  induction s as [|c s [IH1 IH2]]; [now split|].
  cbn [split_at]. destruct (Ascii.eqb_spec c d) as [->|Hne].
  - now split.
  - destruct (split_at d s) as [field rest]. cbn [fst snd] in *.
    split.
    + cbn [has_char]. rewrite IH1.
      destruct (Ascii.eqb_spec c d); [contradiction | reflexivity].
    + destruct rest; cbn [String.append]; now f_equal.
Qed.

Lemma split_at_field (d : ascii) (f rest : string) :
  has_char d f = false -> split_at d (f +++ String d rest) = (f, Some rest).
Proof.
  induction f as [|c f IH]; cbn [String.append has_char split_at].
  - intros _. now rewrite Ascii.eqb_refl.
  - intros H. apply orb_false_elim in H. destruct H as [Hc Hf].
    rewrite Hc, (IH Hf). reflexivity.
Qed.

Lemma split_at_last (d : ascii) (f : string) :
  has_char d f = false -> split_at d f = (f, None).
Proof.
  induction f as [|c f IH]; cbn [has_char split_at]; [reflexivity|].
  intros H. apply orb_false_elim in H. destruct H as [Hc Hf].
  rewrite Hc, (IH Hf). reflexivity.
Qed.

Lemma getline_field (d : ascii) (f rest : string) :
  has_char d f = false ->
  getline (Some (f +++ String d rest)) d = Some (f, Some rest).
Proof.
  intros H. unfold getline. rewrite (split_at_field d f rest H).
  now destruct f.
Qed.

Lemma getline_some (ss ss' : option string) (d : ascii) (f : string) :
  getline ss d = Some (f, ss') ->
  exists s,
    ss = Some s /\ has_char d f = false /\
    match ss' with
    | Some rest => s = f +++ String d rest
    | None => s = f /\ f <> ""
    end.
Proof.
  destruct ss as [s|]; [|discriminate]. unfold getline.
  destruct s as [|c s]; [discriminate|].
  intros H. exists (String c s).
  assert (H' : split_at d (String c s) = (f, ss')) by congruence.
  pose proof (split_at_spec d (String c s)) as [H1 H2].
  rewrite H' in H1, H2. cbn [fst snd] in H1, H2.
  split; [reflexivity|]. split; [exact H1|].
  destruct ss'; [exact H2|]. split; [exact H2|]. now rewrite <- H2.
Qed.

Lemma toupper_not_bar (x : ascii) :
  Ascii.eqb (toupper x) "|" = Ascii.eqb x "|".
Proof. destruct x as [[] [] [] [] [] [] [] []]; reflexivity. Qed.

Lemma string_map_toupper_bar (s : string) :
  has_char "|" (string_map toupper s) = has_char "|" s.
Proof.
  induction s as [|x s IH]; [reflexivity|].
  cbn [string_map has_char]. now rewrite toupper_not_bar, IH.
Qed.

Lemma parseStatus_bar (s : string) :
  has_char "|" s = true -> parseStatus s = UNKNOWN.
Proof.
  intros H. rewrite <- string_map_toupper_bar in H. unfold parseStatus.
  destruct (String.eqb_spec (string_map toupper s) "SUCCESS") as [E|_];
    [rewrite E in H; discriminate|].
  destruct (String.eqb_spec (string_map toupper s) "FAILED") as [E|_];
    [rewrite E in H; discriminate|].
  reflexivity.
Qed.

Section LogParserFacts.

Variable parseTimestamp : string -> option time_point.

(** What a line that [parseLogLine] accepts looks like. *)
Lemma parseLogLine_inv (line : string) (e : LogEntry) :
  parseLogLine parseTimestamp line = Some e ->
  exists f1 f2 f3 f4 status_str,
    line = f1 +++ "|" +++ f2 +++ "|" +++ f3 +++ "|" +++ f4 /\
    has_char "|" f1 = false /\ has_char "|" f2 = false /\
    has_char "|" f3 = false /\
    status_str = fst (split_at "010" f4) /\
    trim f1 <> "" /\ trim f2 <> "" /\ trim f3 <> "" /\
    trim status_str <> "" /\
    parseTimestamp (trim f1) = Some (timestamp e) /\
    username e = trim f2 /\ ip_address e = trim f3 /\
    status e = parseStatus (trim status_str).
Proof.
  unfold parseLogLine. cbv zeta.
  destruct (getline (Some line) "|") as [[f1 ss1]|] eqn:G1; [|discriminate].
  destruct (getline ss1 "|") as [[f2 ss2]|] eqn:G2; [|discriminate].
  destruct (getline ss2 "|") as [[f3 ss3]|] eqn:G3; [|discriminate].
  destruct (getline ss3 "010") as [[f4 ss4]|] eqn:G4; [|discriminate].
  destruct (empty (trim f1)) eqn:E1; [discriminate|].
  destruct (empty (trim f2)) eqn:E2; [discriminate|].
  destruct (empty (trim f3)) eqn:E3; [discriminate|].
  destruct (empty (trim f4)) eqn:E4; [discriminate|].
  cbn [orb].
  destruct (parseTimestamp (trim f1)) as [t|] eqn:Ht; [|discriminate].
  intros [= <-]. cbn [timestamp username ip_address status].
  apply getline_some in G1, G2, G3.
  destruct G1 as (s1 & Hs1 & N1 & L1).
  assert (s1 = line) by congruence. subst s1. clear Hs1.
  destruct G2 as (s2 & -> & N2 & L2).
  destruct G3 as (s3 & -> & N3 & L3).
  destruct ss3 as [s4|]; [|discriminate].
  subst line s2 s3.
  exists f1, f2, f3, s4, f4.
  assert (Hf4 : f4 = fst (split_at "010" s4)).
  { unfold getline in G4. destruct s4 as [|a s4]; [discriminate|].
    assert (G4' : split_at "010" (String a s4) = (f4, ss4)) by congruence.
    now rewrite G4'. }
  apply empty_false in E1, E2, E3, E4.
  cbn [String.append].
  repeat split; auto.
Qed.

(** X18.  On a line of four fields parted by [|], the first three free
    of [|] and the last free of a line break, [parseLogLine] refuses
    when a trimmed field is empty or the trimmed first field is no
    timestamp, and otherwise returns the trimmed fields; whatever
    follows the third [|] is the status text. *)
Theorem parseLogLine_on_four_fields (f1 f2 f3 f4 : string) :
  has_char "|" f1 = false -> has_char "|" f2 = false ->
  has_char "|" f3 = false -> has_char "010" f4 = false ->
  parseLogLine parseTimestamp
    (f1 +++ "|" +++ f2 +++ "|" +++ f3 +++ "|" +++ f4) =
  if empty (trim f1) || empty (trim f2) || empty (trim f3) ||
     empty (trim f4)
  then None
  else
    match parseTimestamp (trim f1) with
    | None => None
    | Some t => Some (mkLogEntry t (trim f2) (trim f3) (parseStatus (trim f4)))
    end.
Proof.
  intros H1 H2 H3 H4. unfold parseLogLine. cbv zeta.
  cbn [String.append].
  rewrite (getline_field "|" f1 _ H1), (getline_field "|" f2 _ H2),
    (getline_field "|" f3 _ H3).
  destruct f4 as [|c f4].
  - cbn [getline]. change (trim "") with "". cbn [empty].
    now rewrite !orb_true_r.
  - unfold getline at 1. rewrite (split_at_last "010" _ H4). reflexivity.
Qed.

(** X19.  An entry that [parseLogLine] returns comes from a line with
    at least three [|]; its user name and address are not empty,
    neither begin nor end with white space and hold no [|], and its
    timestamp is what [parseTimestamp] reads from a text of that
    kind. *)
Theorem parseLogLine_entries_are_well_formed (line : string)
    (e : LogEntry) :
  parseLogLine parseTimestamp line = Some e ->
  (3 <= count_char "|" line)%nat /\
  username e <> "" /\ ip_address e <> "" /\
  outer_clean (username e) = true /\ outer_clean (ip_address e) = true /\
  has_char "|" (username e) = false /\
  has_char "|" (ip_address e) = false /\
  exists text,
    parseTimestamp text = Some (timestamp e) /\
    text <> "" /\ outer_clean text = true /\ has_char "|" text = false.
Proof.
  intros H. apply parseLogLine_inv in H.
  destruct H as (f1 & f2 & f3 & f4 & st & -> & N1 & N2 & N3 & _ & E1 & E2
                 & E3 & _ & Ht & -> & -> & _).
  split.
  { rewrite !count_char_app. cbn [count_char Ascii.eqb Bool.eqb]. lia. }
  split; [exact E2|]. split; [exact E3|].
  destruct (trim_decompose f1) as (_ & _ & _ & _ & _ & C1 & _).
  destruct (trim_decompose f2) as (_ & _ & _ & _ & _ & C2 & _).
  destruct (trim_decompose f3) as (_ & _ & _ & _ & _ & C3 & _).
  split; [exact C2|]. split; [exact C3|].
  split; [now apply trim_has_char|]. split; [now apply trim_has_char|].
  exists (trim f1). repeat split; auto. now apply trim_has_char.
Qed.

(** X20.  A fifth field is not dropped but read as part of the status:
    an entry from a line with more than three [|] (and no line break)
    has the status UNKNOWN. *)
Theorem extra_field_makes_the_status_unknown (line : string)
    (e : LogEntry) :
  has_char "010" line = false ->
  parseLogLine parseTimestamp line = Some e ->
  (3 < count_char "|" line)%nat ->
  status e = UNKNOWN.
Proof.
  intros Hnl H Hcount. apply parseLogLine_inv in H.
  destruct H as (f1 & f2 & f3 & f4 & st & -> & N1 & N2 & N3 & Hst & _ & _
                 & _ & _ & _ & _ & _ & ->).
  rewrite !has_char_app in Hnl. cbn [has_char] in Hnl.
  assert (Hnl4 : has_char "010" f4 = false).
  { destruct (has_char "010" f4); [|reflexivity].
    rewrite !orb_true_r in Hnl. discriminate. }
  rewrite (split_at_last "010" f4 Hnl4) in Hst. cbn [fst] in Hst. subst st.
  apply parseStatus_bar.
  rewrite (proj2 (trim_has_char "|" f4)) by reflexivity.
  rewrite !count_char_app in Hcount.
  cbn [count_char Ascii.eqb Bool.eqb] in Hcount.
  apply count_char_has_char in N1, N2, N3.
  destruct (has_char "|" f4) eqn:Hb; [reflexivity|].
  apply count_char_has_char in Hb. lia.
Qed.

End LogParserFacts.

(* ================================================================== *)
(** * Loading the log file *)
(* ================================================================== *)

Section LoadFacts.

Variable parseTimestamp : string -> option time_point.

Ltac line_number := apply f_equal; apply f_equal; lia.

Lemma parsed_entries_empty (line : string) :
  empty line = true -> parsed_entries parseTimestamp line = [].
Proof. destruct line; [reflexivity | discriminate]. Qed.

Lemma load_loop_spec (lines : list string) :
  forall (acc : list LogEntry) (n inv : Z) (cerr : list string),
  exists warnings,
    load_loop parseTimestamp lines acc n inv cerr =
      (acc ++ flat_map (parsed_entries parseTimestamp) lines,
       n + Z.of_nat (length lines),
       inv + Z.of_nat (length warnings),
       cerr ++ warnings) /\
    Z.of_nat (length (flat_map (parsed_entries parseTimestamp) lines)) +
      Z.of_nat (length warnings) + Z.of_nat (length (filter empty lines)) =
      Z.of_nat (length lines) /\
    forall w,
      In w warnings <->
      exists i l,
        nth_error lines i = Some l /\ l <> "" /\
        parseLogLine parseTimestamp l = None /\
        w = "Warning: Skipping invalid log entry at line " +++
            to_string (n + Z.of_nat i + 1).
Proof.
  induction lines as [|line rest IH]; intros acc n inv cerr.
  - exists []. cbn [load_loop flat_map length filter].
    rewrite !app_nil_r, !Z.add_0_r. split; [reflexivity|].
    split; [reflexivity|].
    intros w. split; [intros []|].
    intros ([|i] & l & H & _); discriminate.
  - assert (Hlen : forall k,
              k + 1 + Z.of_nat (length rest) =
              k + Z.of_nat (length (line :: rest)))
      by (intros k; cbn [length]; lia).
    cbn [load_loop]. cbv zeta. cbn [flat_map filter].
    destruct (empty line) eqn:He.
    + destruct (IH acc (n + 1) inv cerr) as (ws & Hrun & Hcount & Hin).
      exists ws. rewrite Hrun, Hlen, (parsed_entries_empty line He).
      split; [reflexivity|].
      split; [cbn [app length]; lia|].
      intros w. rewrite Hin. split.
      * intros (i & l & H1 & H2 & H3 & ->). exists (S i), l.
        repeat split; auto. line_number.
      * intros ([|i] & l & H1 & H2 & H3 & ->).
        -- injection H1 as <-. destruct line; [easy | discriminate].
        -- exists i, l. repeat split; auto. line_number.
    + unfold parsed_entries at 1 3.
      destruct (parseLogLine parseTimestamp line) as [e|] eqn:Hp.
      * destruct (IH (acc ++ [e]) (n + 1) inv cerr)
          as (ws & Hrun & Hcount & Hin).
        exists ws. rewrite Hrun, Hlen, <- app_assoc.
        split; [reflexivity|].
        split; [cbn [app length]; lia|].
        intros w. rewrite Hin. split.
        -- intros (i & l & H1 & H2 & H3 & ->). exists (S i), l.
           repeat split; auto. line_number.
        -- intros ([|i] & l & H1 & H2 & H3 & ->).
           ++ injection H1 as <-. congruence.
           ++ exists i, l. repeat split; auto. line_number.
      * destruct (IH acc (n + 1) (inv + 1)
                    (cerr ++
                     ["Warning: Skipping invalid log entry at line " +++
                      to_string (n + 1)]))
          as (ws & Hrun & Hcount & Hin).
        exists (("Warning: Skipping invalid log entry at line " +++
                 to_string (n + 1)) :: ws).
        rewrite Hrun, Hlen, <- app_assoc.
        split.
        { cbn [app length].
          replace (inv + Z.of_nat (S (length ws)))
            with (inv + 1 + Z.of_nat (length ws)) by lia.
          reflexivity. }
        split; [cbn [app length]; lia|].
        intros w. cbn [In]. rewrite Hin. split.
        -- intros [<- | (i & l & H1 & H2 & H3 & ->)].
           ++ exists O, line. split; [reflexivity|].
              split; [now apply empty_false|]. split; [exact Hp|].
              line_number.
           ++ exists (S i), l. repeat split; auto. line_number.
        -- intros ([|i] & l & H1 & H2 & H3 & ->).
           ++ left. line_number.
           ++ right. exists i, l. repeat split; auto. line_number.
Qed.

(** X21.  Loading a file of fewer than 2^31 lines: every line is
    counted, the entries are what [parseLogLine] returns on the lines,
    in the order of the file, and every line is an entry, an invalid
    line or an empty line.  There is one warning on [std::cerr] for
    each invalid line, naming its number counted from 1; an empty line
    is neither loaded nor warned about. *)
Theorem load_log_file_counts_every_line (lines : list string) :
  Z.of_nat (length lines) <= INT_MAX ->
  exists entries invalid cerr,
    load_log_file parseTimestamp lines =
      (entries, Z.of_nat (length lines), invalid, cerr) /\
    entries = flat_map (parsed_entries parseTimestamp) lines /\
    Z.of_nat (length entries) + invalid +
      Z.of_nat (length (filter empty lines)) = Z.of_nat (length lines) /\
    Z.of_nat (length cerr) = invalid /\
    forall w,
      In w cerr <->
      exists i l,
        nth_error lines i = Some l /\ l <> "" /\
        parseLogLine parseTimestamp l = None /\
        w = "Warning: Skipping invalid log entry at line " +++
            to_string (Z.of_nat i + 1).
Proof.
  intros _. unfold load_log_file.
  destruct (load_loop_spec lines [] 0 0 []) as (ws & Hrun & Hcount & Hin).
  exists (flat_map (parsed_entries parseTimestamp) lines),
    (Z.of_nat (length ws)), ws.
  split; [exact Hrun|]. split; [reflexivity|].
  split; [exact Hcount|]. split; [reflexivity|]. exact Hin.
Qed.

End LoadFacts.

(* ================================================================== *)
(** * Errors on the command line *)
(* ================================================================== *)

(** X22.  An argument that is no option ends the parse at once with
    false and one line on [std::cerr] that names it; what follows is
    not read, and the options read before it stay in the manager:
    nothing is rolled back. *)
Theorem unknown_argument_ends_the_parse (prog arg : string)
    (before after : list string) (self self1 : ConfigManager) :
  existsb (String.eqb arg) known_options = false ->
  args_loop before (set_help_requested self false) = (None, self1, []) ->
  parseCommandLineArgs (prog :: before ++ arg :: after) self =
  (false, self1, ["Error: Unknown argument '" +++ arg +++ "'"]).
Proof.
  intros Harg Hloop. unfold parseCommandLineArgs. cbv zeta. cbn [tl].
  rewrite (args_loop_app (length before) before (arg :: after) _ self1
             (Nat.le_refl _) Hloop).
  unfold known_options in Harg. cbn [existsb] in Harg.
  repeat (apply orb_false_elim in Harg; destruct Harg as [?E Harg]).
  cbn [args_loop]. rewrite E, E0, E1, E2, E3, E4, E5, E6, E7, E8, E9.
  reflexivity.
Qed.

(* ================================================================== *)
(** * The statements on texts at concrete inputs *)
(* ================================================================== *)

(** X18 on the line of the unit tests. *)
Lemma parseLogLine_on_four_fields_witness :
  parseLogLine parseTimestamp_0845 jdoe_line = Some jdoe_entry.
Proof.
  exact (parseLogLine_on_four_fields parseTimestamp_0845
           "2026-01-18 08:45:12 " " jdoe " " 192.168.1.10 " " SUCCESS"
           eq_refl eq_refl eq_refl eq_refl).
Defined.

(** X19 on the same line. *)
Lemma parseLogLine_entries_are_well_formed_witness :
  (3 <= count_char "|" jdoe_line)%nat /\
  username jdoe_entry <> "" /\ ip_address jdoe_entry <> "" /\
  outer_clean (username jdoe_entry) = true /\
  outer_clean (ip_address jdoe_entry) = true /\
  has_char "|" (username jdoe_entry) = false /\
  has_char "|" (ip_address jdoe_entry) = false /\
  exists text,
    parseTimestamp_0845 text = Some (timestamp jdoe_entry) /\
    text <> "" /\ outer_clean text = true /\ has_char "|" text = false.
Proof.
  apply (parseLogLine_entries_are_well_formed parseTimestamp_0845
           jdoe_line jdoe_entry).
  vm_compute. reflexivity.
Defined.

(** X20 on the line of the unit tests with a fifth field. *)
Lemma extra_field_makes_the_status_unknown_witness :
  exists e,
    parseLogLine parseTimestamp_0845 jdoe_line_extra = Some e /\
    status e = UNKNOWN.
Proof.
  eexists. split; [vm_compute; reflexivity|].
  apply (extra_field_makes_the_status_unknown parseTimestamp_0845
           jdoe_line_extra).
  - vm_compute. reflexivity.
  - vm_compute. reflexivity.
  - vm_compute. lia.
Defined.

(** X21 on a file of four lines: an entry, an empty line, a line that
    is no entry and the entry again. *)
Lemma load_log_file_counts_every_line_witness :
  exists entries invalid cerr,
    load_log_file parseTimestamp_0845 four_lines =
      (entries, Z.of_nat (length four_lines), invalid, cerr) /\
    entries = flat_map (parsed_entries parseTimestamp_0845) four_lines /\
    Z.of_nat (length entries) + invalid +
      Z.of_nat (length (filter empty four_lines)) =
      Z.of_nat (length four_lines) /\
    Z.of_nat (length cerr) = invalid /\
    forall w,
      In w cerr <->
      exists i l,
        nth_error four_lines i = Some l /\ l <> "" /\
        parseLogLine parseTimestamp_0845 l = None /\
        w = "Warning: Skipping invalid log entry at line " +++
            to_string (Z.of_nat i + 1).
Proof.
  apply (load_log_file_counts_every_line parseTimestamp_0845 four_lines).
  vm_compute. discriminate.
Defined.

(** X22 on [loganalyzer --threshold 0 --verbose --help]. *)
Lemma unknown_argument_ends_the_parse_witness :
  parseCommandLineArgs
    ("loganalyzer" :: ["--threshold"; "0"] ++ "--verbose" :: ["--help"])
    ConfigManager_default =
  (false,
   mkConfigManager
     (mkConfiguration 0 10 8 18 "logs/sample.log" "reports/report.txt")
     false,
   ["Error: Unknown argument '" +++ "--verbose" +++ "'"]).
Proof.
  apply (unknown_argument_ends_the_parse "loganalyzer" "--verbose"
           ["--threshold"; "0"] ["--help"] ConfigManager_default).
  - reflexivity.
  - reflexivity.
Defined.

(* ================================================================== *)
(** * The statements on the 64-bit window test at concrete inputs *)
(* ================================================================== *)

Ltac span_fits :=
  let a := fresh "a" in
  let b := fresh "b" in
  let Ha := fresh "Ha" in
  let Hb := fresh "Hb" in
  intros a b Ha Hb; vm_compute in Ha, Hb;
  in_cases Ha; in_cases Hb; vm_compute; discriminate.

(** X3 at threshold 2 on six records of two users within seven
    minutes. *)
Lemma failed_login_finding_bounds_witness :
  exists events,
    detectMultipleFailedLogins (mkEventDetector 2 10 8 18)
      alice_four_and_bob = Returned events /\
    Forall
      (fun f =>
         2 <= event_count f /\
         isWithinTimeWindow_int64 (mkEventDetector 2 10 8 18)
           (first_occurrence f) (last_occurrence f) = true)
      events.
Proof.
  destruct (failed_login_finding_bounds (mkEventDetector 2 10 8 18)
              alice_four_and_bob) as (events & Hrun & Hall).
  - span_fits.
  - exists events. split; [exact Hrun|].
    eapply Forall_impl; [|exact Hall].
    intros f (_ & Hthr & _ & _ & _ & Hwin).
    split; [exact Hthr|]. apply Hwin. discriminate.
Defined.

(** X4 on three logins of one user from two addresses within two
    minutes. *)
Lemma multiple_ip_finding_bounds_witness :
  exists events,
    detectMultipleIPAddresses EventDetector_default alice_three_logins =
      Returned events /\
    Forall
      (fun f =>
         2 <= event_count f /\
         isWithinTimeWindow_int64 EventDetector_default
           (first_occurrence f) (last_occurrence f) = true)
      events.
Proof.
  destruct (multiple_ip_finding_bounds EventDetector_default
              alice_three_logins) as (events & Hrun & Hall).
  - span_fits.
  - exists events. split; [exact Hrun|].
    eapply Forall_impl; [|exact Hall].
    intros f (_ & Hcount & _ & _ & Hwin & _). auto.
Defined.

(** X6 with the default threshold of 5 on two FAILED records. *)
Lemma no_failed_login_finding_iff_no_anchor_reaches_threshold_witness :
  exists events,
    detectMultipleFailedLogins EventDetector_default alice_two =
      Returned events /\
    events_for_user "alice" events = [].
Proof.
  pose proof (no_failed_login_finding_iff_no_anchor_reaches_threshold
                EventDetector_default alice_two "alice") as H.
  cbv zeta in H.
  destruct H as (_ & events & Hrun & _ & Hshort).
  - span_fits.
  - exists events. split; [exact Hrun|].
    apply Hshort. vm_compute. reflexivity.
Defined.

(** X23 at 10:00 and 10:10 with the default window of 10 minutes. *)
Lemma isWithinTimeWindow_int64_in_range_witness :
  isWithinTimeWindow_int64 EventDetector_default
    (createTimestamp 10 0) (createTimestamp 10 10) = true.
Proof.
  apply (isWithinTimeWindow_int64_in_range
           EventDetector_default (createTimestamp 10 0) (createTimestamp 10 10)).
  - vm_compute. discriminate.
  - vm_compute. discriminate.
Defined.

(** X24 at the two time points 539 years apart. *)
Lemma isWithinTimeWindow_int64_beyond_range_witness :
  isWithinTimeWindow_int64 EventDetector_default year_2239 year_1700 = true.
Proof.
  apply (isWithinTimeWindow_int64_beyond_range
           EventDetector_default year_2239 year_1700).
  - split; vm_compute; discriminate.
  - split; vm_compute; discriminate.
  - vm_compute. reflexivity.
  - vm_compute. discriminate.
Defined.
